(** * Robot factory (Tmps1.py): construction pipeline, prototype cloning and
    the canvas renderer, embedded over an explicit object heap. *)

From Stdlib Require Import ZArith String Ascii List.
From stdpp Require Import base option list strings gmap pretty.

Open Scope string_scope.

(** ** Python strings

    A [str] is modelled by the bytes of its UTF-8 encoding.  [lower] maps the
    ASCII capitals to their small letters and leaves every other byte alone;
    the source only compares a lowered value with the ASCII words "square",
    "dome", "muscular", "armored", "hydraulic", "robotic", "wide" and "none",
    and no character outside ASCII lowers to a letter of these words, so the
    comparisons agree with [str.lower]. *)

Module Str.

Local Open Scope nat_scope.

Definition lower_ascii (c : ascii) : ascii :=
  let n := nat_of_ascii c in
  if ((65 <=? n)%nat && (n <=? 90)%nat)%bool then ascii_of_nat (n + 32) else c.

Fixpoint lower (s : string) : string :=
  match s with
  | EmptyString => EmptyString
  | String c s' => String (lower_ascii c) (lower s')
  end.

(** The characters [str.isspace] accepts, as UTF-8 byte sequences:
    U+0009..U+000D, U+001C..U+0020, U+0085, U+00A0, U+1680, U+2000..U+200A,
    U+2028, U+2029, U+202F, U+205F, U+3000. *)
Definition bytes (l : list nat) : string :=
  string_of_list_ascii (map ascii_of_nat l).

Definition whitespace : list string :=
  map (fun n => bytes [n]) [9; 10; 11; 12; 13; 28; 29; 30; 31; 32]%nat
  ++ [bytes [194; 133]; bytes [194; 160]; bytes [225; 154; 128]]%nat
  ++ map (fun n => bytes [226; 128; n]) (seq 128 11)
  ++ [bytes [226; 128; 168]; bytes [226; 128; 169]; bytes [226; 128; 175];
      bytes [226; 129; 159]; bytes [227; 128; 128]]%nat.

Fixpoint drop_prefix (p s : string) : option string :=
  match p, s with
  | EmptyString, _ => Some s
  | String a p', String b s' =>
      if Ascii.eqb a b then drop_prefix p' s' else None
  | String _ _, EmptyString => None
  end.

(** One leading whitespace character removed, if there is one. *)
Fixpoint drop_space (ws : list string) (s : string) : option string :=
  match ws with
  | [] => None
  | p :: ws' =>
      match drop_prefix p s with
      | Some s' => Some s'
      | None => drop_space ws' s
      end
  end.

Fixpoint lstrip_fuel (fuel : nat) (s : string) : string :=
  match fuel with
  | O => s
  | S fuel' =>
      match drop_space whitespace s with
      | Some s' => lstrip_fuel fuel' s'
      | None => s
      end
  end.

Definition lstrip (s : string) : string := lstrip_fuel (String.length s) s.

Definition rev_string (s : string) : string :=
  string_of_list_ascii (rev (list_ascii_of_string s)).

Fixpoint rstrip_fuel (fuel : nat) (r : string) : string :=
  match fuel with
  | O => r
  | S fuel' =>
      match drop_space (map rev_string whitespace) r with
      | Some r' => rstrip_fuel fuel' r'
      | None => r
      end
  end.

Definition rstrip (s : string) : string :=
  rev_string (rstrip_fuel (String.length s) (rev_string s)).

(** [str.strip()] with no argument. *)
Definition strip (s : string) : string := rstrip (lstrip s).

(** [str(n)] for a non-negative [int]. *)
Definition of_nat (n : nat) : string := pretty n.

End Str.

Open Scope Z_scope.


(** ** Objects and the heap

    Python values with identity live in a heap indexed by location; a new
    object takes the next free index and objects are never freed.  Strings
    are immutable and are kept by value.  A dict is kept as a finite map:
    the insertion order, which only its [repr] shows, is not recorded. *)

Definition loc := nat.

(** The class of a robot object as [isinstance] sees it; [OtherRobot] stands
    for an instance of any class deriving from neither [HumanoidRobot] nor
    [HeavyRobot]. *)
Inductive RobotClass := HumanoidRobot | HeavyRobot | OtherRobot.

(** The only callable ever bound to a logger: the bound method
    [RobotFactoryApp.update_log] of the running application. *)
Inductive callback := update_log.

Inductive Obj :=
| ODict (d : gmap string string)
| ORobot (cls : RobotClass) (name : string) (components : loc)
| OLogger (gui_callback : option callback).

(** ** Formatted text

    The value of an f-string: literal pieces and, where a robot is
    interpolated, the [repr] of its components dict, which is kept symbolic. *)
Inductive frag :=
| Lit (s : string)
| ReprDict (d : gmap string string).

Definition text := list frag.

(** Concatenation, merging the literals that meet. *)
Fixpoint tapp (a b : text) : text :=
  match a with
  | [] => b
  | [Lit s] =>
      match b with
      | Lit s' :: b' => Lit (s ++ s') :: b'
      | _ => Lit s :: b
      end
  | f :: a' => f :: tapp a' b
  end.

(** ** Canvas items *)

Inductive Shape := Rectangle | Oval | Arc | Line | Text.

Inductive OptVal :=
| VStr (s : string)
| VInt (n : Z)
| VInts (l : list Z)                                    (* a tuple of ints *)
| VFont (family : string) (size : Z) (weight : option string).

(** One canvas item: the shape, the positional coordinates and the keyword
    options as passed to [create_*], in the order they are written.  The
    canvas is the list of its items, oldest first; the ids Tk gives to items
    are outside the model. *)
Record Item := mkItem {
  shape : Shape;
  coords : list Z;
  options : list (string * OptVal)
}.

Module tk.

Local Open Scope nat_scope.

Definition ARC := "arc".
Definition CHORD := "chord".

(** *** Colour names

    The names of the colors manual page of Tk 8.6, each as its words.  A
    name is written with its words joined ("LightBlue") or separated by one
    space ("light blue"); the names of [shaded] also come with a digit 1 to
    4 appended to the joined form, and "gray" and "grey" with a number from
    0 to 100.  Letter case is ignored.  (An X server may know further
    names; the program uses none of them.) *)
Definition shaded : list (list string) :=
  [["snow"]; ["seashell"]; ["antique"; "white"]; ["bisque"];
   ["peach"; "puff"]; ["navajo"; "white"]; ["lemon"; "chiffon"];
   ["cornsilk"]; ["ivory"]; ["honeydew"]; ["lavender"; "blush"];
   ["misty"; "rose"]; ["azure"]; ["slate"; "blue"]; ["royal"; "blue"];
   ["blue"]; ["dodger"; "blue"]; ["steel"; "blue"]; ["deep"; "sky"; "blue"];
   ["sky"; "blue"]; ["light"; "sky"; "blue"]; ["slate"; "gray"];
   ["light"; "steel"; "blue"]; ["light"; "blue"]; ["light"; "cyan"];
   ["pale"; "turquoise"]; ["cadet"; "blue"]; ["turquoise"]; ["cyan"];
   ["dark"; "slate"; "gray"]; ["aquamarine"]; ["dark"; "sea"; "green"];
   ["sea"; "green"]; ["pale"; "green"]; ["spring"; "green"]; ["green"];
   ["chartreuse"]; ["olive"; "drab"]; ["dark"; "olive"; "green"]; ["khaki"];
   ["light"; "goldenrod"]; ["light"; "yellow"]; ["yellow"]; ["gold"];
   ["goldenrod"]; ["dark"; "goldenrod"]; ["rosy"; "brown"];
   ["indian"; "red"]; ["sienna"]; ["burlywood"]; ["wheat"]; ["tan"];
   ["chocolate"]; ["firebrick"]; ["brown"]; ["salmon"]; ["light"; "salmon"];
   ["orange"]; ["dark"; "orange"]; ["coral"]; ["tomato"]; ["orange"; "red"];
   ["red"]; ["deep"; "pink"]; ["hot"; "pink"]; ["pink"]; ["light"; "pink"];
   ["pale"; "violet"; "red"]; ["maroon"]; ["violet"; "red"]; ["magenta"];
   ["orchid"]; ["plum"]; ["medium"; "orchid"]; ["dark"; "orchid"];
   ["purple"]; ["medium"; "purple"]; ["thistle"]].

Definition unshaded : list (list string) :=
  [["ghost"; "white"]; ["white"; "smoke"]; ["gainsboro"]; ["floral"; "white"];
   ["old"; "lace"]; ["linen"]; ["papaya"; "whip"]; ["blanched"; "almond"];
   ["moccasin"]; ["mint"; "cream"]; ["alice"; "blue"]; ["lavender"];
   ["white"]; ["black"]; ["dim"; "gray"]; ["dim"; "grey"]; ["slate"; "grey"];
   ["dark"; "slate"; "grey"]; ["light"; "slate"; "gray"];
   ["light"; "slate"; "grey"]; ["gray"]; ["grey"]; ["light"; "gray"];
   ["light"; "grey"]; ["dark"; "gray"]; ["dark"; "grey"];
   ["midnight"; "blue"]; ["navy"]; ["navy"; "blue"]; ["cornflower"; "blue"];
   ["dark"; "slate"; "blue"]; ["medium"; "slate"; "blue"];
   ["light"; "slate"; "blue"]; ["medium"; "blue"]; ["powder"; "blue"];
   ["dark"; "turquoise"]; ["medium"; "turquoise"]; ["medium"; "aquamarine"];
   ["dark"; "green"]; ["medium"; "sea"; "green"]; ["light"; "sea"; "green"];
   ["lawn"; "green"]; ["medium"; "spring"; "green"]; ["green"; "yellow"];
   ["lime"; "green"]; ["yellow"; "green"]; ["forest"; "green"];
   ["dark"; "khaki"]; ["pale"; "goldenrod"];
   ["light"; "goldenrod"; "yellow"]; ["saddle"; "brown"]; ["peru"];
   ["beige"]; ["sandy"; "brown"]; ["dark"; "salmon"]; ["light"; "coral"];
   ["medium"; "violet"; "red"]; ["violet"]; ["dark"; "violet"];
   ["blue"; "violet"]; ["dark"; "blue"]; ["dark"; "cyan"];
   ["dark"; "magenta"]; ["dark"; "red"]; ["light"; "green"];
   ["aqua"]; ["crimson"]; ["fuchsia"]; ["indigo"]; ["lime"]; ["olive"];
   ["silver"]; ["teal"]].

Definition joined (ws : list string) : string :=
  fold_right String.append "" ws.

Fixpoint spaced (ws : list string) : string :=
  match ws with
  | [] => ""
  | [w] => w
  | w :: ws' => w ++ " " ++ spaced ws'
  end.

Definition color_names : list string :=
  flat_map (fun ws => [joined ws; spaced ws]) (shaded ++ unshaded)
  ++ flat_map (fun ws => map (fun n => joined ws ++ n) ["1"; "2"; "3"; "4"])
       shaded
  ++ flat_map (fun n => ["gray" ++ Str.of_nat n; "grey" ++ Str.of_nat n])
       (seq 0 101).

Definition is_hex (c : ascii) : bool :=
  let n := nat_of_ascii c in
  ((48 <=? n) && (n <=? 57) || (65 <=? n) && (n <=? 70)
   || (97 <=? n) && (n <=? 102))%nat.

(** "#" followed by 3, 6, 9 or 12 hexadecimal digits. *)
Definition hex_color (s : string) : bool :=
  match s with
  | String "#" d =>
      forallb is_hex (list_ascii_of_string d)
      && existsb (Nat.eqb (String.length d)) [3; 6; 9; 12]%nat
  | _ => false
  end.

(** Does Tk know the colour? *)
Definition color_ok (name : string) : bool :=
  hex_color name || existsb (String.eqb (Str.lower name)) color_names.

(** A colour option value Tk takes: the empty string, for no colour, or a
    colour it knows. *)
Definition accepts (value : string) : bool :=
  String.eqb value "" || color_ok value.

(** The first option value Tk refuses, if any: a [fill] or [outline] it
    does not take as a colour.  The other options are written in the
    program as literals Tk takes. *)
Fixpoint refused (opts : list (string * OptVal)) : option string :=
  match opts with
  | [] => None
  | (key, VStr s) :: opts' =>
      if (String.eqb key "fill" || String.eqb key "outline") && negb (accepts s)
      then Some s
      else refused opts'
  | _ :: opts' => refused opts'
  end.

End tk.

Definition fill (s : string) := ("fill", VStr s).
Definition outline (s : string) := ("outline", VStr s).
Definition width (n : Z) := ("width", VInt n).
Definition dash (a b : Z) := ("dash", VInts [a; b]).
Definition start (n : Z) := ("start", VInt n).
Definition extent (n : Z) := ("extent", VInt n).
Definition style (s : string) := ("style", VStr s).
Definition text_ (s : string) := ("text", VStr s).
Definition font (family : string) (size : Z) (weight : option string) :=
  ("font", VFont family size weight).

(** ** The world: heap, class attribute of the logger, standard output and
    the widgets of the single application window. *)
Record World := mkWorld {
  heap : list Obj;
  _instance : option loc;      (* SingletonLogger._instance *)
  stdout : list text;                (* lines written by print *)
  log_text : list text;              (* insertions into the log view *)
  robot_listbox : list text;
  canvas : list Item;
  name_entry : string                (* what the user typed *)
}.

Definition with_heap (h : list Obj) (w : World) : World :=
  mkWorld h (_instance w) (stdout w) (log_text w) (robot_listbox w)
          (canvas w) (name_entry w).
Definition with_instance (i : option loc) (w : World) : World :=
  mkWorld (heap w) i (stdout w) (log_text w) (robot_listbox w)
          (canvas w) (name_entry w).
Definition with_stdout (o : list text) (w : World) : World :=
  mkWorld (heap w) (_instance w) o (log_text w) (robot_listbox w)
          (canvas w) (name_entry w).
Definition with_log_text (t : list text) (w : World) : World :=
  mkWorld (heap w) (_instance w) (stdout w) t (robot_listbox w)
          (canvas w) (name_entry w).
Definition with_robot_listbox (b : list text) (w : World) : World :=
  mkWorld (heap w) (_instance w) (stdout w) (log_text w) b
          (canvas w) (name_entry w).
Definition with_canvas (c : list Item) (w : World) : World :=
  mkWorld (heap w) (_instance w) (stdout w) (log_text w)
          (robot_listbox w) c (name_entry w).

(** ** State and exceptions

    A computation runs on a state and either returns a value or raises; in
    both cases it leaves a state behind: what was written before an
    exception stays written. *)
Inductive Exn :=
| TclError (color : string)        (* unknown or invalid color name *)
| AttributeError                   (* the object lacks the attribute *)
| NameError.                       (* a variable that was never bound *)

Inductive Result (A : Type) :=
| Returns (a : A)
| Raises (e : Exn).
Arguments Returns {A} a.
Arguments Raises {A} e.

Definition ST (S A : Type) : Type := S -> Result A * S.

Definition ret {S A} (a : A) : ST S A := fun s => (Returns a, s).
Definition bind {S A B} (m : ST S A) (k : A -> ST S B) : ST S B :=
  fun s => match m s with
           | (Returns a, s') => k a s'
           | (Raises e, s') => (Raises e, s')
           end.
Definition raise {S A} (e : Exn) : ST S A := fun s => (Raises e, s).

(** Computations on the world. *)
Definition M (A : Type) : Type := ST World A.

Declare Scope py_scope.
Delimit Scope py_scope with py.
Notation "x <- m ;; k" := (bind m (fun x => k))
  (at level 100, m at next level, right associativity) : py_scope.
Notation "m ;; k" := (bind m (fun _ => k))
  (at level 100, right associativity) : py_scope.
Open Scope py_scope.

Definition get_world : M World := fun w => (Returns w, w).
Definition modify (f : World -> World) : M unit := fun w => (Returns tt, f w).

Fixpoint for_ {A} (l : list A) (body : A -> M unit) : M unit :=
  match l with
  | [] => ret tt
  | x :: l' => body x ;; for_ l' body
  end.

Fixpoint mapM {A B} (f : A -> M B) (l : list A) : M (list B) :=
  match l with
  | [] => ret []
  | x :: l' => y <- f x ;; ys <- mapM f l' ;; ret (y :: ys)
  end.

(** [range(start, stop, step)] for a positive step. *)
Definition range (first stop step : Z) : list Z :=
  if 0 <? step
  then map (fun i => first + Z.of_nat i * step)
           (seq 0 (Z.to_nat ((stop - first + step - 1) / step)))
  else [].

(** *** Heap access

    A location that holds no object, which no Python program can get hold
    of, is treated like an object without the attribute asked for. *)

Definition alloc (o : Obj) : M loc :=
  fun w => (Returns (length (heap w)), with_heap (heap w ++ [o]) w).

Definition deref (l : loc) : M Obj :=
  fun w => match heap w !! l with
           | Some o => (Returns o, w)
           | None => (Raises AttributeError, w)
           end.

Definition store (l : loc) (o : Obj) : M unit :=
  fun w => match heap w !! l with
           | Some _ => (Returns tt, with_heap (<[l:=o]> (heap w)) w)
           | None => (Raises AttributeError, w)
           end.

(** [robot.components], the dict the robot refers to. *)
Definition components_of (robot : loc) : M (gmap string string) :=
  o <- deref robot ;;
  match o with
  | ORobot _ _ c =>
      od <- deref c ;;
      match od with
      | ODict d => ret d
      | _ => raise AttributeError
      end
  | _ => raise AttributeError
  end.

(** [d.get(key, default)] *)
Definition dict_get (d : gmap string string) (key default : string) : string :=
  match d !! key with
  | Some v => v
  | None => default
  end.

(** [robot.components.get(key, default)] *)
Definition components_get (robot : loc) (key default : string) : M string :=
  d <- components_of robot ;;
  ret (dict_get d key default).

(** [robot.components[key] = value] *)
Definition components_set (robot : loc) (key value : string) : M unit :=
  o <- deref robot ;;
  match o with
  | ORobot _ _ c =>
      od <- deref c ;;
      match od with
      | ODict d => store c (ODict (<[key:=value]> d))
      | _ => raise AttributeError
      end
  | _ => raise AttributeError
  end.

(** [robot.name] *)
Definition name_of (robot : loc) : M string :=
  o <- deref robot ;;
  match o with
  | ORobot _ n _ => ret n
  | _ => raise AttributeError
  end.

(** [robot.name = value] *)
Definition set_name (robot : loc) (value : string) : M unit :=
  o <- deref robot ;;
  match o with
  | ORobot cls _ c => store robot (ORobot cls value c)
  | _ => raise AttributeError
  end.

(** [isinstance(obj, cls)] for the two robot classes. *)
Definition isinstance (o : Obj) (c : RobotClass) : bool :=
  match o, c with
  | ORobot HumanoidRobot _ _, HumanoidRobot => true
  | ORobot HeavyRobot _ _, HeavyRobot => true
  | _, _ => false
  end.

(** ** Singleton pattern: the logger *)

Module SingletonLogger.

(** [__new__(cls, gui_callback=None)]: the instance is allocated, and its
    callback bound, only while the class attribute is still [None].  The
    class defines no [__init__], so the call does nothing more. *)
Definition __new__ (gui_callback : option callback) : M loc :=
  w <- get_world ;;
  match _instance w with
  | None =>
      l <- alloc (OLogger gui_callback) ;;
      modify (with_instance (Some l)) ;;
      ret l
  | Some l => ret l
  end.

Definition print (line : text) : M unit :=
  modify (fun w => with_stdout (stdout w ++ [line]) w).

(** [RobotFactoryApp.update_log]: the message is appended to the log view. *)
Definition call (f : callback) (message : text) : M unit :=
  match f with
  | update_log => modify (fun w => with_log_text (log_text w ++ [message]) w)
  end.

Definition log (self : loc) (message : text) : M unit :=
  o <- deref self ;;
  match o with
  | OLogger gui_callback =>
      let log_message := tapp [Lit "[LOG]: "] message in
      print log_message ;;
      match gui_callback with
      | Some f => call f (tapp log_message [Lit (String "010" "")])
      | None => ret tt
      end
  | _ => raise AttributeError
  end.

(** [SingletonLogger().log(message)] *)
Definition shared_log (message : string) : M unit :=
  l <- __new__ None ;;
  log l [Lit message].

End SingletonLogger.

(** ** Prototype pattern: robots *)

Module Robot.

(** [Robot.__init__]: a robot with the given name and a fresh empty dict
    (the dict takes the location before the robot's). *)
Definition __init__ (cls : RobotClass) (name : string) : M loc :=
  c <- alloc (ODict ∅) ;;
  alloc (ORobot cls name c).

(** [copy.deepcopy(self)]: a new object of the same class whose attributes
    are deep copies; the name, a string, is shared, the dict is copied. *)
Definition clone (self : loc) : M loc :=
  o <- deref self ;;
  match o with
  | ORobot cls name c =>
      od <- deref c ;;
      match od with
      | ODict d =>
          c' <- alloc (ODict d) ;;
          alloc (ORobot cls name c')
      | _ => raise AttributeError
      end
  | _ => raise AttributeError
  end.

(** [__str__]: f"{self.name}: {self.components}" *)
Definition __str__ (self : loc) : M text :=
  name <- name_of self ;;
  d <- components_of self ;;
  ret (tapp [Lit (name ++ ": ")] [ReprDict d]).

End Robot.

(** ** Abstract factory pattern: part catalogs *)

Class RobotPartFactory (F : Type) := {
  create_head : F -> string;
  create_torso : F -> string;
  create_limbs : F -> string
}.

Inductive HumanoidPartFactory := mkHumanoidPartFactory.
Inductive HeavyPartFactory := mkHeavyPartFactory.

#[global] Instance HumanoidPartFactory_parts : RobotPartFactory HumanoidPartFactory := {
  create_head _ := "Smart Face";
  create_torso _ := "Sleek Body";
  create_limbs _ := "Agile Limbs"
}.

#[global] Instance HeavyPartFactory_parts : RobotPartFactory HeavyPartFactory := {
  create_head _ := "Armored Head";
  create_torso _ := "Reinforced Frame";
  create_limbs _ := "Robust Limbs"
}.

(** ** Builder pattern *)

Class RobotBuilder (B : Type) := {
  build_head : B -> M unit;
  build_torso : B -> M unit;
  build_limbs : B -> M unit;
  get_robot : B -> M loc
}.

Module HumanoidRobotBuilder.

Record t := mk { robot : loc; part_factory : HumanoidPartFactory }.

Definition __init__ (name : string) : M t :=
  r <- Robot.__init__ HumanoidRobot name ;;
  let self := mk r mkHumanoidPartFactory in
  SingletonLogger.shared_log "HumanoidRobotBuilder initialized" ;;
  ret self.

#[global] Instance builder : RobotBuilder t := {
  build_head self :=
    components_set (robot self) "head" (create_head (part_factory self)) ;;
    SingletonLogger.shared_log "Built humanoid head";
  build_torso self :=
    components_set (robot self) "torso" (create_torso (part_factory self)) ;;
    SingletonLogger.shared_log "Built humanoid torso";
  build_limbs self :=
    components_set (robot self) "limbs" (create_limbs (part_factory self)) ;;
    SingletonLogger.shared_log "Built humanoid limbs";
  get_robot self := ret (robot self)
}.

End HumanoidRobotBuilder.

Module HeavyRobotBuilder.

Record t := mk { robot : loc; part_factory : HeavyPartFactory }.

Definition __init__ (name : string) : M t :=
  r <- Robot.__init__ HeavyRobot name ;;
  let self := mk r mkHeavyPartFactory in
  SingletonLogger.shared_log "HeavyRobotBuilder initialized" ;;
  ret self.

#[global] Instance builder : RobotBuilder t := {
  build_head self :=
    components_set (robot self) "head" (create_head (part_factory self)) ;;
    SingletonLogger.shared_log "Built heavy robot head";
  build_torso self :=
    components_set (robot self) "torso" (create_torso (part_factory self)) ;;
    SingletonLogger.shared_log "Built heavy robot torso";
  build_limbs self :=
    components_set (robot self) "limbs" (create_limbs (part_factory self)) ;;
    SingletonLogger.shared_log "Built heavy robot limbs";
  get_robot self := ret (robot self)
}.

End HeavyRobotBuilder.

Module RobotDirector.

Record t (B : Type) := mk { builder : B }.
Arguments mk {B} _.
Arguments builder {B} _.

Definition __init__ {B} `{RobotBuilder B} (b : B) : M (t B) :=
  let self := mk b in
  SingletonLogger.shared_log "RobotDirector initialized" ;;
  ret self.

Definition construct_robot {B} `{RobotBuilder B} (self : t B) : M loc :=
  build_head (builder self) ;;
  build_torso (builder self) ;;
  build_limbs (builder self) ;;
  get_robot (builder self).

End RobotDirector.

(** ** Factory method pattern *)

Class RobotFactory (F : Type) := {
  create_robot : F -> string -> M loc
}.

Inductive HumanoidRobotFactory := mkHumanoidRobotFactory.
Inductive HeavyRobotFactory := mkHeavyRobotFactory.

#[global] Instance HumanoidRobotFactory_create : RobotFactory HumanoidRobotFactory := {
  create_robot _ name :=
    SingletonLogger.shared_log ("Creating Humanoid Robot: " ++ name) ;;
    builder <- HumanoidRobotBuilder.__init__ name ;;
    director <- RobotDirector.__init__ builder ;;
    RobotDirector.construct_robot director
}.

#[global] Instance HeavyRobotFactory_create : RobotFactory HeavyRobotFactory := {
  create_robot _ name :=
    SingletonLogger.shared_log ("Creating Heavy Robot: " ++ name) ;;
    builder <- HeavyRobotBuilder.__init__ name ;;
    director <- RobotDirector.__init__ builder ;;
    RobotDirector.construct_robot director
}.

(** ** The application: actions and the renderer *)

Module RobotFactoryApp.

Record t := mk {
  logger : loc;
  humanoid_factory : HumanoidRobotFactory;
  heavy_factory : HeavyRobotFactory;
  robots : list loc;
  last_robot : option loc
}.

Definition with_robots (rs : list loc) (self : t) : t :=
  mk (logger self) (humanoid_factory self) (heavy_factory self) rs
     (last_robot self).
Definition with_last_robot (r : option loc) (self : t) : t :=
  mk (logger self) (humanoid_factory self) (heavy_factory self)
     (robots self) r.

(** The world a process starts in: nothing allocated, no logger, empty
    widgets; [entry] is the content of the name field. *)
Definition start_world (entry : string) : World :=
  mkWorld [] None [] [] [] [] entry.

(** [__init__], the part after the widgets are laid out. *)
Definition __init__ : M t :=
  logger <- SingletonLogger.__new__ (Some update_log) ;;
  SingletonLogger.log logger [Lit "Application started"] ;;
  ret (mk logger mkHumanoidRobotFactory mkHeavyRobotFactory [] None).

Definition update_robot_list (self : t) : M unit :=
  modify (with_robot_listbox []) ;;
  for_ (robots self) (fun robot =>
    line <- Robot.__str__ robot ;;
    modify (fun w => with_robot_listbox (robot_listbox w ++ [line]) w)).

(** *** Canvas calls

    [create_*] hands the options to Tk; when Tk refuses one, the call raises
    [TclError] and no item is added. *)

Definition create (sh : Shape) (xy : list Z) (opts : list (string * OptVal))
  : M unit :=
  match tk.refused opts with
  | Some color => raise (TclError color)
  | None => modify (fun w => with_canvas (canvas w ++ [mkItem sh xy opts]) w)
  end.

Definition create_rectangle (x1 y1 x2 y2 : Z) := create Rectangle [x1; y1; x2; y2].
Definition create_oval (x1 y1 x2 y2 : Z) := create Oval [x1; y1; x2; y2].
Definition create_arc (x1 y1 x2 y2 : Z) := create Arc [x1; y1; x2; y2].
Definition create_line (x1 y1 x2 y2 : Z) := create Line [x1; y1; x2; y2].
Definition create_text (x y : Z) := create Text [x; y].

(** [self.canvas.delete("all")] *)
Definition canvas_delete_all : M unit := modify (with_canvas []).

Definition draw_robot (self : t) (robot : loc) : M unit :=
  canvas_delete_all ;;
  o <- deref robot ;;
  if isinstance o HumanoidRobot then
    hs <- components_get robot "head_style" "Oval" ;;
    let head_style := Str.lower hs in
    (if String.eqb head_style "square" then
       create_rectangle 170 40 230 100 [fill "peachpuff"; outline "black"; width 2] ;;
       create_line 230 40 230 100 [fill "gray"; width 2; dash 2 2]
     else
       create_oval 170 40 230 100 [fill "peachpuff"; outline "black"; width 2] ;;
       create_arc 175 45 225 95 [start 30; extent 120; style tk.ARC; outline "white"; width 1]) ;;
    eye_color <- components_get robot "eye_color" "black" ;;
    create_oval 185 60 195 70 [fill "white"; outline "black"] ;;
    create_oval 188 63 192 67 [fill eye_color; outline eye_color] ;;
    create_oval 205 60 215 70 [fill "white"; outline "black"] ;;
    create_oval 208 63 212 67 [fill eye_color; outline eye_color] ;;
    create_arc 180 70 220 90 [start 200; extent 140; style tk.CHORD; fill "red"] ;;
    ts <- components_get robot "torso_style" "Standard" ;;
    let torso_style := Str.lower ts in
    (if String.eqb torso_style "muscular" then
       create_rectangle 175 100 215 170 [fill "lightblue"; outline "black"; width 4] ;;
       create_line 175 135 215 135 [fill "blue"; width 2] ;;
       create_line 195 100 195 170 [fill "blue"; width 2]
     else
       create_rectangle 185 100 215 170 [fill "skyblue"; outline "black"; width 2]) ;;
    ars <- components_get robot "arm_style" "Standard" ;;
    let arm_style := Str.lower ars in
    (if String.eqb arm_style "hydraulic" then
       create_line 185 110 150 140 [fill "black"; width 5] ;;
       create_oval 145 135 155 145 [fill "gray"; outline "black"] ;;
       create_line 215 110 250 140 [fill "black"; width 5] ;;
       create_oval 245 135 255 145 [fill "gray"; outline "black"]
     else
       create_line 185 110 150 140 [fill "black"; width 3] ;;
       create_line 215 110 250 140 [fill "black"; width 3] ;;
       create_oval 145 135 155 145 [fill "black"] ;;
       create_oval 245 135 255 145 [fill "black"]) ;;
    legs <- components_get robot "legs" "Standard" ;;
    (if String.eqb (Str.lower legs) "wide" then
       create_rectangle 180 170 200 220 [fill "black"] ;;
       create_rectangle 200 170 220 220 [fill "black"] ;;
       create_oval 190 215 200 225 [fill "gray"; outline "black"] ;;
       create_oval 210 215 220 225 [fill "gray"; outline "black"]
     else
       create_line 190 170 190 220 [fill "black"; width 3] ;;
       create_line 210 170 210 220 [fill "black"; width 3] ;;
       create_oval 185 215 195 225 [fill "black"] ;;
       create_oval 205 215 215 225 [fill "black"]) ;;
    antenna <- components_get robot "antenna" "None" ;;
    (if negb (String.eqb (Str.lower antenna) "none") then
       create_line 200 40 200 15 [fill "green"; width 2] ;;
       create_oval 195 10 205 20 [fill "green"; outline "black"] ;;
       create_oval 197 12 203 18 [fill "lightgreen"; outline "green"]
     else ret tt) ;;
    name <- name_of robot ;;
    create_text 200 20 [text_ name; font "Helvetica" 16 (Some "bold"); fill "darkblue"]
  else if isinstance o HeavyRobot then
    hs <- components_get robot "head_style" "Rectangle" ;;
    let head_style := Str.lower hs in
    (if String.eqb head_style "dome" then
       create_arc 150 40 250 90 [start 0; extent 180; fill "dimgray"; outline "black"; width 3] ;;
       create_line 150 65 250 65 [fill "black"; width 2]
     else
       create_rectangle 150 40 250 90 [fill "dimgray"; outline "black"; width 3]) ;;
    for_ (range 160 240 20) (fun x =>
       create_oval x 45 (x + 10) 55 [fill "black"]) ;;
    ts <- components_get robot "torso_style" "Standard" ;;
    let torso_style := Str.lower ts in
    (if String.eqb torso_style "armored" then
       create_rectangle 140 90 260 180 [fill "gray"; outline "black"; width 4] ;;
       create_line 140 130 260 130 [fill "black"; width 2] ;;
       create_line 200 90 200 180 [fill "black"; width 2]
     else
       create_rectangle 140 90 260 180 [fill "gray"; outline "black"; width 3]) ;;
    ars <- components_get robot "arm_style" "Standard" ;;
    let arm_style := Str.lower ars in
    (if String.eqb arm_style "robotic" then
       create_rectangle 110 90 140 150 [fill "dimgray"; outline "black"; width 3] ;;
       create_rectangle 260 90 290 150 [fill "dimgray"; outline "black"; width 3] ;;
       create_line 125 90 125 70 [fill "black"; width 2] ;;
       create_line 275 90 275 70 [fill "black"; width 2] ;;
       create_oval 120 70 130 80 [fill "black"; outline "gray"] ;;
       create_oval 270 70 280 80 [fill "black"; outline "gray"]
     else
       create_rectangle 110 90 140 150 [fill "dimgray"; outline "black"; width 3] ;;
       create_rectangle 260 90 290 150 [fill "dimgray"; outline "black"; width 3]) ;;
    legs <- components_get robot "legs" "Standard" ;;
    (if String.eqb (Str.lower legs) "wide" then
       create_rectangle 160 180 190 260 [fill "black"; outline "black"] ;;
       create_rectangle 210 180 240 260 [fill "black"; outline "black"] ;;
       create_oval 170 255 180 265 [fill "gray"; outline "black"] ;;
       create_oval 220 255 230 265 [fill "gray"; outline "black"]
     else
       create_rectangle 170 180 190 260 [fill "black"; outline "black"] ;;
       create_rectangle 210 180 230 260 [fill "black"; outline "black"]) ;;
    antenna <- components_get robot "antenna" "None" ;;
    (if negb (String.eqb (Str.lower antenna) "none") then
       create_line 200 40 200 15 [fill "green"; width 2] ;;
       create_oval 195 10 205 20 [fill "green"; outline "black"] ;;
       create_oval 197 12 203 18 [fill "lightgreen"; outline "green"]
     else ret tt) ;;
    name <- name_of robot ;;
    create_text 200 20 [text_ name; font "Helvetica" 16 (Some "bold"); fill "darkred"]
  else
    create_text 200 200 [text_ "Unknown Robot Type"; font "Helvetica" 16 None].

(** [a or b] on strings: the empty string is false. *)
Definition or_ (a b : string) : string :=
  match a with
  | EmptyString => b
  | _ => a
  end.

(** *** The edit dialog *)

Definition antenna_options : list string := ["None"; "Small"; "Large"].
Definition legs_options : list string := ["Standard"; "Wide"].
Definition head_options (humanoid : bool) : list string :=
  if humanoid then ["Oval"; "Square"] else ["Rectangle"; "Dome"].
Definition torso_options (humanoid : bool) : list string :=
  if humanoid then ["Standard"; "Muscular"] else ["Standard"; "Armored"].
Definition arm_options (humanoid : bool) : list string :=
  if humanoid then ["Standard"; "Hydraulic"] else ["Standard"; "Robotic"].
Definition eye_options : list string :=
  ["Black"; "Blue"; "Green"; "Brown"; "Hazel"].

(** The variables of one open dialog. *)
Record EditDialog := mkEditDialog {
  name_var : string;
  antenna_var : string;
  legs_var : string;
  head_var : string;
  torso_var : string;
  arm_var : string;
  eye_var : option string            (* only for a humanoid robot *)
}.

Definition open_edit_dialog (self : t) (robot : loc) : M EditDialog :=
  o <- deref robot ;;
  name <- name_of robot ;;
  antenna <- components_get robot "antenna" "None" ;;
  legs <- components_get robot "legs" "Standard" ;;
  head <- components_get robot "head_style"
            (hd "" (head_options (isinstance o HumanoidRobot))) ;;
  torso <- components_get robot "torso_style" "Standard" ;;
  arm <- components_get robot "arm_style" "Standard" ;;
  if isinstance o HumanoidRobot then
    eye <- components_get robot "eye_color" "Black" ;;
    ret (mkEditDialog name antenna legs head torso arm (Some eye))
  else
    ret (mkEditDialog name antenna legs head torso arm None).

(** The user picks an antenna and a legs style in an open dialog. *)
Definition mkEditDialogOf (dlg : EditDialog) (antenna legs : string)
  : EditDialog :=
  mkEditDialog (name_var dlg) antenna legs (head_var dlg) (torso_var dlg)
    (arm_var dlg) (eye_var dlg).

(** The dialog's [apply_changes] closure over [robot]. *)
Definition apply_changes (self : t) (robot : loc) (dlg : EditDialog) : M unit :=
  let new_name := Str.strip (name_var dlg) in
  (if negb (String.eqb new_name "") then set_name robot new_name else ret tt) ;;
  components_set robot "antenna" (antenna_var dlg) ;;
  components_set robot "legs" (legs_var dlg) ;;
  components_set robot "head_style" (head_var dlg) ;;
  components_set robot "torso_style" (torso_var dlg) ;;
  components_set robot "arm_style" (arm_var dlg) ;;
  o <- deref robot ;;
  (if isinstance o HumanoidRobot then
     match eye_var dlg with
     | Some eye => components_set robot "eye_color" eye
     | None => raise NameError
     end
   else ret tt) ;;
  line <- Robot.__str__ robot ;;
  SingletonLogger.log (logger self) (tapp [Lit "Modified cloned robot: "] line) ;;
  update_robot_list self ;;
  draw_robot self robot.

(** *** Actions

    The button commands assign to attributes of [self]: they run on the
    application object together with the world, and an exception leaves
    both as they are at that point.  [lift] runs statements that only read
    [self]. *)

Definition App (A : Type) : Type := ST (t * World) A.

Definition lift {A} (m : M A) : App A :=
  fun s => let (r, w') := m s.2 in (r, (s.1, w')).
Definition get_self : App t := fun s => (Returns s.1, s).
Definition set_self (f : t -> t) : App unit :=
  fun s => (Returns tt, (f s.1, s.2)).

Definition create_humanoid_robot : App unit :=
  self <- get_self ;;
  robot <- lift (w <- get_world ;;
                 let name :=
                   or_ (Str.strip (name_entry w))
                       ("Humanoid-" ++ Str.of_nat (length (robots self) + 1)) in
                 create_robot (humanoid_factory self) name) ;;
  set_self (with_last_robot (Some robot)) ;;
  set_self (fun self => with_robots (robots self ++ [robot]) self) ;;
  self <- get_self ;;
  lift (line <- Robot.__str__ robot ;;
        SingletonLogger.log (logger self)
          (tapp [Lit "Created humanoid robot: "] line) ;;
        update_robot_list self ;;
        draw_robot self robot).

Definition create_heavy_robot : App unit :=
  self <- get_self ;;
  robot <- lift (w <- get_world ;;
                 let name :=
                   or_ (Str.strip (name_entry w))
                       ("Heavy-" ++ Str.of_nat (length (robots self) + 1)) in
                 create_robot (heavy_factory self) name) ;;
  set_self (with_last_robot (Some robot)) ;;
  set_self (fun self => with_robots (robots self ++ [robot]) self) ;;
  self <- get_self ;;
  lift (line <- Robot.__str__ robot ;;
        SingletonLogger.log (logger self)
          (tapp [Lit "Created heavy robot: "] line) ;;
        update_robot_list self ;;
        draw_robot self robot).

Definition clone_robot : App unit :=
  self <- get_self ;;
  match last_robot self with
  | Some last =>
      new_robot <- lift (new_robot <- Robot.clone last ;;
                         name <- name_of new_robot ;;
                         set_name new_robot (name ++ "_clone") ;;
                         ret new_robot) ;;
      set_self (fun self => with_robots (robots self ++ [new_robot]) self) ;;
      set_self (with_last_robot (Some new_robot)) ;;
      self <- get_self ;;
      lift (line <- Robot.__str__ new_robot ;;
            SingletonLogger.log (logger self)
              (tapp [Lit "Cloned robot: "] line) ;;
            update_robot_list self ;;
            draw_robot self new_robot ;;
            open_edit_dialog self new_robot ;;
            ret tt)
  | None =>
      lift (SingletonLogger.log (logger self) [Lit "No robot to clone."])
  end.

End RobotFactoryApp.

(** ** The rendering contract, region by region

    The pipeline the design describes: head, eyes, mouth, torso, arms, legs,
    antenna, name label, each a function of the attribute map alone.  It is
    compared with [RobotFactoryApp.draw_robot] in [draw_robot_render]. *)

Module Render.

Definition lowered (a : gmap string string) (key default : string) : string :=
  Str.lower (dict_get a key default).

Definition humanoid_head (a : gmap string string) : list Item :=
  if String.eqb (lowered a "head_style" "Oval") "square" then
    [mkItem Rectangle [170; 40; 230; 100] [fill "peachpuff"; outline "black"; width 2];
     mkItem Line [230; 40; 230; 100] [fill "gray"; width 2; dash 2 2]]
  else
    [mkItem Oval [170; 40; 230; 100] [fill "peachpuff"; outline "black"; width 2];
     mkItem Arc [175; 45; 225; 95]
       [start 30; extent 120; style tk.ARC; outline "white"; width 1]].

Definition eye_socket (x : Z) : Item :=
  mkItem Oval [x; 60; x + 10; 70] [fill "white"; outline "black"].
Definition iris (x : Z) (colour : string) : Item :=
  mkItem Oval [x; 63; x + 4; 67] [fill colour; outline colour].

Definition humanoid_eyes (a : gmap string string) : list Item :=
  let eye_color := dict_get a "eye_color" "black" in
  [eye_socket 185; iris 188 eye_color; eye_socket 205; iris 208 eye_color].

(** The mouth: a red chord arc; no attribute is read. *)
Definition humanoid_mouth : Item :=
  mkItem Arc [180; 70; 220; 90] [start 200; extent 140; style tk.CHORD; fill "red"].

Definition humanoid_torso (a : gmap string string) : list Item :=
  if String.eqb (lowered a "torso_style" "Standard") "muscular" then
    [mkItem Rectangle [175; 100; 215; 170] [fill "lightblue"; outline "black"; width 4];
     mkItem Line [175; 135; 215; 135] [fill "blue"; width 2];
     mkItem Line [195; 100; 195; 170] [fill "blue"; width 2]]
  else
    [mkItem Rectangle [185; 100; 215; 170] [fill "skyblue"; outline "black"; width 2]].

Definition humanoid_arms (a : gmap string string) : list Item :=
  if String.eqb (lowered a "arm_style" "Standard") "hydraulic" then
    [mkItem Line [185; 110; 150; 140] [fill "black"; width 5];
     mkItem Oval [145; 135; 155; 145] [fill "gray"; outline "black"];
     mkItem Line [215; 110; 250; 140] [fill "black"; width 5];
     mkItem Oval [245; 135; 255; 145] [fill "gray"; outline "black"]]
  else
    [mkItem Line [185; 110; 150; 140] [fill "black"; width 3];
     mkItem Line [215; 110; 250; 140] [fill "black"; width 3];
     mkItem Oval [145; 135; 155; 145] [fill "black"];
     mkItem Oval [245; 135; 255; 145] [fill "black"]].

Definition humanoid_legs (a : gmap string string) : list Item :=
  if String.eqb (lowered a "legs" "Standard") "wide" then
    [mkItem Rectangle [180; 170; 200; 220] [fill "black"];
     mkItem Rectangle [200; 170; 220; 220] [fill "black"];
     mkItem Oval [190; 215; 200; 225] [fill "gray"; outline "black"];
     mkItem Oval [210; 215; 220; 225] [fill "gray"; outline "black"]]
  else
    [mkItem Line [190; 170; 190; 220] [fill "black"; width 3];
     mkItem Line [210; 170; 210; 220] [fill "black"; width 3];
     mkItem Oval [185; 215; 195; 225] [fill "black"];
     mkItem Oval [205; 215; 215; 225] [fill "black"]].

(** The antenna is the same for both variants. *)
Definition antenna (a : gmap string string) : list Item :=
  if negb (String.eqb (lowered a "antenna" "None") "none") then
    [mkItem Line [200; 40; 200; 15] [fill "green"; width 2];
     mkItem Oval [195; 10; 205; 20] [fill "green"; outline "black"];
     mkItem Oval [197; 12; 203; 18] [fill "lightgreen"; outline "green"]]
  else [].

Definition name_label (name colour : string) : Item :=
  mkItem Text [200; 20] [text_ name; font "Helvetica" 16 (Some "bold"); fill colour].

Definition heavy_head (a : gmap string string) : list Item :=
  (if String.eqb (lowered a "head_style" "Rectangle") "dome" then
     [mkItem Arc [150; 40; 250; 90]
        [start 0; extent 180; fill "dimgray"; outline "black"; width 3];
      mkItem Line [150; 65; 250; 65] [fill "black"; width 2]]
   else
     [mkItem Rectangle [150; 40; 250; 90] [fill "dimgray"; outline "black"; width 3]])
  ++ map (fun x => mkItem Oval [x; 45; x + 10; 55] [fill "black"]) [160; 180; 200; 220].

Definition heavy_torso (a : gmap string string) : list Item :=
  if String.eqb (lowered a "torso_style" "Standard") "armored" then
    [mkItem Rectangle [140; 90; 260; 180] [fill "gray"; outline "black"; width 4];
     mkItem Line [140; 130; 260; 130] [fill "black"; width 2];
     mkItem Line [200; 90; 200; 180] [fill "black"; width 2]]
  else
    [mkItem Rectangle [140; 90; 260; 180] [fill "gray"; outline "black"; width 3]].

Definition heavy_arms (a : gmap string string) : list Item :=
  [mkItem Rectangle [110; 90; 140; 150] [fill "dimgray"; outline "black"; width 3];
   mkItem Rectangle [260; 90; 290; 150] [fill "dimgray"; outline "black"; width 3]]
  ++ (if String.eqb (lowered a "arm_style" "Standard") "robotic" then
        [mkItem Line [125; 90; 125; 70] [fill "black"; width 2];
         mkItem Line [275; 90; 275; 70] [fill "black"; width 2];
         mkItem Oval [120; 70; 130; 80] [fill "black"; outline "gray"];
         mkItem Oval [270; 70; 280; 80] [fill "black"; outline "gray"]]
      else []).

Definition heavy_legs (a : gmap string string) : list Item :=
  if String.eqb (lowered a "legs" "Standard") "wide" then
    [mkItem Rectangle [160; 180; 190; 260] [fill "black"; outline "black"];
     mkItem Rectangle [210; 180; 240; 260] [fill "black"; outline "black"];
     mkItem Oval [170; 255; 180; 265] [fill "gray"; outline "black"];
     mkItem Oval [220; 255; 230; 265] [fill "gray"; outline "black"]]
  else
    [mkItem Rectangle [170; 180; 190; 260] [fill "black"; outline "black"];
     mkItem Rectangle [210; 180; 230; 260] [fill "black"; outline "black"]].

Definition unknown_label : Item :=
  mkItem Text [200; 200] [text_ "Unknown Robot Type"; font "Helvetica" 16 None].

Definition render (v : RobotClass) (a : gmap string string) (name : string)
  : list Item :=
  match v with
  | HumanoidRobot =>
      humanoid_head a ++ humanoid_eyes a ++ [humanoid_mouth]
      ++ humanoid_torso a ++ humanoid_arms a ++ humanoid_legs a
      ++ antenna a ++ [name_label name "darkblue"]
  | HeavyRobot =>
      heavy_head a ++ heavy_torso a ++ heavy_arms a ++ heavy_legs a
      ++ antenna a ++ [name_label name "darkred"]
  | OtherRobot => [unknown_label]
  end.

(** Handing a sequence of items to Tk one by one: the items before the
    first one Tk refuses are drawn, and the call ends there with
    [TclError]. *)
Fixpoint paint (items : list Item) : Result unit * list Item :=
  match items with
  | [] => (Returns tt, [])
  | i :: rest =>
      match tk.refused (options i) with
      | Some color => (Raises (TclError color), [])
      | None => let (res, cv) := paint rest in (res, i :: cv)
      end
  end.

End Render.

(** ** Observations used in the statements *)

(** The robot at [r] is of class [v], is called [name] and its components
    dict holds exactly [a]. *)
Definition entity_at (w : World) (r : loc) (v : RobotClass)
    (a : gmap string string) (name : string) : Prop :=
  exists c, heap w !! r = Some (ORobot v name c) /\ heap w !! c = Some (ODict a).

(** How a render call ends and the canvas content it leaves. *)
Definition drawing (self : RobotFactoryApp.t) (r : loc) (w : World)
  : Result unit * list Item :=
  let (res, w') := RobotFactoryApp.draw_robot self r w in (res, canvas w').

(** The canvas content of a render call that returns, [None] if the call
    raises. *)
Definition rendered (self : RobotFactoryApp.t) (r : loc) (w : World)
  : option (list Item) :=
  match RobotFactoryApp.draw_robot self r w with
  | (Returns _, w') => Some (canvas w')
  | (Raises _, _) => None
  end.

(** The world after one [log] call on a logger whose callback is [cb]. *)
Definition logged (cb : option callback) (message : text) (w : World) : World :=
  let log_message := tapp [Lit "[LOG]: "] message in
  with_log_text
    (match cb with
     | Some update_log => log_text w ++ [tapp log_message [Lit (String "010" "")]]
     | None => log_text w
     end)
    (with_stdout (stdout w ++ [log_message]) w).

(** The class attribute of the logger is unset or refers to a logger. *)
Definition logger_wf (w : World) : Prop :=
  match _instance w with
  | Some l => exists cb, heap w !! l = Some (OLogger cb)
  | None => True
  end.

(** [r] refers to a robot whose components refer to a dict. *)
Definition robot_ok (w : World) (r : loc) : Prop :=
  exists v a name, entity_at w r v a name.

(** What the application relies on between two actions. *)
Definition app_wf (self : RobotFactoryApp.t) (w : World) : Prop :=
  logger_wf w
  /\ (exists cb, heap w !! RobotFactoryApp.logger self = Some (OLogger cb))
  /\ Forall (robot_ok w) (RobotFactoryApp.robots self)
  /\ (forall r, RobotFactoryApp.last_robot self = Some r -> robot_ok w r).

(** A world holding one robot, at location 1, with its dict at location 0. *)
Definition world_of (v : RobotClass) (a : gmap string string) (name : string)
  : World :=
  mkWorld [ODict a; ORobot v name 0%nat] None [] [] [] [] "".

(** The attribute map a finished construction holds: the three labels of
    the catalog, written in the director's order. *)
Definition catalog {F} `{RobotPartFactory F} (f : F) : gmap string string :=
  <["limbs" := create_limbs f]>
    (<["torso" := create_torso f]> (<["head" := create_head f]> ∅)).

(** [r] is a robot of class [v] named [name], newly built in [w'] from [w]
    with attribute map [a]; nothing that existed in [w] was touched. *)
Definition constructed (v : RobotClass) (a : gmap string string)
    (name : string) (w : World) (r : loc) (w' : World) : Prop :=
  entity_at w' r v a name
  /\ heap w !! r = None
  /\ (forall l o, heap w !! l = Some o -> heap w' !! l = Some o)
  /\ logger_wf w'
  /\ canvas w' = canvas w
  /\ robot_listbox w' = robot_listbox w
  /\ name_entry w' = name_entry w.

(** The name a create action gives: the trimmed entry, or the generated
    default when that is empty. *)
Definition chosen_name (variant : string) (self : RobotFactoryApp.t)
    (w : World) : string :=
  if String.eqb (Str.strip (name_entry w)) ""
  then variant ++ "-" ++ Str.of_nat (length (RobotFactoryApp.robots self) + 1)
  else Str.strip (name_entry w).

(** The application object after [r] became its newest robot. *)
Definition recorded (r : loc) (self : RobotFactoryApp.t) : RobotFactoryApp.t :=
  RobotFactoryApp.with_robots (RobotFactoryApp.robots self ++ [r])
    (RobotFactoryApp.with_last_robot (Some r) self).

(** An application object whose logger sits at location 0 and that holds no
    robot yet, as [__init__] leaves it in a fresh process. *)
Definition fresh_app : RobotFactoryApp.t :=
  RobotFactoryApp.mk 0%nat mkHumanoidRobotFactory mkHeavyRobotFactory [] None.

(** The option list the edit dialog offers for an attribute of a robot of
    class [v]; the dialog tests [isinstance(robot, HumanoidRobot)] only, and
    shows the eye colours to humanoid robots alone. *)
Definition documented_options (v : RobotClass) (key : string) : list string :=
  let humanoid := match v with HumanoidRobot => true | _ => false end in
  if String.eqb key "antenna" then RobotFactoryApp.antenna_options
  else if String.eqb key "legs" then RobotFactoryApp.legs_options
  else if String.eqb key "head_style" then RobotFactoryApp.head_options humanoid
  else if String.eqb key "torso_style" then RobotFactoryApp.torso_options humanoid
  else if String.eqb key "arm_style" then RobotFactoryApp.arm_options humanoid
  else if String.eqb key "eye_color"
       then (if humanoid then RobotFactoryApp.eye_options else [])
  else [].

(** [value] is none of the documented options of [key], letter case
    ignored. *)
Definition outside_options (v : RobotClass) (key value : string) : bool :=
  negb (existsb (String.eqb (Str.lower value))
          (map Str.lower (documented_options v key))).

(** The world [__init__] leaves in a fresh process whose name field holds
    [entry]: the logger at location 0, bound to the log view, and its first
    line written. *)
Definition running_world (entry : string) : World :=
  mkWorld [OLogger (Some update_log)] (Some 0%nat)
    [[Lit "[LOG]: Application started"]]
    [[Lit ("[LOG]: Application started" ++ String "010" "")]]
    [] [] entry.

(** One attribute write, aimed at the clone ([true]) or at the original
    ([false]). *)
Definition write (original clone : loc) (op : bool * string * string)
  : M unit :=
  components_set (if op.1.1 then clone else original) op.1.2 op.2.

(** The attribute map of one of the two robots after the writes aimed at
    it, the others skipped. *)
Definition written (to_clone : bool) (ops : list (bool * string * string))
    (a : gmap string string) : gmap string string :=
  fold_left (fun acc op =>
               if Bool.eqb op.1.1 to_clone then <[op.1.2 := op.2]> acc else acc)
            ops a.

(** A running application after one humanoid robot, "Ada", was created:
    the logger at 0, Ada's dict at 1 and Ada at 2. *)
Definition ada_world : World :=
  mkWorld [OLogger (Some update_log);
           ODict (catalog mkHumanoidPartFactory);
           ORobot HumanoidRobot "Ada" 1%nat]
    (Some 0%nat) [] [] [] [] "".

Definition ada_app : RobotFactoryApp.t :=
  RobotFactoryApp.mk 0%nat mkHumanoidRobotFactory mkHeavyRobotFactory
    [2%nat] (Some 2%nat).

(** A session: start with "Ada" typed in, create a humanoid robot, clone it,
    choose a large antenna and wide legs in the dialog and apply; the result
    is what the canvas shows for the original and for the edited clone. *)
Definition session : option (list Item * list Item) :=
  match RobotFactoryApp.__init__ (RobotFactoryApp.start_world "Ada") with
  | (Returns app, w) =>
      match
        (RobotFactoryApp.create_humanoid_robot ;;
         RobotFactoryApp.clone_robot ;;
         self <- RobotFactoryApp.get_self ;;
         match RobotFactoryApp.robots self with
         | [original; clone] =>
             RobotFactoryApp.lift
               (dlg <- RobotFactoryApp.open_edit_dialog self clone ;;
                let dlg :=
                  RobotFactoryApp.mkEditDialogOf dlg "Large" "Wide" in
                RobotFactoryApp.apply_changes self clone dlg ;;
                RobotFactoryApp.draw_robot self original ;;
                w1 <- get_world ;;
                RobotFactoryApp.draw_robot self clone ;;
                w2 <- get_world ;;
                ret (canvas w1, canvas w2))
         | _ => raise AttributeError
         end) (app, w)
      with
      | (Returns shown, _) => Some shown
      | (Raises _, _) => None
      end
  | (Raises _, _) => None
  end.

(** ** The running application as a whole *)

(** The user types into the name field. *)
Definition with_name_entry (s : string) (w : World) : World :=
  mkWorld (heap w) (_instance w) (stdout w) (log_text w) (robot_listbox w)
          (canvas w) s.

(** The line [log] prints for a message, and what the log view receives for
    a list of printed lines when the logger has its callback. *)
Definition log_line (message : text) : text := tapp [Lit "[LOG]: "] message.

Definition newline (line : text) : text := tapp line [Lit (String "010" "")].

Definition echoed (cb : option callback) (lines : list text) : list text :=
  match cb with
  | Some update_log => map newline lines
  | None => []
  end.

(** [str(robot)] read off a heap, and the lines the list box holds after a
    refresh for a collection [rs]. *)
Definition str_of (h : list Obj) (r : loc) : option text :=
  match h !! r with
  | Some (ORobot _ name c) =>
      match h !! c with
      | Some (ODict d) => Some [Lit (name ++ ": "); ReprDict d]
      | _ => None
      end
  | _ => None
  end.

Fixpoint listing (h : list Obj) (rs : list loc) : list text :=
  match rs with
  | [] => []
  | r :: rs' =>
      match str_of h r with
      | Some line => line :: listing h rs'
      | None => listing h rs'
      end
  end.

(** The catalog labels of a robot class. *)
Definition baseline (v : RobotClass) : gmap string string :=
  match v with
  | HumanoidRobot => catalog mkHumanoidPartFactory
  | HeavyRobot => catalog mkHeavyPartFactory
  | OtherRobot => ∅
  end.

(** The attribute map after the dialog's values are applied; the eye colour
    is written for a humanoid robot only. *)
Definition applied (v : RobotClass) (dlg : RobotFactoryApp.EditDialog)
    (a : gmap string string) : gmap string string :=
  let a5 :=
    <["arm_style" := RobotFactoryApp.arm_var dlg]>
      (<["torso_style" := RobotFactoryApp.torso_var dlg]>
         (<["head_style" := RobotFactoryApp.head_var dlg]>
            (<["legs" := RobotFactoryApp.legs_var dlg]>
               (<["antenna" := RobotFactoryApp.antenna_var dlg]> a)))) in
  match v, RobotFactoryApp.eye_var dlg with
  | HumanoidRobot, Some eye => <["eye_color" := eye]> a5
  | _, _ => a5
  end.

(** The name after the dialog is applied: the trimmed entry unless empty. *)
Definition renamed (dlg : RobotFactoryApp.EditDialog) (name : string) : string :=
  if String.eqb (Str.strip (RobotFactoryApp.name_var dlg)) ""
  then name
  else Str.strip (RobotFactoryApp.name_var dlg).

(** [w'] is [w] with heap [h], the printed [lines] appended to standard
    output (and echoed to the log view when the logger's callback [cb] is
    bound), list box [box] and canvas [cv]; nothing else differs. *)
Definition effect (cb : option callback) (w : World) (h : list Obj)
    (lines box : list text) (cv : list Item) (w' : World) : Prop :=
  heap w' = h
  /\ _instance w' = _instance w
  /\ stdout w' = (stdout w ++ lines)%list
  /\ log_text w' = (log_text w ++ echoed cb lines)%list
  /\ robot_listbox w' = box
  /\ canvas w' = cv
  /\ name_entry w' = name_entry w.

(** The line a robot is announced with after [label]. *)
Definition announced (label name : string) (a : gmap string string) : text :=
  log_line (tapp [Lit label] [Lit (name ++ ": "); ReprDict a]).

(** The eye colour variable exists in a dialog opened for a humanoid
    robot. *)
Definition dialog_fits (w : World) (r : loc) (dlg : RobotFactoryApp.EditDialog)
  : Prop :=
  forall name c,
    heap w !! r = Some (ORobot HumanoidRobot name c) ->
    is_Some (RobotFactoryApp.eye_var dlg).

(** The states the running application can be in.  It starts with
    [__init__] in a fresh process; between two actions the user may retype
    the name field; the buttons run the three actions; an open dialog's
    "Apply Changes" runs [apply_changes] on the robot it was opened for, with
    whatever the user entered ([dlg]), the eye colour variable being there
    when that robot is humanoid.  Dialogs are opened for clones only; any
    robot of the collection is allowed here, which covers more runs.  An
    action may return or raise ([res]): Tk reports an exception of a command
    and its main loop goes on, in the state the exception left. *)
Inductive reachable : RobotFactoryApp.t -> World -> Prop :=
| reach_start entry self w :
    RobotFactoryApp.__init__ (RobotFactoryApp.start_world entry)
    = (Returns self, w) ->
    reachable self w
| reach_type self w s :
    reachable self w -> reachable self (with_name_entry s w)
| reach_humanoid self w res self' w' :
    reachable self w ->
    RobotFactoryApp.create_humanoid_robot (self, w) = (res, (self', w')) ->
    reachable self' w'
| reach_heavy self w res self' w' :
    reachable self w ->
    RobotFactoryApp.create_heavy_robot (self, w) = (res, (self', w')) ->
    reachable self' w'
| reach_clone self w res self' w' :
    reachable self w ->
    RobotFactoryApp.clone_robot (self, w) = (res, (self', w')) ->
    reachable self' w'
| reach_apply self w r dlg res w' :
    reachable self w ->
    r ∈ RobotFactoryApp.robots self ->
    dialog_fits w r dlg ->
    RobotFactoryApp.apply_changes self r dlg w = (res, w') ->
    reachable self w'.

(** A robot of one of the two classes, with a name and with the labels of
    its class's catalog still in its attribute map. *)
Definition robot_sound (w : World) (r : loc) : Prop :=
  exists v name c a,
    heap w !! r = Some (ORobot v name c) /\ heap w !! c = Some (ODict a)
    /\ v <> OtherRobot /\ name <> "" /\ baseline v ⊆ a.

(** No two robots of [rs] refer to the same components dict. *)
Definition unshared (w : World) (rs : list loc) : Prop :=
  forall r1 r2 v1 n1 v2 n2 c,
    r1 ∈ rs -> r2 ∈ rs ->
    heap w !! r1 = Some (ORobot v1 n1 c) ->
    heap w !! r2 = Some (ORobot v2 n2 c) ->
    r1 = r2.

(** The canvas is empty while there is no robot, and otherwise holds what
    Tk took of the rendering of the present state of a robot of the
    collection. *)
Definition shows (self : RobotFactoryApp.t) (w : World) : Prop :=
  (RobotFactoryApp.robots self = [] -> canvas w = [])
  /\ (RobotFactoryApp.robots self <> [] ->
      exists r v a name,
        r ∈ RobotFactoryApp.robots self /\ entity_at w r v a name
        /\ canvas w = (Render.paint (Render.render v a name)).2).

Definition Inv (self : RobotFactoryApp.t) (w : World) : Prop :=
  _instance w = Some (RobotFactoryApp.logger self)
  /\ heap w !! RobotFactoryApp.logger self = Some (OLogger (Some update_log))
  /\ log_text w = map newline (stdout w)
  /\ NoDup (RobotFactoryApp.robots self)
  /\ Forall (robot_sound w) (RobotFactoryApp.robots self)
  /\ unshared w (RobotFactoryApp.robots self)
  /\ RobotFactoryApp.last_robot self = last (RobotFactoryApp.robots self)
  /\ robot_listbox w = listing (heap w) (RobotFactoryApp.robots self)
  /\ shows self w.

(** A session for the examples: "Ada" typed in, a humanoid robot created,
    then cloned. *)
Definition created : RobotFactoryApp.t * World :=
  (RobotFactoryApp.create_humanoid_robot (fresh_app, running_world "Ada")).2.

Definition demo : RobotFactoryApp.t * World :=
  (RobotFactoryApp.clone_robot created).2.

(** The attribute keys [draw_robot] reads. *)
Definition styling_keys : list string :=
  ["head_style"; "eye_color"; "torso_style"; "arm_style"; "legs"; "antenna"].

(** The three build steps of a builder, to be run in any order. *)
Inductive BuildStep := StepHead | StepTorso | StepLimbs.

Definition run_step {B} `{RobotBuilder B} (b : B) (s : BuildStep) : M unit :=
  match s with
  | StepHead => build_head b
  | StepTorso => build_torso b
  | StepLimbs => build_limbs b
  end.

Definition step_key (s : BuildStep) : string :=
  match s with
  | StepHead => "head"
  | StepTorso => "torso"
  | StepLimbs => "limbs"
  end.

(** Was the step that writes [key] among [steps]? *)
Definition step_done (steps : list BuildStep) (key : string) : bool :=
  existsb (fun s => String.eqb (step_key s) key) steps.

(** The variables of the dialog [open_edit_dialog] opens for a robot of
    class [v] with attribute map [a] and name [name], before the user
    touches them. *)
Definition dialog_of (v : RobotClass) (a : gmap string string) (name : string)
  : RobotFactoryApp.EditDialog :=
  let humanoid := match v with HumanoidRobot => true | _ => false end in
  RobotFactoryApp.mkEditDialog name
    (dict_get a "antenna" "None")
    (dict_get a "legs" "Standard")
    (dict_get a "head_style" (hd "" (RobotFactoryApp.head_options humanoid)))
    (dict_get a "torso_style" "Standard")
    (dict_get a "arm_style" "Standard")
    (if humanoid then Some (dict_get a "eye_color" "Black") else None).

(** One action of the user on the running application, whether it returns
    or raises. *)
Inductive acts (self : RobotFactoryApp.t) (w : World)
  : RobotFactoryApp.t -> World -> Prop :=
| act_type s : acts self w self (with_name_entry s w)
| act_humanoid res self' w' :
    RobotFactoryApp.create_humanoid_robot (self, w) = (res, (self', w')) ->
    acts self w self' w'
| act_heavy res self' w' :
    RobotFactoryApp.create_heavy_robot (self, w) = (res, (self', w')) ->
    acts self w self' w'
| act_clone res self' w' :
    RobotFactoryApp.clone_robot (self, w) = (res, (self', w')) ->
    acts self w self' w'
| act_apply r dlg res w' :
    r ∈ RobotFactoryApp.robots self ->
    dialog_fits w r dlg ->
    RobotFactoryApp.apply_changes self r dlg w = (res, w') ->
    acts self w self w'.

(** The state after a heavy robot "Atlas" was created in a fresh process. *)
Definition atlas : RobotFactoryApp.t * World :=
  (RobotFactoryApp.create_heavy_robot (fresh_app, running_world "Atlas")).2.

(** The items of a rendering below the name label, and the label's
    colour. *)
Definition render_body (v : RobotClass) (a : gmap string string) : list Item :=
  match v with
  | HumanoidRobot =>
      Render.humanoid_head a ++ Render.humanoid_eyes a
      ++ [Render.humanoid_mouth]
      ++ Render.humanoid_torso a ++ Render.humanoid_arms a
      ++ Render.humanoid_legs a ++ Render.antenna a
  | HeavyRobot =>
      Render.heavy_head a ++ Render.heavy_torso a ++ Render.heavy_arms a
      ++ Render.heavy_legs a ++ Render.antenna a
  | OtherRobot => []
  end.

Definition label_colour (v : RobotClass) : string :=
  match v with
  | HumanoidRobot => "darkblue"
  | _ => "darkred"
  end.

(** ** What Tk takes of a rendering *)

(** Tk takes the item. *)
Definition taken (i : Item) : Prop := tk.refused (options i) = None.

(** The only value the renderer passes on to Tk unseen is the eye colour,
    as fill and outline of both irises of a humanoid robot. *)
Definition eye_color (a : gmap string string) : string :=
  dict_get a "eye_color" "black".

(** Does Tk take the whole rendering of a robot of class [v] with attribute
    map [a]? *)
Definition paintable (v : RobotClass) (a : gmap string string) : bool :=
  match v with
  | HumanoidRobot => tk.accepts (eye_color a)
  | _ => true
  end.

(** How a render call ends, and what it leaves when Tk refuses the eye
    colour: the head and the socket of the left eye. *)
Definition verdict (v : RobotClass) (a : gmap string string) : Result unit :=
  if paintable v a then Returns tt else Raises (TclError (eye_color a)).

Definition drawn (v : RobotClass) (a : gmap string string) (name : string)
  : list Item :=
  if paintable v a then Render.render v a name
  else (Render.humanoid_head a ++ [Render.eye_socket 185])%list.

(** The dialog with the eye colour "Hazel" chosen and nothing else
    touched, for the clone of the session [demo], and the state after its
    "Apply Changes". *)
Definition hazel_dialog : RobotFactoryApp.EditDialog :=
  RobotFactoryApp.mkEditDialog "Ada_clone" "None" "Standard" "Oval" "Standard"
    "Standard" (Some "Hazel").

Definition hazel : RobotFactoryApp.t * World :=
  (demo.1, (RobotFactoryApp.apply_changes demo.1 4%nat hazel_dialog demo.2).2).

(** The values the edit dialog shows for the attributes a robot does not
    have. *)
Definition dialog_defaults (v : RobotClass) : gmap string string :=
  let humanoid := match v with HumanoidRobot => true | _ => false end in
  let shared : gmap string string :=
    <["antenna" := "None"]>
      (<["legs" := "Standard"]>
         (<["head_style" := hd "" (RobotFactoryApp.head_options humanoid)]>
            (<["torso_style" := "Standard"]>
               (<["arm_style" := "Standard"]> ∅)))) in
  if humanoid then <["eye_color" := "Black"]> shared else shared.

(** ** The naming rule in the design's words

    A blank string is a sequence of whitespace characters; trimming removes
    a blank prefix and a blank suffix around a core that neither starts nor
    ends with a whitespace character; a numeral is the decimal notation of
    a number, most significant digit first and without leading zero. *)
Inductive Blank (ws : list string) : string -> Prop :=
| Blank_nil : Blank ws ""
| Blank_cons c s : c ∈ ws -> Blank ws s -> Blank ws (c ++ s).

Definition space_first (core : string) : Prop :=
  exists c t, c ∈ Str.whitespace /\ core = c ++ t.

Definition space_last (core : string) : Prop :=
  exists c t, c ∈ Str.whitespace /\ core = t ++ c.

Definition digit (d : nat) : ascii := ascii_of_nat (48 + d).

Inductive Numeral : nat -> string -> Prop :=
| Numeral_digit d : (d < 10)%nat -> Numeral d (String (digit d) "")
| Numeral_more n d s :
    (0 < n)%nat -> (d < 10)%nat -> Numeral n s ->
    Numeral (10 * n + d) (s ++ String (digit d) "").

(** UTF-8: the bytes 128 to 191 continue a character and never start one;
    a whitespace character is a starting byte followed by such bytes. *)
Definition continuation (b : ascii) : bool :=
  let n := nat_of_ascii b in ((128 <=? n) && (n <=? 191))%nat.

Definition well_encoded (c : string) : bool :=
  match c with
  | String b rest =>
      negb (continuation b) && forallb continuation (list_ascii_of_string rest)
  | EmptyString => false
  end.

(** No string of [ws] is a proper prefix of another. *)
Definition prefix_free (ws : list string) : bool :=
  forallb (fun c =>
    forallb (fun c' =>
      match Str.drop_prefix c c' with
      | Some d => String.eqb d ""
      | None => true
      end) ws) ws.

(** * Proofs *)

(** ** Running computations step by step *)

Lemma bind_run {S A B} (m : ST S A) (k : A -> ST S B) s a s' :
  m s = (Returns a, s') -> bind m k s = k a s'.
Proof. intros H. unfold bind. now rewrite H. Qed.

Lemma bind_raise {S A B} (m : ST S A) (k : A -> ST S B) s e s' :
  m s = (Raises e, s') -> bind m k s = (Raises e, s').
Proof. intros H. unfold bind. now rewrite H. Qed.

Lemma bind_assoc {S A B C} (m : ST S A) (f : A -> ST S B) (k : B -> ST S C) s :
  bind (bind m f) k s = bind m (fun a => bind (f a) k) s.
Proof. unfold bind. destruct (m s) as [[a|e] s']; reflexivity. Qed.

Lemma bind_ret {S A B} (a : A) (k : A -> ST S B) s : bind (ret a) k s = k a s.
Proof. reflexivity. Qed.

Lemma lift_run {A} (m : M A) self w res w' :
  m w = (res, w') -> RobotFactoryApp.lift m (self, w) = (res, (self, w')).
Proof. intros H. unfold RobotFactoryApp.lift. cbn [fst snd]. now rewrite H. Qed.

Lemma deref_run w l o : heap w !! l = Some o -> deref l w = (Returns o, w).
Proof. intros H. unfold deref. now rewrite H. Qed.

Lemma components_of_run w r v n c d :
  heap w !! r = Some (ORobot v n c) -> heap w !! c = Some (ODict d) ->
  components_of r w = (Returns d, w).
Proof.
  intros Hr Hc. unfold components_of.
  rewrite (bind_run _ _ _ _ _ (deref_run _ _ _ Hr)).
  now rewrite (bind_run _ _ _ _ _ (deref_run _ _ _ Hc)).
Qed.

Lemma components_get_run w r v n c d key dflt :
  heap w !! r = Some (ORobot v n c) -> heap w !! c = Some (ODict d) ->
  components_get r key dflt w = (Returns (dict_get d key dflt), w).
Proof.
  intros Hr Hc. unfold components_get.
  now rewrite (bind_run _ _ _ _ _ (components_of_run _ _ _ _ _ _ Hr Hc)).
Qed.

Lemma name_of_run w r v n c :
  heap w !! r = Some (ORobot v n c) -> name_of r w = (Returns n, w).
Proof.
  intros Hr. unfold name_of.
  now rewrite (bind_run _ _ _ _ _ (deref_run _ _ _ Hr)).
Qed.

Lemma create_run sh xy opts cv w :
  tk.refused opts = None ->
  RobotFactoryApp.create sh xy opts (with_canvas cv w)
  = (Returns tt, with_canvas (cv ++ [mkItem sh xy opts]) w).
Proof. intros H. unfold RobotFactoryApp.create. now rewrite H. Qed.

Lemma create_refused sh xy opts color w :
  tk.refused opts = Some color ->
  RobotFactoryApp.create sh xy opts w = (Raises (TclError color), w).
Proof. intros H. unfold RobotFactoryApp.create. now rewrite H. Qed.

(** ** What Tk takes of a rendering *)

Lemma paint_taken items :
  Forall taken items -> Render.paint items = (Returns tt, items).
Proof.
  induction 1 as [|i items Hi _ IH]; [reflexivity|].
  cbn [Render.paint]. unfold taken in Hi. by rewrite Hi, IH.
Qed.

Lemma paint_app_taken pre items :
  Forall taken pre ->
  Render.paint (pre ++ items)
  = ((Render.paint items).1, (pre ++ (Render.paint items).2)%list).
Proof.
  induction 1 as [|i pre Hi _ IH].
  - cbn [app]. by destruct (Render.paint items).
  - cbn [Render.paint app]. unfold taken in Hi. by rewrite Hi, IH.
Qed.

Lemma paint_refused i items color :
  tk.refused (options i) = Some color ->
  Render.paint (i :: items) = (Raises (TclError color), []).
Proof. intros H. cbn [Render.paint]. by rewrite H. Qed.

Lemma iris_refusal x colour :
  tk.refused (options (Render.iris x colour))
  = if tk.accepts colour then None else Some colour.
Proof.
  cbn [Render.iris options fill outline tk.refused].
  cbn [String.eqb Ascii.eqb Bool.eqb orb andb].
  by destruct (tk.accepts colour).
Qed.

Ltac literal_taken := vm_compute; reflexivity.

Ltac all_taken :=
  repeat (apply List.Forall_cons; [literal_taken|]); apply List.Forall_nil.

Lemma humanoid_head_taken a : Forall taken (Render.humanoid_head a).
Proof. unfold Render.humanoid_head. destruct (String.eqb _ _); all_taken. Qed.

Lemma humanoid_torso_taken a : Forall taken (Render.humanoid_torso a).
Proof. unfold Render.humanoid_torso. destruct (String.eqb _ _); all_taken. Qed.

Lemma humanoid_arms_taken a : Forall taken (Render.humanoid_arms a).
Proof. unfold Render.humanoid_arms. destruct (String.eqb _ _); all_taken. Qed.

Lemma humanoid_legs_taken a : Forall taken (Render.humanoid_legs a).
Proof. unfold Render.humanoid_legs. destruct (String.eqb _ _); all_taken. Qed.

Lemma antenna_taken a : Forall taken (Render.antenna a).
Proof. unfold Render.antenna. destruct (negb _); all_taken. Qed.

Lemma heavy_head_taken a : Forall taken (Render.heavy_head a).
Proof.
  unfold Render.heavy_head. apply Forall_app. split.
  - destruct (String.eqb _ _); all_taken.
  - all_taken.
Qed.

Lemma heavy_torso_taken a : Forall taken (Render.heavy_torso a).
Proof. unfold Render.heavy_torso. destruct (String.eqb _ _); all_taken. Qed.

Lemma heavy_arms_taken a : Forall taken (Render.heavy_arms a).
Proof.
  unfold Render.heavy_arms. apply Forall_app. split; [all_taken|].
  destruct (String.eqb _ _); all_taken.
Qed.

Lemma heavy_legs_taken a : Forall taken (Render.heavy_legs a).
Proof. unfold Render.heavy_legs. destruct (String.eqb _ _); all_taken. Qed.

Lemma name_label_taken name colour :
  tk.accepts colour = true -> taken (Render.name_label name colour).
Proof.
  intros H. unfold taken.
  cbn [Render.name_label options text_ font fill tk.refused].
  cbn [String.eqb Ascii.eqb Bool.eqb orb andb]. by rewrite H.
Qed.

Lemma render_taken v a name :
  paintable v a = true -> Forall taken (Render.render v a name).
Proof.
  intros Hp. destruct v; cbn [Render.render].
  - apply Forall_app; split; [apply humanoid_head_taken|].
    apply Forall_app; split; [|apply Forall_app; split;
      [|apply Forall_app; split; [apply humanoid_torso_taken|];
        apply Forall_app; split; [apply humanoid_arms_taken|];
        apply Forall_app; split; [apply humanoid_legs_taken|];
        apply Forall_app; split; [apply antenna_taken|]]].
    + unfold Render.humanoid_eyes. cbn [paintable] in Hp.
      change (dict_get a "eye_color" "black") with (eye_color a).
      apply List.Forall_cons; [literal_taken|].
      apply List.Forall_cons; [unfold taken; by rewrite iris_refusal, Hp|].
      apply List.Forall_cons; [literal_taken|].
      apply List.Forall_cons; [unfold taken; by rewrite iris_refusal, Hp|].
      apply List.Forall_nil.
    + all_taken.
    + apply List.Forall_cons; [|apply List.Forall_nil].
      by apply name_label_taken.
  - apply Forall_app; split; [apply heavy_head_taken|].
    apply Forall_app; split; [apply heavy_torso_taken|].
    apply Forall_app; split; [apply heavy_arms_taken|].
    apply Forall_app; split; [apply heavy_legs_taken|].
    apply Forall_app; split; [apply antenna_taken|].
    apply List.Forall_cons; [|apply List.Forall_nil].
    by apply name_label_taken.
  - all_taken.
Qed.

(** The whole rendering is drawn, or nothing after the left eye's socket. *)
Lemma paint_render v a name :
  Render.paint (Render.render v a name) = (verdict v a, drawn v a name).
Proof.
  unfold verdict, drawn. destruct (paintable v a) eqn:Hp.
  - by apply paint_taken, render_taken.
  - destruct v; try discriminate Hp. cbn [paintable] in Hp.
    cbn [Render.render]. rewrite paint_app_taken by apply humanoid_head_taken.
    unfold Render.humanoid_eyes. cbn [app].
    change (dict_get a "eye_color" "black") with (eye_color a).
    cbn [Render.paint].
    replace (tk.refused (options (Render.eye_socket 185))) with (@None string)
      by (symmetry; literal_taken).
    rewrite iris_refusal, Hp. reflexivity.
Qed.

(** Canvas calls leave the heap alone, so a fact about the heap holds in
    every intermediate world of a render call. *)
Ltac heap_fact := eassumption.

Ltac draw_step :=
  lazymatch goal with
  | |- bind (RobotFactoryApp.create _ _ [fill (dict_get _ _ _); outline _]) _ _
       = _ =>
      first [ erewrite bind_run by (apply create_run; eassumption)
            | erewrite bind_raise by (apply create_refused; eassumption) ]
  | |- bind (RobotFactoryApp.create _ _ _) _ _ = _ =>
      erewrite bind_run by (apply create_run; literal_taken)
  | |- bind (components_get _ _ _) _ _ = _ =>
      erewrite bind_run by (eapply components_get_run; heap_fact)
  | |- bind (name_of _) _ _ = _ =>
      erewrite bind_run by (eapply name_of_run; heap_fact)
  | |- bind (deref _) _ _ = _ =>
      erewrite bind_run by (eapply deref_run; heap_fact)
  | |- bind (if ?b then _ else _) _ _ = _ =>
      let E := fresh "E" in destruct b eqn:E
  | |- bind (ret _) _ _ = _ => rewrite bind_ret
  | |- bind (bind _ _) _ _ = _ => rewrite bind_assoc
  end.

(** The renderer against the region pipeline: the call clears the canvas,
    reads the robot and hands the items of [Render.render] to Tk one by one,
    as [Render.paint] does. *)
Lemma draw_robot_paint self w r v a name :
  entity_at w r v a name ->
  RobotFactoryApp.draw_robot self r w
  = (verdict v a, with_canvas (drawn v a name) w).
Proof.
  intros (c & Hr & Hc). unfold RobotFactoryApp.draw_robot.
  unfold RobotFactoryApp.canvas_delete_all, RobotFactoryApp.create_rectangle,
    RobotFactoryApp.create_oval, RobotFactoryApp.create_arc,
    RobotFactoryApp.create_line, RobotFactoryApp.create_text.
  rewrite (bind_run _ _ _ tt (with_canvas [] w)) by reflexivity.
  erewrite bind_run by (eapply deref_run; heap_fact).
  unfold verdict, drawn, eye_color.
  unfold Render.render, Render.humanoid_head, Render.humanoid_eyes,
    Render.humanoid_torso, Render.humanoid_arms, Render.humanoid_legs,
    Render.antenna, Render.heavy_head, Render.heavy_torso, Render.heavy_arms,
    Render.heavy_legs, Render.lowered.
  change (range 160 240 20) with [160; 180; 200; 220].
  destruct v; cbn [isinstance for_ paintable]; unfold eye_color.
  - pose proof (iris_refusal 188 (dict_get a "eye_color" "black")) as Hiris.
    cbn [Render.iris options] in Hiris.
    destruct (tk.accepts (dict_get a "eye_color" "black")).
    + repeat draw_step;
        (rewrite create_run by (cbn [tk.refused text_ font fill];
                                 cbn [String.eqb Ascii.eqb Bool.eqb orb andb];
                                 literal_taken));
        reflexivity.
    + repeat draw_step; reflexivity.
  - repeat draw_step;
      (rewrite create_run by (cbn [tk.refused text_ font fill];
                               cbn [String.eqb Ascii.eqb Bool.eqb orb andb];
                               literal_taken));
      reflexivity.
  - apply create_run. reflexivity.
Qed.

Lemma drawing_paint self w r v a name :
  entity_at w r v a name ->
  drawing self r w = Render.paint (Render.render v a name).
Proof.
  intros H. unfold drawing. rewrite (draw_robot_paint self w r v a name H).
  by rewrite paint_render.
Qed.

(** When Tk takes the eye colour the call returns and leaves exactly
    [Render.render]. *)
Lemma draw_robot_render self w r v a name :
  entity_at w r v a name ->
  paintable v a = true ->
  RobotFactoryApp.draw_robot self r w
  = (Returns tt, with_canvas (Render.render v a name) w).
Proof.
  intros H Hp. rewrite (draw_robot_paint self w r v a name H).
  unfold verdict, drawn. by rewrite Hp.
Qed.

(** ** The logger *)

Lemma log_run w l cb message :
  heap w !! l = Some (OLogger cb) ->
  SingletonLogger.log l message w = (Returns tt, logged cb message w).
Proof.
  intros Hl. unfold SingletonLogger.log.
  rewrite (bind_run _ _ _ _ _ (deref_run _ _ _ Hl)).
  destruct cb as [[]|]; reflexivity.
Qed.

Lemma new_run_bound w l cb :
  _instance w = Some l -> SingletonLogger.__new__ cb w = (Returns l, w).
Proof. intros H. unfold SingletonLogger.__new__, bind, get_world. now rewrite H. Qed.

Lemma new_run_first w cb :
  _instance w = None ->
  SingletonLogger.__new__ cb w
  = (Returns (length (heap w)),
          with_instance (Some (length (heap w)))
            (with_heap (heap w ++ [OLogger cb]) w)).
Proof. intros H. unfold SingletonLogger.__new__, bind, get_world. now rewrite H. Qed.

Lemma shared_log_run w l cb message :
  _instance w = Some l -> heap w !! l = Some (OLogger cb) ->
  SingletonLogger.shared_log message w = (Returns tt, logged cb [Lit message] w).
Proof.
  intros Hi Hl. unfold SingletonLogger.shared_log.
  rewrite (bind_run _ _ _ _ _ (new_run_bound _ _ _ Hi)).
  now apply log_run.
Qed.

(** ** Heap shapes met during construction and cloning *)

Lemma lookup_snoc2_old (h : list Obj) (x y : Obj) (l : loc) (o : Obj) :
  h !! l = Some o -> ((h ++ [x]) ++ [y])%list !! l = Some o.
Proof.
  intros H. rewrite lookup_app_l.
  - rewrite lookup_app_l; [done|]. by eapply lookup_lt_Some.
  - rewrite length_app. apply lookup_lt_Some in H. simpl. lia.
Qed.

Lemma lookup_snoc2_fst (h : list Obj) (x y : Obj) :
  ((h ++ [x]) ++ [y])%list !! length h = Some x.
Proof.
  rewrite lookup_app_l.
  - by rewrite list_lookup_middle.
  - rewrite length_app. simpl. lia.
Qed.

Lemma lookup_snoc2_snd (h : list Obj) (x y : Obj) :
  ((h ++ [x]) ++ [y])%list !! S (length h) = Some y.
Proof.
  rewrite list_lookup_middle; [done|]. rewrite length_app. simpl. lia.
Qed.

Lemma insert_snoc2_fst (h : list Obj) (x x' y : Obj) :
  <[length h := x']> ((h ++ [x]) ++ [y])%list = ((h ++ [x']) ++ [y])%list.
Proof.
  rewrite insert_app_l.
  - f_equal. rewrite insert_app_r_alt by lia.
    by replace (length h - length h)%nat with 0%nat by lia.
  - rewrite length_app. simpl. lia.
Qed.

Lemma insert_snoc2_snd (h : list Obj) (x y y' : Obj) :
  <[S (length h) := y']> ((h ++ [x]) ++ [y])%list = ((h ++ [x]) ++ [y'])%list.
Proof.
  rewrite insert_app_r_alt by (rewrite length_app; simpl; lia).
  rewrite length_app. simpl.
  by replace (S (length h) - (length h + 1))%nat with 0%nat by lia.
Qed.

(** ** Construction: builder, director, factory *)

Lemma alloc_run o w :
  alloc o w = (Returns (length (heap w)), with_heap (heap w ++ [o]) w).
Proof. reflexivity. Qed.

Lemma store_run w l o o' :
  heap w !! l = Some o ->
  store l o' w = (Returns tt, with_heap (<[l:=o']> (heap w)) w).
Proof. intros H. unfold store. now rewrite H. Qed.

Lemma components_set_run w r v n c d key value :
  heap w !! r = Some (ORobot v n c) -> heap w !! c = Some (ODict d) ->
  components_set r key value w
  = (Returns tt, with_heap (<[c := ODict (<[key:=value]> d)]> (heap w)) w).
Proof.
  intros Hr Hc. unfold components_set.
  rewrite (bind_run _ _ _ _ _ (deref_run _ _ _ Hr)).
  rewrite (bind_run _ _ _ _ _ (deref_run _ _ _ Hc)).
  now apply (store_run _ _ (ODict d)).
Qed.

Ltac world_simpl :=
  cbn [heap _instance stdout log_text robot_listbox canvas name_entry
       with_heap with_stdout with_log_text with_instance
       with_robot_listbox with_canvas logged].

Ltac proj_simpl :=
  cbn [HumanoidRobotBuilder.robot HumanoidRobotBuilder.part_factory
       HeavyRobotBuilder.robot HeavyRobotBuilder.part_factory
       RobotDirector.builder].

(** One step of a construction run in a world whose heap ends with the
    dict and the robot under construction. *)
Ltac build_step Hi Hl :=
  lazymatch goal with
  | |- bind (bind _ _) _ _ = _ => rewrite bind_assoc
  | |- bind (ret _) _ _ = _ => rewrite bind_ret
  | |- bind (alloc _) _ _ = _ =>
      rewrite (bind_run _ _ _ _ _ (alloc_run _ _)); world_simpl;
      rewrite ?length_app; cbn [length]; rewrite ?Nat.add_1_r; proj_simpl
  | |- bind (SingletonLogger.shared_log _) _ _ = _ =>
      erewrite bind_run
        by (eapply shared_log_run;
            [exact Hi
            | first [exact Hl | apply lookup_snoc2_old; exact Hl]]);
      world_simpl; proj_simpl
  | |- bind (components_set _ _ _) _ _ = _ =>
      erewrite bind_run
        by (eapply components_set_run;
            [apply lookup_snoc2_snd | apply lookup_snoc2_fst]);
      world_simpl; rewrite insert_snoc2_fst
  end.

Lemma humanoid_build_run name w l cb :
  _instance w = Some l -> heap w !! l = Some (OLogger cb) ->
  exists w',
    (builder <- HumanoidRobotBuilder.__init__ name ;;
     director <- RobotDirector.__init__ builder ;;
     RobotDirector.construct_robot director) w
    = (Returns (S (length (heap w))), w')
    /\ heap w'
       = ((heap w
           ++ [ODict (<["limbs":="Agile Limbs"]>
                        (<["torso":="Sleek Body"]>
                           (<["head":="Smart Face"]> ∅)))])
          ++ [ORobot HumanoidRobot name (length (heap w))])%list
    /\ _instance w' = Some l
    /\ canvas w' = canvas w
    /\ robot_listbox w' = robot_listbox w
    /\ name_entry w' = name_entry w.
Proof.
  intros Hi Hl. eexists.
  unfold HumanoidRobotBuilder.__init__, RobotDirector.__init__,
    RobotDirector.construct_robot, Robot.__init__.
  cbn [build_head build_torso build_limbs get_robot
       HumanoidRobotBuilder.builder HumanoidRobotBuilder.robot
       HumanoidRobotBuilder.part_factory RobotDirector.builder
       create_head create_torso create_limbs HumanoidPartFactory_parts].
  split.
  - repeat build_step Hi Hl. reflexivity.
  - world_simpl. repeat split; try reflexivity; exact Hi.
Qed.

Lemma heavy_build_run name w l cb :
  _instance w = Some l -> heap w !! l = Some (OLogger cb) ->
  exists w',
    (builder <- HeavyRobotBuilder.__init__ name ;;
     director <- RobotDirector.__init__ builder ;;
     RobotDirector.construct_robot director) w
    = (Returns (S (length (heap w))), w')
    /\ heap w'
       = ((heap w
           ++ [ODict (<["limbs":="Robust Limbs"]>
                        (<["torso":="Reinforced Frame"]>
                           (<["head":="Armored Head"]> ∅)))])
          ++ [ORobot HeavyRobot name (length (heap w))])%list
    /\ _instance w' = Some l
    /\ canvas w' = canvas w
    /\ robot_listbox w' = robot_listbox w
    /\ name_entry w' = name_entry w.
Proof.
  intros Hi Hl. eexists.
  unfold HeavyRobotBuilder.__init__, RobotDirector.__init__,
    RobotDirector.construct_robot, Robot.__init__.
  cbn [build_head build_torso build_limbs get_robot
       HeavyRobotBuilder.builder HeavyRobotBuilder.robot
       HeavyRobotBuilder.part_factory RobotDirector.builder
       create_head create_torso create_limbs HeavyPartFactory_parts].
  split.
  - repeat build_step Hi Hl. reflexivity.
  - world_simpl. repeat split; try reflexivity; exact Hi.
Qed.

(** From the heap a build leaves to the facts its callers use. *)
Lemma constructed_intro v a name w w' l cb :
  heap w !! l = Some (OLogger cb) ->
  heap w' = ((heap w ++ [ODict a]) ++ [ORobot v name (length (heap w))])%list ->
  _instance w' = Some l ->
  canvas w' = canvas w -> robot_listbox w' = robot_listbox w ->
  name_entry w' = name_entry w ->
  constructed v a name w (S (length (heap w))) w'.
Proof.
  intros Hl Hh Hi Hc Hb He. unfold constructed, entity_at, logger_wf.
  rewrite Hi, Hh. repeat split; try assumption.
  - exists (length (heap w)). split.
    + apply lookup_snoc2_snd.
    + apply lookup_snoc2_fst.
  - apply lookup_ge_None. lia.
  - intros l' o Ho. by apply lookup_snoc2_old.
  - exists cb. by apply lookup_snoc2_old.
Qed.

(** A world in which the shared logger has written one more line keeps the
    heap, the canvas and the widgets other than the log view. *)
Lemma constructed_after v a name w0 w r w' :
  heap w0 = heap w \/ (exists o, heap w = (heap w0 ++ [o])%list) ->
  canvas w = canvas w0 -> robot_listbox w = robot_listbox w0 ->
  name_entry w = name_entry w0 ->
  constructed v a name w r w' -> constructed v a name w0 r w'.
Proof.
  intros Hh Hc Hb He (Hent & Hnew & Hold & Hwf & Hc' & Hb' & He').
  unfold constructed. repeat split; try congruence; try assumption.
  - destruct Hh as [Hh | [o Hh]]; [congruence|].
    rewrite Hh in Hnew. apply lookup_ge_None in Hnew. apply lookup_ge_None.
    rewrite length_app in Hnew. lia.
  - intros l o Ho. apply Hold.
    destruct Hh as [Hh | [o' Hh]]; [congruence|].
    rewrite Hh. rewrite lookup_app_l; [done|]. by eapply lookup_lt_Some.
Qed.

Lemma create_humanoid_run name w :
  logger_wf w ->
  exists r w',
    create_robot mkHumanoidRobotFactory name w = (Returns r, w')
    /\ constructed HumanoidRobot (catalog mkHumanoidPartFactory) name w r w'.
Proof.
  intros Hwf. unfold logger_wf in Hwf.
  cbn [create_robot HumanoidRobotFactory_create].
  destruct (_instance w) as [l|] eqn:Hi.
  - destruct Hwf as [cb Hl].
    rewrite (bind_run _ _ _ _ _ (shared_log_run _ _ _ _ Hi Hl)).
    set (w2 := logged _ _ _).
    destruct (humanoid_build_run name w2 l cb Hi Hl)
      as (w' & Hrun & Hh & Hi' & Hc & Hb & He).
    eexists _, w'. split; [exact Hrun|].
    eapply (constructed_after _ _ _ w w2); [by left | done | done | done |].
    exact (constructed_intro _ _ _ _ _ _ _ Hl Hh Hi' Hc Hb He).
  - unfold SingletonLogger.shared_log. rewrite bind_assoc.
    rewrite (bind_run _ _ _ _ _ (new_run_first _ _ Hi)).
    set (w1 := with_instance _ _).
    assert (Hi1 : _instance w1 = Some (length (heap w))) by reflexivity.
    assert (Hl1 : heap w1 !! length (heap w) = Some (OLogger None))
      by (apply list_lookup_middle; reflexivity).
    rewrite (bind_run _ _ _ _ _ (log_run _ _ _ _ Hl1)).
    set (w2 := logged _ _ _).
    destruct (humanoid_build_run name w2 _ None Hi1 Hl1)
      as (w' & Hrun & Hh & Hi' & Hc & Hb & He).
    eexists _, w'. split; [exact Hrun|].
    eapply (constructed_after _ _ _ w w2);
      [right; by eexists | done | done | done |].
    exact (constructed_intro _ _ _ _ _ _ _ Hl1 Hh Hi' Hc Hb He).
Qed.

Lemma create_heavy_run name w :
  logger_wf w ->
  exists r w',
    create_robot mkHeavyRobotFactory name w = (Returns r, w')
    /\ constructed HeavyRobot (catalog mkHeavyPartFactory) name w r w'.
Proof.
  intros Hwf. unfold logger_wf in Hwf.
  cbn [create_robot HeavyRobotFactory_create].
  destruct (_instance w) as [l|] eqn:Hi.
  - destruct Hwf as [cb Hl].
    rewrite (bind_run _ _ _ _ _ (shared_log_run _ _ _ _ Hi Hl)).
    set (w2 := logged _ _ _).
    destruct (heavy_build_run name w2 l cb Hi Hl)
      as (w' & Hrun & Hh & Hi' & Hc & Hb & He).
    eexists _, w'. split; [exact Hrun|].
    eapply (constructed_after _ _ _ w w2); [by left | done | done | done |].
    exact (constructed_intro _ _ _ _ _ _ _ Hl Hh Hi' Hc Hb He).
  - unfold SingletonLogger.shared_log. rewrite bind_assoc.
    rewrite (bind_run _ _ _ _ _ (new_run_first _ _ Hi)).
    set (w1 := with_instance _ _).
    assert (Hi1 : _instance w1 = Some (length (heap w))) by reflexivity.
    assert (Hl1 : heap w1 !! length (heap w) = Some (OLogger None))
      by (apply list_lookup_middle; reflexivity).
    rewrite (bind_run _ _ _ _ _ (log_run _ _ _ _ Hl1)).
    set (w2 := logged _ _ _).
    destruct (heavy_build_run name w2 _ None Hi1 Hl1)
      as (w' & Hrun & Hh & Hi' & Hc & Hb & He).
    eexists _, w'. split; [exact Hrun|].
    eapply (constructed_after _ _ _ w w2);
      [right; by eexists | done | done | done |].
    exact (constructed_intro _ _ _ _ _ _ _ Hl1 Hh Hi' Hc Hb He).
Qed.

(** ** Application actions *)

Lemma set_self_run {B} f (k : unit -> RobotFactoryApp.App B) self w :
  bind (RobotFactoryApp.set_self f) k (self, w) = k tt (f self, w).
Proof. reflexivity. Qed.

Lemma get_self_run {B} (k : RobotFactoryApp.t -> RobotFactoryApp.App B) self w :
  bind RobotFactoryApp.get_self k (self, w) = k self (self, w).
Proof. reflexivity. Qed.

Lemma lift_bind_run {A B} (m : M A) (k : A -> RobotFactoryApp.App B)
    self w a w' :
  m w = (Returns a, w') ->
  bind (RobotFactoryApp.lift m) k (self, w) = k a (self, w').
Proof. intros H. by rewrite (bind_run _ _ _ _ _ (lift_run m self w _ _ H)). Qed.

Lemma entity_at_mono w w' r v a name :
  (forall l o, heap w !! l = Some o -> heap w' !! l = Some o) ->
  entity_at w r v a name -> entity_at w' r v a name.
Proof. intros Hold (c & Hr & Hc). exists c. split; by apply Hold. Qed.

Lemma robot_ok_mono w w' r :
  (forall l o, heap w !! l = Some o -> heap w' !! l = Some o) ->
  robot_ok w r -> robot_ok w' r.
Proof.
  intros Hold (v & a & name & H). exists v, a, name.
  by eapply entity_at_mono.
Qed.

Lemma str_run w r v a name :
  entity_at w r v a name ->
  Robot.__str__ r w = (Returns [Lit (name ++ ": "); ReprDict a], w).
Proof.
  intros (c & Hr & Hc). unfold Robot.__str__.
  rewrite (bind_run _ _ _ _ _ (name_of_run _ _ _ _ _ Hr)).
  by rewrite (bind_run _ _ _ _ _ (components_of_run _ _ _ _ _ _ Hr Hc)).
Qed.

Lemma fill_listbox_run w rs :
  Forall (robot_ok w) rs ->
  forall acc, exists lines,
    for_ rs (fun robot =>
      line <- Robot.__str__ robot ;;
      modify (fun w => with_robot_listbox (robot_listbox w ++ [line]) w))
      (with_robot_listbox acc w)
    = (Returns tt, with_robot_listbox lines w).
Proof.
  induction 1 as [|r rs (v & a & name & Hr) _ IH]; intros acc.
  - by exists acc.
  - cbn [for_]. rewrite bind_assoc.
    assert (Hr' : entity_at (with_robot_listbox acc w) r v a name) by exact Hr.
    rewrite (bind_run _ _ _ _ _ (str_run _ _ _ _ _ Hr')).
    unfold bind at 1, modify at 1. cbn [robot_listbox with_robot_listbox].
    apply (IH (acc ++ [[Lit (name ++ ": "); ReprDict a]])%list).
Qed.

Lemma update_robot_list_run self w :
  Forall (robot_ok w) (RobotFactoryApp.robots self) ->
  exists lines,
    RobotFactoryApp.update_robot_list self w
    = (Returns tt, with_robot_listbox lines w).
Proof.
  intros H. unfold RobotFactoryApp.update_robot_list.
  unfold bind at 1, modify at 1.
  apply (fill_listbox_run w _ H []).
Qed.

Lemma open_edit_dialog_run self w r v a name :
  entity_at w r v a name ->
  exists dlg, RobotFactoryApp.open_edit_dialog self r w = (Returns dlg, w).
Proof.
  intros (c & Hr & Hc). unfold RobotFactoryApp.open_edit_dialog.
  rewrite (bind_run _ _ _ _ _ (deref_run _ _ _ Hr)).
  rewrite (bind_run _ _ _ _ _ (name_of_run _ _ _ _ _ Hr)).
  do 5 (erewrite bind_run by (eapply components_get_run; eassumption)).
  destruct (isinstance _ _).
  - erewrite bind_run by (eapply components_get_run; eassumption).
    by eexists.
  - by eexists.
Qed.

(** A render call followed by statements that leave the world alone. *)
Lemma draw_then {A} self r v a name (rest : M A) w x :
  entity_at w r v a name ->
  (forall w1, heap w1 = heap w -> rest w1 = (Returns x, w1)) ->
  exists res,
    (RobotFactoryApp.draw_robot self r ;; rest) w
    = (res, with_canvas (drawn v a name) w)
    /\ (res = Returns x /\ paintable v a = true
        \/ res = Raises (TclError (eye_color a)) /\ paintable v a = false).
Proof.
  intros Hent Hrest. unfold bind.
  rewrite (draw_robot_paint self w r v a name Hent). unfold verdict.
  destruct (paintable v a); cbv beta iota.
  - rewrite (Hrest (with_canvas (drawn v a name) w) eq_refl).
    eexists. split; [reflexivity|]. by left.
  - eexists. split; [reflexivity|]. by right.
Qed.

(** What both create actions do once the name is chosen and the robot is
    built: log it, refresh the list and draw it. *)
Lemma created_robot_shown self v a name w0 r w1 label :
  app_wf self w0 ->
  constructed v a name w0 r w1 ->
  exists w',
    (line <- Robot.__str__ r ;;
     SingletonLogger.log (RobotFactoryApp.logger (recorded r self))
       (tapp [Lit label] line) ;;
     RobotFactoryApp.update_robot_list (recorded r self) ;;
     RobotFactoryApp.draw_robot (recorded r self) r) w1 = (verdict v a, w')
    /\ heap w' = heap w1
    /\ canvas w' = drawn v a name
    /\ name_entry w' = name_entry w0
    /\ app_wf (recorded r self) w'.
Proof.
  intros (_ & [cb Hlog] & Hrs & _) (Hent & Hnew & Hold & Hwf & _ & _ & He).
  set (self' := recorded r self).
  rewrite (bind_run _ _ _ _ _ (str_run _ _ _ _ _ Hent)).
  assert (Hlog1 : heap w1 !! RobotFactoryApp.logger self' = Some (OLogger cb))
    by (apply Hold; exact Hlog).
  rewrite (bind_run _ _ _ _ _ (log_run _ _ _ _ Hlog1)).
  set (w2 := logged _ _ _).
  assert (Hok : Forall (robot_ok w2) (RobotFactoryApp.robots self')).
  { cbn. apply Forall_app. split.
    - eapply Forall_impl; [exact Hrs|]. intros x Hx.
      eapply (robot_ok_mono w0 w2); [exact Hold | exact Hx].
    - constructor; [|constructor]. by exists v, a, name. }
  destruct (update_robot_list_run self' w2 Hok) as [lines Hlist].
  rewrite (bind_run _ _ _ _ _ Hlist).
  set (w3 := with_robot_listbox _ _).
  assert (Hent3 : entity_at w3 r v a name) by exact Hent.
  rewrite (draw_robot_paint self' _ _ _ _ _ Hent3).
  eexists. split; [reflexivity|].
  repeat split; try reflexivity; try exact He.
  - exact Hwf.
  - by exists cb.
  - exact Hok.
  - intros r' [= <-]. by exists v, a, name.
Qed.

Lemma or_chosen (s dflt : string) :
  RobotFactoryApp.or_ s dflt = if String.eqb s "" then dflt else s.
Proof. by destruct s. Qed.

Lemma catalog_paintable {F} `{RobotPartFactory F} (f : F) v :
  paintable v (catalog f) = true.
Proof.
  destruct v; [|done..]. cbn [paintable]. unfold eye_color, dict_get, catalog.
  rewrite !lookup_insert_ne, lookup_empty by done. reflexivity.
Qed.

Lemma create_humanoid_robot_run self w :
  app_wf self w ->
  exists r w',
    RobotFactoryApp.create_humanoid_robot (self, w)
    = (Returns tt, (recorded r self, w'))
    /\ entity_at w' r HumanoidRobot (catalog mkHumanoidPartFactory)
         (chosen_name "Humanoid" self w)
    /\ heap w !! r = None
    /\ (forall l o, heap w !! l = Some o -> heap w' !! l = Some o)
    /\ canvas w'
       = Render.render HumanoidRobot (catalog mkHumanoidPartFactory)
           (chosen_name "Humanoid" self w)
    /\ app_wf (recorded r self) w'.
Proof.
  intros Happ. unfold RobotFactoryApp.create_humanoid_robot.
  rewrite get_self_run.
  destruct (create_humanoid_run (chosen_name "Humanoid" self w) w (proj1 Happ))
    as (r & w1 & Hrun & Hcons).
  erewrite lift_bind_run; cycle 1.
  { unfold bind at 1, get_world at 1. cbv zeta. rewrite or_chosen.
    exact Hrun. }
  rewrite !set_self_run, get_self_run.
  destruct (created_robot_shown self _ _ _ w r w1 "Created humanoid robot: "
              Happ Hcons) as (w' & Hrest & Hh & Hcv & _ & Hwf').
  unfold verdict, drawn in Hrest, Hcv.
  rewrite catalog_paintable in Hrest, Hcv.
  exists r, w'. split; [exact (lift_run _ _ _ _ _ Hrest)|].
  destruct Hcons as (Hent & Hnew & Hold & _).
  split; [|split; [exact Hnew|split; [|split; [exact Hcv|exact Hwf']]]].
  - eapply (entity_at_mono w1 w'); [|exact Hent]. intros l o. by rewrite Hh.
  - intros l o Ho. rewrite Hh. by apply Hold.
Qed.

Lemma create_heavy_robot_run self w :
  app_wf self w ->
  exists r w',
    RobotFactoryApp.create_heavy_robot (self, w)
    = (Returns tt, (recorded r self, w'))
    /\ entity_at w' r HeavyRobot (catalog mkHeavyPartFactory)
         (chosen_name "Heavy" self w)
    /\ heap w !! r = None
    /\ (forall l o, heap w !! l = Some o -> heap w' !! l = Some o)
    /\ canvas w'
       = Render.render HeavyRobot (catalog mkHeavyPartFactory)
           (chosen_name "Heavy" self w)
    /\ app_wf (recorded r self) w'.
Proof.
  intros Happ. unfold RobotFactoryApp.create_heavy_robot.
  rewrite get_self_run.
  destruct (create_heavy_run (chosen_name "Heavy" self w) w (proj1 Happ))
    as (r & w1 & Hrun & Hcons).
  erewrite lift_bind_run; cycle 1.
  { unfold bind at 1, get_world at 1. cbv zeta. rewrite or_chosen.
    exact Hrun. }
  rewrite !set_self_run, get_self_run.
  destruct (created_robot_shown self _ _ _ w r w1 "Created heavy robot: "
              Happ Hcons) as (w' & Hrest & Hh & Hcv & _ & Hwf').
  unfold verdict, drawn in Hrest, Hcv.
  rewrite catalog_paintable in Hrest, Hcv.
  exists r, w'. split; [exact (lift_run _ _ _ _ _ Hrest)|].
  destruct Hcons as (Hent & Hnew & Hold & _).
  split; [|split; [exact Hnew|split; [|split; [exact Hcv|exact Hwf']]]].
  - eapply (entity_at_mono w1 w'); [|exact Hent]. intros l o. by rewrite Hh.
  - intros l o Ho. rewrite Hh. by apply Hold.
Qed.

Lemma set_name_run w r v n c value :
  heap w !! r = Some (ORobot v n c) ->
  set_name r value w
  = (Returns tt, with_heap (<[r := ORobot v value c]> (heap w)) w).
Proof.
  intros Hr. unfold set_name.
  rewrite (bind_run _ _ _ _ _ (deref_run _ _ _ Hr)).
  now apply (store_run _ _ (ORobot v n c)).
Qed.

(** The copy and its new name, the first statements of the clone action. *)
Lemma clone_rename_run w last v a name c :
  heap w !! last = Some (ORobot v name c) ->
  heap w !! c = Some (ODict a) ->
  (new_robot <- Robot.clone last ;;
   name <- name_of new_robot ;;
   set_name new_robot (name ++ "_clone") ;;
   ret new_robot) w
  = (Returns (S (length (heap w))),
     with_heap ((heap w ++ [ODict a])
                ++ [ORobot v (name ++ "_clone") (length (heap w))])%list w).
Proof.
  intros Hr Hc.
  unfold Robot.clone. rewrite !bind_assoc.
  rewrite (bind_run _ _ _ _ _ (deref_run _ _ _ Hr)). cbn beta iota.
  rewrite !bind_assoc.
  rewrite (bind_run _ _ _ _ _ (deref_run _ _ _ Hc)). cbn beta iota.
  rewrite !bind_assoc.
  rewrite (bind_run _ _ _ _ _ (alloc_run _ _)). world_simpl.
  rewrite (bind_run _ _ _ _ _ (alloc_run _ _)). world_simpl.
  rewrite length_app. cbn [length]. rewrite Nat.add_1_r.
  set (e2 := S (length (heap w))).
  set (w1 := with_heap _ _).
  assert (He1 : heap w1 !! e2 = Some (ORobot v name (length (heap w))))
    by apply lookup_snoc2_snd.
  rewrite (bind_run _ _ _ _ _ (name_of_run _ _ _ _ _ He1)).
  rewrite (bind_run _ _ _ _ _ (set_name_run _ _ _ _ _ _ He1)).
  unfold ret. f_equal. subst w1 e2. world_simpl.
  unfold with_heap. cbn [heap _instance stdout log_text robot_listbox canvas
                          name_entry].
  f_equal. apply insert_snoc2_snd.
Qed.

Lemma clone_robot_run self w last v a name c :
  app_wf self w ->
  RobotFactoryApp.last_robot self = Some last ->
  heap w !! last = Some (ORobot v name c) ->
  heap w !! c = Some (ODict a) ->
  exists w',
    RobotFactoryApp.clone_robot (self, w)
    = (verdict v a, (recorded (S (length (heap w))) self, w'))
    /\ heap w'
       = ((heap w ++ [ODict a])
          ++ [ORobot v (name ++ "_clone") (length (heap w))])%list
    /\ canvas w' = drawn v a (name ++ "_clone")
    /\ app_wf (recorded (S (length (heap w))) self) w'.
Proof.
  intros (Hwf & [cb Hlog] & Hrs & _) Hlast Hr Hc.
  unfold RobotFactoryApp.clone_robot. rewrite get_self_run, Hlast.
  rewrite (lift_bind_run _ _ _ _ _ _ (clone_rename_run w last v a name c Hr Hc)).
  rewrite !set_self_run, get_self_run.
  set (e2 := S (length (heap w))).
  set (w2 := with_heap _ _).
  change (RobotFactoryApp.with_last_robot _ _) with (recorded e2 self).
  assert (Hh2 : heap w2
                = ((heap w ++ [ODict a])
                   ++ [ORobot v (name ++ "_clone") (length (heap w))])%list)
    by reflexivity.
  assert (Hold : forall l o, heap w !! l = Some o -> heap w2 !! l = Some o).
  { intros l o Ho. rewrite Hh2. by apply lookup_snoc2_old. }
  assert (Hent : entity_at w2 e2 v a (name ++ "_clone")).
  { exists (length (heap w)). rewrite Hh2. split.
    - apply lookup_snoc2_snd.
    - apply lookup_snoc2_fst. }
  assert (Hlog2 : heap w2 !! RobotFactoryApp.logger self = Some (OLogger cb))
    by (by apply Hold).
  set (w3 := logged cb (tapp [Lit "Cloned robot: "]
                          [Lit ((name ++ "_clone") ++ ": "); ReprDict a]) w2).
  assert (Hok : Forall (robot_ok w3) (RobotFactoryApp.robots (recorded e2 self))).
  { cbn. apply Forall_app. split.
    - eapply Forall_impl; [exact Hrs|]. intros x Hx.
      eapply (robot_ok_mono w w3); [exact Hold | exact Hx].
    - constructor; [|constructor]. by exists v, a, (name ++ "_clone"). }
  destruct (update_robot_list_run (recorded e2 self) w3 Hok) as [lines Hlist].
  set (w4 := with_robot_listbox lines w3) in Hlist.
  assert (Hent4 : entity_at w4 e2 v a (name ++ "_clone")) by exact Hent.
  destruct (draw_then (recorded e2 self) e2 v a (name ++ "_clone")
              (RobotFactoryApp.open_edit_dialog (recorded e2 self) e2 ;; ret tt)
              w4 tt Hent4) as (res & Hdraw & Hres).
  { intros w1 Hw1.
    assert (Hent1 : entity_at w1 e2 v a (name ++ "_clone")).
    { destruct Hent4 as (c' & H1 & H2). exists c'. by rewrite Hw1. }
    destruct (open_edit_dialog_run (recorded e2 self) w1 e2 _ _ _ Hent1)
      as [dlg Hdlg].
    by rewrite (bind_run _ _ _ _ _ Hdlg). }
  assert (Hres' : res = verdict v a).
  { unfold verdict. by destruct Hres as [[-> ->]|[-> ->]]. }
  subst res.
  exists (with_canvas (drawn v a (name ++ "_clone")) w4). split.
  - apply lift_run.
    rewrite (bind_run _ _ _ _ _ (str_run _ _ _ _ _ Hent)).
    erewrite bind_run by (apply log_run; exact Hlog2).
    fold w3. erewrite bind_run by exact Hlist. exact Hdraw.
  - split; [exact Hh2|]. split; [reflexivity|].
    split; [|split; [|split]].
    + unfold logger_wf in *.
      change (_instance (with_canvas (drawn v a (name ++ "_clone")) w4))
        with (_instance w).
      destruct (_instance w) as [l|]; [|done].
      destruct Hwf as [cb' Hl]. exists cb'. by apply Hold.
    + by exists cb.
    + exact Hok.
    + intros r' [= <-]. by exists v, a, (name ++ "_clone").
Qed.

(** ** Trimming and numbering *)

Lemma str_app_cons a (s t : string) : String a s ++ t = String a (s ++ t).
Proof. reflexivity. Qed.

Lemma str_app_nil_r (s : string) : s ++ "" = s.
Proof.
  induction s as [|a s IH]; [reflexivity|]. by rewrite str_app_cons, IH.
Qed.

Lemma str_app_assoc (s t u : string) : (s ++ t) ++ u = s ++ (t ++ u).
Proof.
  induction s as [|a s IH]; [reflexivity|]. by rewrite !str_app_cons, IH.
Qed.

Lemma str_length_app (s t : string) :
  String.length (s ++ t) = (String.length s + String.length t)%nat.
Proof.
  induction s as [|a s IH]; [reflexivity|].
  rewrite str_app_cons. cbn [String.length]. by rewrite IH.
Qed.

Lemma of_list_app (l1 l2 : list ascii) :
  string_of_list_ascii (l1 ++ l2)%list
  = string_of_list_ascii l1 ++ string_of_list_ascii l2.
Proof. induction l1 as [|a l1 IH]; [reflexivity|]. cbn. by rewrite IH. Qed.

Lemma to_list_app (s t : string) :
  list_ascii_of_string (s ++ t)
  = (list_ascii_of_string s ++ list_ascii_of_string t)%list.
Proof.
  induction s as [|a s IH]; [reflexivity|].
  rewrite str_app_cons. cbn [list_ascii_of_string app]. by rewrite IH.
Qed.

Lemma rev_string_app (s t : string) :
  Str.rev_string (s ++ t) = Str.rev_string t ++ Str.rev_string s.
Proof.
  unfold Str.rev_string. by rewrite to_list_app, rev_app_distr, of_list_app.
Qed.

Lemma rev_string_involutive (s : string) :
  Str.rev_string (Str.rev_string s) = s.
Proof.
  unfold Str.rev_string.
  by rewrite list_ascii_of_string_of_list_ascii, rev_involutive,
    string_of_list_ascii_of_string.
Qed.

Lemma rev_string_length (s : string) :
  String.length (Str.rev_string s) = String.length s.
Proof.
  induction s as [|a s IH]; [reflexivity|].
  change (String a s) with (String a "" ++ s).
  rewrite rev_string_app, !str_length_app, IH. cbn. lia.
Qed.

Lemma drop_prefix_app (p t : string) : Str.drop_prefix p (p ++ t) = Some t.
Proof.
  induction p as [|a p IH]; [reflexivity|].
  rewrite str_app_cons. cbn [Str.drop_prefix]. by rewrite Ascii.eqb_refl.
Qed.

Lemma drop_prefix_Some (p s t : string) :
  Str.drop_prefix p s = Some t -> s = p ++ t.
Proof.
  revert s. induction p as [|a p IH]; intros s; cbn [Str.drop_prefix].
  - by intros [= ->].
  - destruct s as [|b s]; [discriminate|].
    destruct (Ascii.eqb a b) eqn:E; [|discriminate].
    apply Ascii.eqb_eq in E as ->. intros H.
    by rewrite (IH s H), str_app_cons.
Qed.

Lemma drop_space_Some ws (s t : string) :
  Str.drop_space ws s = Some t -> exists c, c ∈ ws /\ s = c ++ t.
Proof.
  induction ws as [|p ws IH]; cbn; [discriminate|].
  destruct (Str.drop_prefix p s) as [s'|] eqn:E.
  - intros [= ->]. exists p. split; [left|]. by apply drop_prefix_Some.
  - intros H. destruct (IH H) as (c & Hc & ->). exists c. split; [by right|done].
Qed.

Lemma drop_space_None ws (s : string) :
  (forall c t, c ∈ ws -> s <> c ++ t) -> Str.drop_space ws s = None.
Proof.
  intros H. destruct (Str.drop_space ws s) as [t|] eqn:E; [|done].
  destruct (drop_space_Some ws s t E) as (c & Hc & ->). by destruct (H c t Hc).
Qed.

(** Two ways to split one string: one first part extends the other. *)
Lemma app_eq_comparable (c t c' t' : string) :
  c ++ t = c' ++ t' -> (exists d, c' = c ++ d) \/ (exists d, c = c' ++ d).
Proof.
  revert c'. induction c as [|a c IH]; intros c' H.
  - left. by exists c'.
  - destruct c' as [|a' c']; [right; by eexists|].
    rewrite !str_app_cons in H. injection H as -> H.
    destruct (IH c' H) as [[d ->]|[d ->]].
    + left. by exists d.
    + right. by exists d.
Qed.

Lemma drop_space_elem ws (c s : string) :
  c ∈ ws -> exists t, Str.drop_space ws (c ++ s) = Some t.
Proof.
  induction ws as [|p ws IH]; intros Hc; [by apply elem_of_nil in Hc|].
  cbn. destruct (Str.drop_prefix p (c ++ s)) as [t|] eqn:E; [by exists t|].
  apply elem_of_cons in Hc as [->|Hc]; [|by apply IH].
  by rewrite drop_prefix_app in E.
Qed.

Section Stripping.

Variable ws : list string.
Hypothesis ws_free : prefix_free ws = true.
Hypothesis ws_nonempty : forall c, c ∈ ws -> c <> "".

(** A stripping loop with fuel, as [lstrip_fuel] and [rstrip_fuel] are. *)
Variable f : nat -> string -> string.
Hypothesis f_0 : forall s, f 0 s = s.
Hypothesis f_S :
  forall n s, f (S n) s = match Str.drop_space ws s with
                          | Some s' => f n s'
                          | None => s
                          end.

Lemma ws_same_prefix (c c' t t' : string) :
  c ∈ ws -> c' ∈ ws -> c ++ t = c' ++ t' -> c = c'.
Proof.
  intros Hc Hc' H. unfold prefix_free in ws_free.
  rewrite forallb_forall in ws_free.
  assert (Hfree : forall x y d, x ∈ ws -> y ∈ ws -> y = x ++ d -> d = "").
  { intros x y d Hx Hy ->.
    pose proof (ws_free x (proj1 (list_elem_of_In _ _) Hx)) as Hrow.
    rewrite forallb_forall in Hrow.
    pose proof (Hrow _ (proj1 (list_elem_of_In _ _) Hy)) as Hcell.
    rewrite drop_prefix_app in Hcell. by apply String.eqb_eq in Hcell. }
  destruct (app_eq_comparable c t c' t' H) as [[d Hd]|[d Hd]].
  - rewrite (Hfree c c' d Hc Hc' Hd), str_app_nil_r in Hd. done.
  - rewrite (Hfree c' c d Hc' Hc Hd), str_app_nil_r in Hd. done.
Qed.

Lemma drop_space_app (c s : string) :
  c ∈ ws -> Str.drop_space ws (c ++ s) = Some s.
Proof.
  intros Hc. destruct (drop_space_elem ws c s Hc) as [t E].
  destruct (drop_space_Some _ _ _ E) as (c' & Hc' & H).
  pose proof (ws_same_prefix c c' s t Hc Hc' H) as <-.
  apply (inj (String.append c)) in H as <-. exact E.
Qed.

(** The loop removes a blank prefix in front of a core that does not start
    with a whitespace character, given fuel for it. *)
Lemma strip_prefix (pre core : string) :
  Blank ws pre ->
  (forall c t, c ∈ ws -> core <> c ++ t) ->
  forall n, (String.length pre <= n)%nat -> f n (pre ++ core) = core.
Proof.
  intros Hpre Hcore. induction Hpre as [|c s Hc _ IH]; intros n Hn.
  - change ("" ++ core) with core. destruct n as [|n]; [apply f_0|].
    rewrite f_S. by rewrite (drop_space_None ws core Hcore).
  - rewrite str_length_app in Hn.
    assert (String.length c <> 0%nat).
    { pose proof (ws_nonempty c Hc). by destruct c. }
    destruct n as [|n]; [lia|].
    rewrite f_S, str_app_assoc, drop_space_app by done.
    apply IH. lia.
Qed.

End Stripping.

Lemma Blank_app ws (s t : string) : Blank ws s -> Blank ws t -> Blank ws (s ++ t).
Proof.
  induction 1 as [|c s Hc _ IH]; intros Ht; [done|].
  rewrite str_app_assoc. constructor; auto.
Qed.

Lemma Blank_rev ws (s : string) :
  Blank ws s -> Blank (map Str.rev_string ws) (Str.rev_string s).
Proof.
  induction 1 as [|c s Hc _ IH]; [constructor|].
  rewrite rev_string_app. apply Blank_app; [exact IH|].
  rewrite <- (str_app_nil_r (Str.rev_string c)).
  constructor; [|constructor]. by apply list_elem_of_fmap_2.
Qed.

Lemma lstrip_fuel_S n s :
  Str.lstrip_fuel (S n) s = match Str.drop_space Str.whitespace s with
                            | Some s' => Str.lstrip_fuel n s'
                            | None => s
                            end.
Proof. reflexivity. Qed.

Lemma rstrip_fuel_S n s :
  Str.rstrip_fuel (S n) s
  = match Str.drop_space (map Str.rev_string Str.whitespace) s with
    | Some s' => Str.rstrip_fuel n s'
    | None => s
    end.
Proof. reflexivity. Qed.

Lemma whitespace_free : prefix_free Str.whitespace = true.
Proof. vm_compute. reflexivity. Qed.

Lemma whitespace_rev_free :
  prefix_free (map Str.rev_string Str.whitespace) = true.
Proof. vm_compute. reflexivity. Qed.

Lemma all_elem_of (P : string -> bool) (ws : list string) c :
  forallb P ws = true -> c ∈ ws -> P c = true.
Proof.
  intros H Hc. rewrite forallb_forall in H. apply H. by apply list_elem_of_In.
Qed.

Lemma whitespace_nonempty c : c ∈ Str.whitespace -> c <> "".
Proof.
  intros Hc.
  assert (Hall : forallb (fun c => negb (String.eqb c "")) Str.whitespace = true)
    by (vm_compute; reflexivity).
  pose proof (all_elem_of _ _ c Hall Hc) as H.
  cbn beta in H. intros ->. discriminate H.
Qed.

Lemma whitespace_rev_nonempty c :
  c ∈ map Str.rev_string Str.whitespace -> c <> "".
Proof.
  intros Hc.
  assert (Hall : forallb (fun c => negb (String.eqb c ""))
                   (map Str.rev_string Str.whitespace) = true)
    by (vm_compute; reflexivity).
  pose proof (all_elem_of _ _ c Hall Hc) as H.
  cbn beta in H. intros ->. discriminate H.
Qed.

Lemma whitespace_encoded c : c ∈ Str.whitespace -> well_encoded c = true.
Proof. apply all_elem_of. vm_compute. reflexivity. Qed.

Lemma Blank_inv ws (s : string) :
  Blank ws s -> s = "" \/ exists c t, c ∈ ws /\ s = c ++ t.
Proof. destruct 1 as [|c t Hc _]; [by left|right; by exists c, t]. Qed.

(** A core that does not start with a whitespace character does not start
    with one when blanks follow it either: no whitespace character begins
    inside the core and ends in the blanks. *)
Lemma core_then_blank (core post : string) :
  core <> "" ->
  ~ space_first core ->
  Blank Str.whitespace post ->
  forall c t, c ∈ Str.whitespace -> core ++ post <> c ++ t.
Proof.
  intros Hne Hcore Hpost c t Hc H.
  destruct (app_eq_comparable _ _ _ _ H) as [[d Hd]|[d Hd]].
  - (* the character starts with the whole core *)
    subst c. rewrite str_app_assoc in H.
    apply (inj (String.append core)) in H.
    destruct d as [|b1 d].
    { apply Hcore. exists core, "". split; [by rewrite str_app_nil_r in Hc|].
      by rewrite str_app_nil_r. }
    destruct core as [|b0 core]; [done|].
    pose proof (whitespace_encoded _ Hc) as Henc. cbn in Henc.
    apply andb_true_iff in Henc as [_ Henc].
    rewrite to_list_app, forallb_app in Henc.
    apply andb_true_iff in Henc as [_ Henc]. cbn in Henc.
    apply andb_true_iff in Henc as [Hb1 _].
    destruct (Blank_inv _ _ Hpost) as [->|(c' & t' & Hc' & ->)];
      [discriminate H|].
    pose proof (whitespace_encoded _ Hc') as Henc'.
    destruct c' as [|b' c']; [discriminate Henc'|].
    cbn in Henc'. apply andb_true_iff in Henc' as [Hb' _].
    cbn in H. injection H as -> _. by rewrite Hb1 in Hb'.
  - apply Hcore. by exists c, d.
Qed.

(** C8, the trimming half: what [strip] returns for an entry with blanks
    around a core. *)
Lemma strip_trimmed (pre core post : string) :
  Blank Str.whitespace pre ->
  Blank Str.whitespace post ->
  ~ space_first core ->
  ~ space_last core ->
  Str.strip (pre ++ core ++ post) = core.
Proof.
  intros Hpre Hpost Hfirst Hlast. unfold Str.strip.
  destruct (decide (core = "")) as [->|Hne].
  - change ("" ++ post) with post. unfold Str.lstrip.
    rewrite <- (str_app_nil_r (pre ++ post)) at 2.
    rewrite (strip_prefix Str.whitespace whitespace_free whitespace_nonempty
               Str.lstrip_fuel (fun _ => eq_refl) lstrip_fuel_S
               (pre ++ post) "").
    + reflexivity.
    + by apply Blank_app.
    + intros c t Hc H. destruct c; [by apply (whitespace_nonempty "")|done].
    + lia.
  - assert (Hl : Str.lstrip (pre ++ core ++ post) = core ++ post).
    { unfold Str.lstrip.
      apply (strip_prefix Str.whitespace whitespace_free whitespace_nonempty
               Str.lstrip_fuel (fun _ => eq_refl) lstrip_fuel_S);
        [done| |rewrite str_length_app; lia].
      by apply core_then_blank. }
    rewrite Hl. unfold Str.rstrip. rewrite rev_string_app.
    rewrite (strip_prefix (map Str.rev_string Str.whitespace)
               whitespace_rev_free whitespace_rev_nonempty
               Str.rstrip_fuel (fun _ => eq_refl) rstrip_fuel_S).
    + apply rev_string_involutive.
    + by apply Blank_rev.
    + intros c t Hc H. apply list_elem_of_fmap in Hc as (c0 & -> & Hc0).
      apply Hlast. exists c0, (Str.rev_string t). split; [done|].
      rewrite <- (rev_string_involutive core), H, rev_string_app.
      by rewrite rev_string_involutive.
    + rewrite rev_string_length, str_length_app. lia.
Qed.

Lemma pretty_N_go_app (x : N) (s : string) :
  pretty_N_go x s = pretty_N_go x "" ++ s.
Proof.
  revert s. induction (N.lt_wf_0 x) as [x _ IH]; intros s.
  destruct (decide (x = 0%N)) as [->|Hx]; [by rewrite !pretty_N_go_0|].
  rewrite (pretty_N_go_step x s), (pretty_N_go_step x "") by lia.
  rewrite (IH (x `div` 10)%N) by (apply N.div_lt; lia).
  rewrite (IH (x `div` 10)%N ltac:(apply N.div_lt; lia) (String _ "")).
  by rewrite str_app_assoc.
Qed.

Lemma pretty_N_char_digit (d : nat) :
  (d < 10)%nat -> pretty_N_char (N.of_nat d) = digit d.
Proof.
  intros H. do 10 (destruct d as [|d]; [reflexivity|]). lia.
Qed.

(** C8, the numbering half: [str(n)] is the numeral of [n]. *)
Lemma of_nat_numeral (n : nat) : Numeral n (Str.of_nat n).
Proof.
  induction (lt_wf n) as [n _ IH].
  unfold Str.of_nat, pretty, pretty_nat, pretty, pretty_N.
  destruct (decide (n < 10)%nat) as [Hlt|Hge].
  - case_decide as H0.
    + replace n with 0%nat by lia. apply (Numeral_digit 0). lia.
    + rewrite pretty_N_go_step by lia.
      replace (N.of_nat n `div` 10)%N with 0%N
        by (symmetry; apply N.div_small; lia).
      rewrite pretty_N_go_0.
      replace (N.of_nat n `mod` 10)%N with (N.of_nat n)
        by (symmetry; apply N.mod_small; lia).
      rewrite pretty_N_char_digit by done. by apply Numeral_digit.
  - case_decide as H0; [lia|].
    rewrite pretty_N_go_step by lia. rewrite pretty_N_go_app.
    assert (Hq : (N.of_nat n `div` 10)%N = N.of_nat (n / 10))
      by (by rewrite Nat2N.inj_div).
    assert (Hr : (N.of_nat n `mod` 10)%N = N.of_nat (n mod 10))
      by (by rewrite Nat2N.inj_mod).
    rewrite Hq, Hr.
    assert (Hd : (n mod 10 < 10)%nat) by (apply Nat.mod_upper_bound; lia).
    rewrite pretty_N_char_digit by done.
    assert (Hpos : (0 < n / 10)%nat) by (apply Nat.div_str_pos; lia).
    pose proof (IH (n / 10)%nat ltac:(apply Nat.div_lt; lia)) as Hn.
    unfold Str.of_nat, pretty, pretty_nat, pretty, pretty_N in Hn.
    case_decide as H1; [lia|].
    rewrite (Nat.div_mod_eq n 10) at 1.
    apply Numeral_more; [lia|done|exact Hn].
Qed.

Lemma Numeral_small (n : nat) (s : string) :
  (n < 10)%nat -> Numeral n s -> s = String (digit n) "".
Proof.
  intros Hn H. destruct H as [d Hd|m d s Hm Hd _]; [done|lia].
Qed.

(** * Properties stated in the specification *)

(** ** Rendering *)

Lemma rendered_paintable self w r v a name :
  entity_at w r v a name ->
  paintable v a = true ->
  rendered self r w = Some (Render.render v a name).
Proof.
  intros H Hp. unfold rendered.
  by rewrite (draw_robot_render self w r v a name H Hp).
Qed.

(** C1. Rendering is deterministic and reads no hidden state: two robots
    that agree on class, attribute map and name render to the same ordered
    sequence of items and end the same way, whatever else the two worlds and
    the two application objects hold (other heap objects, logs, the previous
    canvas content); and a second call right after the first leaves exactly
    the same world.  The calls return, with the whole rendering, whenever Tk
    takes the eye colour; otherwise both raise the same [TclError] after the
    same items. *)
Theorem draw_robot_deterministic self1 self2 w1 w2 r1 r2 v a name :
  entity_at w1 r1 v a name ->
  entity_at w2 r2 v a name ->
  exists res cv w1',
    RobotFactoryApp.draw_robot self1 r1 w1 = (res, w1')
    /\ canvas w1' = cv
    /\ drawing self2 r2 w2 = (res, cv)
    /\ RobotFactoryApp.draw_robot self1 r1 w1' = (res, w1')
    /\ (paintable v a = true ->
        res = Returns tt /\ rendered self2 r2 w2 = Some cv).
Proof.
  intros H1 H2.
  exists (verdict v a), (drawn v a name), (with_canvas (drawn v a name) w1).
  split; [by apply draw_robot_paint|].
  split; [reflexivity|].
  split; [|split].
  - unfold drawing. by rewrite (draw_robot_paint self2 w2 r2 v a name H2).
  - assert (H1' : entity_at (with_canvas (drawn v a name) w1) r1 v a name)
      by exact H1.
    by rewrite (draw_robot_paint self1 _ r1 v a name H1').
  - intros Hp. unfold verdict, drawn. rewrite Hp. split; [reflexivity|].
    by apply rendered_paintable.
Qed.

Lemma draw_robot_deterministic_witness :
  exists res cv w1',
    RobotFactoryApp.draw_robot fresh_app 1%nat
      (world_of HeavyRobot {["head_style" := "Dome"]} "Atlas")
    = (res, w1')
    /\ canvas w1' = cv
    /\ drawing fresh_app 1%nat
         (world_of HeavyRobot {["head_style" := "Dome"]} "Atlas") = (res, cv)
    /\ RobotFactoryApp.draw_robot fresh_app 1%nat w1' = (res, w1')
    /\ (paintable HeavyRobot {["head_style" := "Dome"]} = true ->
        res = Returns tt
        /\ rendered fresh_app 1%nat
             (world_of HeavyRobot {["head_style" := "Dome"]} "Atlas") = Some cv).
Proof.
  apply (draw_robot_deterministic fresh_app fresh_app
           (world_of HeavyRobot {["head_style" := "Dome"]} "Atlas")
           (world_of HeavyRobot {["head_style" := "Dome"]} "Atlas")
           1%nat 1%nat HeavyRobot {["head_style" := "Dome"]} "Atlas").
  - exists 0%nat. split; reflexivity.
  - exists 0%nat. split; reflexivity.
Defined.

(** C6. An object that is an instance of neither robot class renders to
    exactly one item, a text label at (200, 200), and the call does not
    raise; nothing of the object is read, so this holds for any attribute
    map and name and even for an object that is no robot at all. *)
Theorem draw_robot_unknown self w r o :
  heap w !! r = Some o ->
  isinstance o HumanoidRobot = false ->
  isinstance o HeavyRobot = false ->
  RobotFactoryApp.draw_robot self r w
  = (Returns tt, with_canvas
                [mkItem Text [200; 200]
                   [text_ "Unknown Robot Type"; font "Helvetica" 16 None]] w).
Proof.
  intros Hr Hh Hv. unfold RobotFactoryApp.draw_robot.
  unfold RobotFactoryApp.canvas_delete_all.
  rewrite (bind_run _ _ _ tt (with_canvas [] w)) by reflexivity.
  erewrite bind_run by (eapply deref_run; exact Hr).
  rewrite Hh, Hv. reflexivity.
Qed.

Lemma draw_robot_unknown_witness :
  RobotFactoryApp.draw_robot fresh_app 1%nat
    (world_of OtherRobot {["legs" := "Wide"]} "Rover")
  = (Returns tt, with_canvas
                [mkItem Text [200; 200]
                   [text_ "Unknown Robot Type"; font "Helvetica" 16 None]]
                (world_of OtherRobot {["legs" := "Wide"]} "Rover")).
Proof.
  apply (draw_robot_unknown fresh_app
           (world_of OtherRobot {["legs" := "Wide"]} "Rover") 1%nat
           (ORobot OtherRobot "Rover" 0%nat)); reflexivity.
Defined.




(** *** Unrecognised attribute values *)

Lemma dict_get_other (a : gmap string string) key value k d :
  key <> k -> dict_get (<[key:=value]> a) k d = dict_get (delete key a) k d.
Proof.
  intros Hne. unfold dict_get.
  by rewrite lookup_insert_ne, lookup_delete_ne.
Qed.

Lemma lowered_other (a : gmap string string) key value k d :
  key <> k ->
  Render.lowered (<[key:=value]> a) k d = Render.lowered (delete key a) k d.
Proof. intros Hne. unfold Render.lowered. by rewrite dict_get_other. Qed.

(** A two-way test on attribute [k] cannot tell a value that misses the
    tested word from the absent key, whose default misses it too. *)
Lemma test_fallback (a : gmap string string) key value k d t :
  (key = k ->
   String.eqb (Str.lower value) t = false /\ String.eqb (Str.lower d) t = false) ->
  String.eqb (Render.lowered (<[key:=value]> a) k d) t
  = String.eqb (Render.lowered (delete key a) k d) t.
Proof.
  intros H. destruct (decide (key = k)) as [->|Hne].
  - destruct (H eq_refl) as [Hv Hd]. unfold Render.lowered, dict_get.
    rewrite lookup_insert_eq, lookup_delete_eq. congruence.
  - by rewrite lowered_other.
Qed.

(** What [outside_options] says for the second word of a two-entry list. *)
Lemma outside_second v key value o1 o2 t :
  documented_options v key = [o1; o2] ->
  Str.lower o2 = t ->
  outside_options v key value = true ->
  String.eqb (Str.lower value) t = false.
Proof.
  unfold outside_options. intros -> <-. cbn [map existsb].
  destruct (String.eqb _ (Str.lower o2)); [|done].
  by rewrite orb_true_r.
Qed.

Lemma render_fallback v (a : gmap string string) name key value :
  key <> "antenna" ->
  ~ (v = HumanoidRobot /\ key = "eye_color") ->
  outside_options v key value = true ->
  Render.render v (<[key:=value]> a) name = Render.render v (delete key a) name.
Proof.
  intros Hant Heye Hout. destruct v; [| |reflexivity].
  - assert (Hne : key <> "eye_color") by (intros ->; by apply Heye).
    unfold Render.render, Render.humanoid_head, Render.humanoid_eyes,
      Render.humanoid_torso, Render.humanoid_arms, Render.humanoid_legs,
      Render.antenna.
    rewrite (test_fallback a key value "head_style" "Oval" "square"),
      (test_fallback a key value "torso_style" "Standard" "muscular"),
      (test_fallback a key value "arm_style" "Standard" "hydraulic"),
      (test_fallback a key value "legs" "Standard" "wide"),
      (lowered_other a key value "antenna" "None" Hant),
      (dict_get_other a key value "eye_color" "black" Hne);
      [reflexivity|..];
      intros ->; (split; [|reflexivity]);
      eapply (fun o1 o2 t H1 H2 => outside_second _ _ _ o1 o2 t H1 H2 Hout); reflexivity.
  - unfold Render.render, Render.heavy_head, Render.heavy_torso,
      Render.heavy_arms, Render.heavy_legs, Render.antenna.
    rewrite (test_fallback a key value "head_style" "Rectangle" "dome"),
      (test_fallback a key value "torso_style" "Standard" "armored"),
      (test_fallback a key value "arm_style" "Standard" "robotic"),
      (test_fallback a key value "legs" "Standard" "wide"),
      (lowered_other a key value "antenna" "None" Hant);
      [reflexivity|..];
      intros ->; (split; [|reflexivity]);
      eapply (fun o1 o2 t H1 H2 => outside_second _ _ _ o1 o2 t H1 H2 Hout); reflexivity.
Qed.

(** The two attributes that have no fallback: any antenna value other than
    "none" draws the antenna, and the eye colour is used as it is. *)
Lemma antenna_any_value (a : gmap string string) value :
  String.eqb (Str.lower value) "none" = false ->
  Render.antenna (<["antenna":=value]> a)
  = [mkItem Line [200; 40; 200; 15] [fill "green"; width 2];
     mkItem Oval [195; 10; 205; 20] [fill "green"; outline "black"];
     mkItem Oval [197; 12; 203; 18] [fill "lightgreen"; outline "green"]].
Proof.
  intros H. unfold Render.antenna, Render.lowered, dict_get.
  by rewrite lookup_insert_eq, H.
Qed.

Lemma eye_color_verbatim (a : gmap string string) value :
  Render.humanoid_eyes (<["eye_color":=value]> a)
  = [Render.eye_socket 185; Render.iris 188 value;
     Render.eye_socket 205; Render.iris 208 value].
Proof.
  unfold Render.humanoid_eyes, dict_get. by rewrite lookup_insert_eq.
Qed.

Lemma paintable_fallback v (a : gmap string string) key value :
  ~ (v = HumanoidRobot /\ key = "eye_color") ->
  paintable v (<[key:=value]> a) = paintable v (delete key a).
Proof.
  intros Heye. destruct v; [|reflexivity..]. cbn [paintable]. unfold eye_color.
  rewrite dict_get_other; [reflexivity|]. intros ->. by apply Heye.
Qed.

(** C4, as the code has it. For every class, name and attribute key other
    than "antenna" and, on a humanoid robot, "eye_color": a value that is
    none of the key's documented options (letter case ignored) renders to
    exactly the items rendered with the key absent, and the call ends as the
    call with the key absent ends; the value itself never makes it raise:
    both calls return whenever Tk takes the eye colour the map holds. *)
Theorem default_fallback self1 self2 w1 w2 r1 r2 v a name key value :
  key <> "antenna" ->
  ~ (v = HumanoidRobot /\ key = "eye_color") ->
  outside_options v key value = true ->
  entity_at w1 r1 v (<[key:=value]> a) name ->
  entity_at w2 r2 v (delete key a) name ->
  drawing self1 r1 w1 = drawing self2 r2 w2
  /\ (paintable v (delete key a) = true ->
      exists cv,
        rendered self1 r1 w1 = Some cv /\ rendered self2 r2 w2 = Some cv).
Proof.
  intros Hant Heye Hout H1 H2. split.
  - rewrite (drawing_paint self1 w1 r1 v _ name H1).
    rewrite (drawing_paint self2 w2 r2 v _ name H2).
    by rewrite (render_fallback v a name key value Hant Heye Hout).
  - intros Hp. exists (Render.render v (delete key a) name).
    rewrite (rendered_paintable self2 w2 r2 v _ name H2 Hp).
    rewrite (rendered_paintable self1 w1 r1 v _ name H1)
      by (by rewrite paintable_fallback).
    by rewrite (render_fallback v a name key value Hant Heye Hout).
Qed.

Lemma default_fallback_witness :
  drawing fresh_app 1%nat
    (world_of HumanoidRobot (<["legs":="Tracked"]> {["legs":="Wide"]}) "Ada")
  = drawing fresh_app 1%nat
      (world_of HumanoidRobot (delete "legs" {["legs":="Wide"]}) "Ada")
  /\ (paintable HumanoidRobot (delete "legs" {["legs":="Wide"]}) = true ->
      exists cv,
        rendered fresh_app 1%nat
          (world_of HumanoidRobot (<["legs":="Tracked"]> {["legs":="Wide"]})
             "Ada")
        = Some cv
        /\ rendered fresh_app 1%nat
             (world_of HumanoidRobot (delete "legs" {["legs":="Wide"]}) "Ada")
           = Some cv).
Proof.
  apply (default_fallback fresh_app fresh_app _ _ 1%nat 1%nat HumanoidRobot
           {["legs":="Wide"]} "Ada" "legs" "Tracked").
  - discriminate.
  - intros [_ H]. discriminate H.
  - reflexivity.
  - exists 0%nat. split; reflexivity.
  - exists 0%nat. split; reflexivity.
Defined.

(** C4 as stated fails on "antenna" and on "eye_color": "Huge" is no
    documented antenna option, yet it draws the antenna, three items more
    than with the key absent; "Purple" is no documented eye colour, yet it
    is the fill of both irises where the absent key gives "black". *)
Lemma default_fallback_counterexample :
  outside_options HumanoidRobot "antenna" "Huge" = true
  /\ rendered fresh_app 1%nat
       (world_of HumanoidRobot (<["antenna":="Huge"]> ∅) "Ada")
     <> rendered fresh_app 1%nat
          (world_of HumanoidRobot (delete "antenna" ∅) "Ada")
  /\ outside_options HumanoidRobot "eye_color" "Purple" = true
  /\ rendered fresh_app 1%nat
       (world_of HumanoidRobot (<["eye_color":="Purple"]> ∅) "Ada")
     <> rendered fresh_app 1%nat
          (world_of HumanoidRobot (delete "eye_color" ∅) "Ada").
Proof.
  split; [reflexivity|]. split; [|split; [reflexivity|]].
  - intros H.
    apply (f_equal (fun o => match o with
                             | Some cv => length cv
                             | None => 0%nat
                             end)) in H.
    vm_compute in H. discriminate H.
  - intros H.
    apply (f_equal (fun o => match o with
                             | Some cv => option_map options (cv !! 3%nat)
                             | None => None
                             end)) in H.
    vm_compute in H. discriminate H.
Qed.


(** ** Construction *)

Lemma init_run entry :
  RobotFactoryApp.__init__ (RobotFactoryApp.start_world entry)
  = (Returns fresh_app, running_world entry).
Proof. reflexivity. Qed.

Lemma running_world_wf entry : app_wf fresh_app (running_world entry).
Proof.
  split; [|split; [|split]].
  - by exists (Some update_log).
  - by exists (Some update_log).
  - constructor.
  - intros r H. discriminate H.
Qed.

Lemma catalog_keys {F} `{RobotPartFactory F} (f : F) :
  dom (catalog f) = ({["head"; "torso"; "limbs"]} : gset string).
Proof. unfold catalog. rewrite !dom_insert_L, dom_empty_L. set_solver. Qed.

(** C2. For both variants and every name the factory's create operation,
    which runs the variant's own builder under the one director, returns a
    robot of that variant and name whose attribute map has exactly the keys
    "head", "torso" and "limbs", each bound to a non-empty string. *)
Theorem construction_complete name w :
  logger_wf w ->
  (exists r w' a,
      create_robot mkHumanoidRobotFactory name w = (Returns r, w')
      /\ entity_at w' r HumanoidRobot a name
      /\ dom a = ({["head"; "torso"; "limbs"]} : gset string)
      /\ forall k s, a !! k = Some s -> s <> "")
  /\ (exists r w' a,
         create_robot mkHeavyRobotFactory name w = (Returns r, w')
         /\ entity_at w' r HeavyRobot a name
         /\ dom a = ({["head"; "torso"; "limbs"]} : gset string)
         /\ forall k s, a !! k = Some s -> s <> "").
Proof.
  intros Hwf. split.
  - destruct (create_humanoid_run name w Hwf) as (r & w' & Hrun & Hent & _).
    exists r, w', (catalog mkHumanoidPartFactory).
    split; [exact Hrun|]. split; [exact Hent|]. split; [apply catalog_keys|].
    intros k s. unfold catalog. rewrite !lookup_insert, lookup_empty.
    repeat case_decide; intros [= <-]; discriminate.
  - destruct (create_heavy_run name w Hwf) as (r & w' & Hrun & Hent & _).
    exists r, w', (catalog mkHeavyPartFactory).
    split; [exact Hrun|]. split; [exact Hent|]. split; [apply catalog_keys|].
    intros k s. unfold catalog. rewrite !lookup_insert, lookup_empty.
    repeat case_decide; intros [= <-]; discriminate.
Qed.

Lemma construction_complete_witness :
  (exists r w' a,
      create_robot mkHumanoidRobotFactory "Ada" (running_world "") = (Returns r, w')
      /\ entity_at w' r HumanoidRobot a "Ada"
      /\ dom a = ({["head"; "torso"; "limbs"]} : gset string)
      /\ forall k s, a !! k = Some s -> s <> "")
  /\ (exists r w' a,
         create_robot mkHeavyRobotFactory "Ada" (running_world "") = (Returns r, w')
         /\ entity_at w' r HeavyRobot a "Ada"
         /\ dom a = ({["head"; "torso"; "limbs"]} : gset string)
         /\ forall k s, a !! k = Some s -> s <> "").
Proof.
  apply (construction_complete "Ada" (running_world "")).
  exists (Some update_log). reflexivity.
Defined.

(** C5. The humanoid factory asked for "Ada" returns a humanoid robot named
    "Ada" whose attribute map is head: "Smart Face", torso: "Sleek Body",
    limbs: "Agile Limbs" and nothing else. *)
Theorem create_Ada w :
  logger_wf w ->
  exists r w',
    create_robot mkHumanoidRobotFactory "Ada" w = (Returns r, w')
    /\ entity_at w' r HumanoidRobot
         (<["limbs" := "Agile Limbs"]>
            (<["torso" := "Sleek Body"]> (<["head" := "Smart Face"]> ∅)))
         "Ada".
Proof.
  intros Hwf.
  destruct (create_humanoid_run "Ada" w Hwf) as (r & w' & Hrun & Hent & _).
  by exists r, w'.
Qed.

Lemma create_Ada_witness :
  exists r w',
    create_robot mkHumanoidRobotFactory "Ada" (RobotFactoryApp.start_world "")
    = (Returns r, w')
    /\ entity_at w' r HumanoidRobot
         (<["limbs" := "Agile Limbs"]>
            (<["torso" := "Sleek Body"]> (<["head" := "Smart Face"]> ∅)))
         "Ada".
Proof.
  apply (create_Ada (RobotFactoryApp.start_world "")). exact I.
Defined.

(** C8. Each create action names the new robot after the content of the
    name field with the blanks around it removed or, when nothing else is
    left, "Humanoid-" (or "Heavy-") followed by the decimal numeral of one
    more than the number of robots the collection held before the action;
    the robot is appended to the collection and becomes the last robot.
    Here the field holds [pre ++ core ++ post] with [pre] and [post] blank
    and [core] neither starting nor ending with a whitespace character. *)
Theorem default_name self w pre core post :
  app_wf self w ->
  name_entry w = pre ++ core ++ post ->
  Blank Str.whitespace pre ->
  Blank Str.whitespace post ->
  ~ space_first core ->
  ~ space_last core ->
  (exists r w' c name,
      RobotFactoryApp.create_humanoid_robot (self, w)
      = (Returns tt, (recorded r self, w'))
      /\ heap w' !! r = Some (ORobot HumanoidRobot name c)
      /\ (core <> "" -> name = core)
      /\ (core = "" ->
          exists d,
            Numeral (length (RobotFactoryApp.robots self) + 1) d
            /\ name = "Humanoid-" ++ d))
  /\ (exists r w' c name,
         RobotFactoryApp.create_heavy_robot (self, w)
         = (Returns tt, (recorded r self, w'))
         /\ heap w' !! r = Some (ORobot HeavyRobot name c)
         /\ (core <> "" -> name = core)
         /\ (core = "" ->
             exists d,
               Numeral (length (RobotFactoryApp.robots self) + 1) d
               /\ name = "Heavy-" ++ d)).
Proof.
  intros Hwf Hentry Hpre Hpost Hfirst Hlast.
  pose proof (strip_trimmed pre core post Hpre Hpost Hfirst Hlast) as Hstrip.
  rewrite <- Hentry in Hstrip.
  split.
  - destruct (create_humanoid_robot_run self w Hwf)
      as (r & w' & Hrun & (c & Hr & _) & _).
    exists r, w', c, (chosen_name "Humanoid" self w).
    split; [exact Hrun|]. split; [exact Hr|].
    unfold chosen_name. rewrite Hstrip. split.
    + intros Hne. by apply String.eqb_neq in Hne as ->.
    + intros ->. cbn [String.eqb]. eexists. split; [apply of_nat_numeral|done].
  - destruct (create_heavy_robot_run self w Hwf)
      as (r & w' & Hrun & (c & Hr & _) & _).
    exists r, w', c, (chosen_name "Heavy" self w).
    split; [exact Hrun|]. split; [exact Hr|].
    unfold chosen_name. rewrite Hstrip. split.
    + intros Hne. by apply String.eqb_neq in Hne as ->.
    + intros ->. cbn [String.eqb]. eexists. split; [apply of_nat_numeral|done].
Qed.

Lemma elem_of_whitespace (c : string) :
  existsb (String.eqb c) Str.whitespace = true -> c ∈ Str.whitespace.
Proof.
  intros H. apply existsb_exists in H as (x & Hx & E).
  apply String.eqb_eq in E as ->. by apply list_elem_of_In.
Qed.

Lemma not_space_first (core : string) :
  Str.drop_space Str.whitespace core = None -> ~ space_first core.
Proof.
  intros H (c & t & Hc & ->).
  destruct (drop_space_elem _ c t Hc) as [t' E]. congruence.
Qed.

Lemma not_space_last (core : string) :
  Str.drop_space (map Str.rev_string Str.whitespace) (Str.rev_string core)
  = None ->
  ~ space_last core.
Proof.
  intros H (c & t & Hc & ->). rewrite rev_string_app in H.
  destruct (drop_space_elem (map Str.rev_string Str.whitespace)
              (Str.rev_string c) (Str.rev_string t)) as [t' E];
    [by apply list_elem_of_fmap_2|congruence].
Qed.

Lemma ada_wf entry : app_wf ada_app (with_name_entry entry ada_world).
Proof.
  split; [|split; [|split]].
  - exists (Some update_log). reflexivity.
  - exists (Some update_log). reflexivity.
  - constructor; [|constructor].
    exists HumanoidRobot, (catalog mkHumanoidPartFactory), "Ada", 1%nat.
    split; reflexivity.
  - intros r H. injection H as <-.
    exists HumanoidRobot, (catalog mkHumanoidPartFactory), "Ada", 1%nat.
    split; reflexivity.
Defined.

Ltac blank :=
  repeat first
    [ apply Blank_nil
    | apply (Blank_cons Str.whitespace " ");
      [apply elem_of_whitespace; vm_compute; reflexivity|]
    | apply (Blank_cons Str.whitespace (String "009" ""));
      [apply elem_of_whitespace; vm_compute; reflexivity|] ].

(** With one robot in the collection: a field of blanks gives "Humanoid-2"
    and "Heavy-2"; a field holding "Eve" between blanks gives "Eve". *)
Lemma default_name_witness :
  ((exists r w' c,
       RobotFactoryApp.create_humanoid_robot
         (ada_app, with_name_entry (" " ++ String "009" " ") ada_world)
       = (Returns tt, (recorded r ada_app, w'))
       /\ heap w' !! r = Some (ORobot HumanoidRobot "Humanoid-2" c))
   /\ (exists r w' c,
          RobotFactoryApp.create_heavy_robot
            (ada_app, with_name_entry (" " ++ String "009" " ") ada_world)
          = (Returns tt, (recorded r ada_app, w'))
          /\ heap w' !! r = Some (ORobot HeavyRobot "Heavy-2" c)))
  /\ ((exists r w' c,
          RobotFactoryApp.create_humanoid_robot
            (ada_app, with_name_entry ("  Eve " ++ String "009" "") ada_world)
          = (Returns tt, (recorded r ada_app, w'))
          /\ heap w' !! r = Some (ORobot HumanoidRobot "Eve" c))
      /\ (exists r w' c,
             RobotFactoryApp.create_heavy_robot
               (ada_app, with_name_entry ("  Eve " ++ String "009" "") ada_world)
             = (Returns tt, (recorded r ada_app, w'))
             /\ heap w' !! r = Some (ORobot HeavyRobot "Eve" c))).
Proof.
  split.
  - destruct (default_name ada_app
                (with_name_entry (" " ++ String "009" " ") ada_world)
                (" " ++ String "009" " ") "" "")
      as [(r & w' & c & name & Hrun & Hr & _ & Hnum)
          (r2 & w2 & c2 & name2 & Hrun2 & Hr2 & _ & Hnum2)].
    + apply ada_wf.
    + reflexivity.
    + blank.
    + blank.
    + apply not_space_first. reflexivity.
    + apply not_space_last. reflexivity.
    + destruct (Hnum eq_refl) as (d & Hd & ->).
      destruct (Hnum2 eq_refl) as (d2 & Hd2 & ->).
      apply Numeral_small in Hd as ->; [|cbn; lia].
      apply Numeral_small in Hd2 as ->; [|cbn; lia].
      split; [exists r, w', c|exists r2, w2, c2]; (split; [assumption|]);
        assumption.
  - destruct (default_name ada_app
                (with_name_entry ("  Eve " ++ String "009" "") ada_world)
                "  " "Eve" (" " ++ String "009" ""))
      as [(r & w' & c & name & Hrun & Hr & Hcore & _)
          (r2 & w2 & c2 & name2 & Hrun2 & Hr2 & Hcore2 & _)].
    + apply ada_wf.
    + reflexivity.
    + blank.
    + blank.
    + apply not_space_first. vm_compute. reflexivity.
    + apply not_space_last. vm_compute. reflexivity.
    + rewrite (Hcore ltac:(discriminate)) in Hr.
      rewrite (Hcore2 ltac:(discriminate)) in Hr2.
      split; [exists r, w', c|exists r2, w2, c2]; (split; [assumption|]);
        assumption.
Defined.

(** ** Cloning *)

(** Writing through one robot changes its dict and no other object. *)
Lemma components_set_frame w r v n c a key value :
  heap w !! r = Some (ORobot v n c) -> heap w !! c = Some (ODict a) ->
  exists w',
    components_set r key value w = (Returns tt, w')
    /\ heap w' !! c = Some (ODict (<[key:=value]> a))
    /\ forall l, l <> c -> heap w' !! l = heap w !! l.
Proof.
  intros Hr Hc. eexists. split; [by eapply components_set_run|].
  cbn [heap with_heap]. split.
  - apply list_lookup_insert_eq. by eapply lookup_lt_Some.
  - intros l Hne. by apply list_lookup_insert_ne.
Qed.

Lemma writes_run original clone v1 n1 c1 v2 n2 c2 ops :
  c1 <> c2 ->
  forall w a1 a2,
    heap w !! original = Some (ORobot v1 n1 c1) ->
    heap w !! c1 = Some (ODict a1) ->
    heap w !! clone = Some (ORobot v2 n2 c2) ->
    heap w !! c2 = Some (ODict a2) ->
    exists w',
      for_ ops (write original clone) w = (Returns tt, w')
      /\ heap w' !! original = Some (ORobot v1 n1 c1)
      /\ heap w' !! c1 = Some (ODict (written false ops a1))
      /\ heap w' !! clone = Some (ORobot v2 n2 c2)
      /\ heap w' !! c2 = Some (ODict (written true ops a2)).
Proof.
  intros Hsep. induction ops as [|[[to_clone key] value] ops IH];
    intros w a1 a2 Ho H1 Hc H2.
  - exists w. by repeat split.
  - cbn [for_ written fold_left]. unfold write at 1. cbn [fst snd].
    assert (Hoc1 : original <> c1) by congruence.
    assert (Hoc2 : original <> c2) by congruence.
    assert (Hcc1 : clone <> c1) by congruence.
    assert (Hcc2 : clone <> c2) by congruence.
    destruct to_clone; cbn [Bool.eqb].
    + destruct (components_set_frame w clone v2 n2 c2 a2 key value Hc H2)
        as (w1 & Hrun & Hnew & Hframe).
      rewrite (bind_run _ _ _ _ _ Hrun).
      apply IH; rewrite ?Hframe by done; done.
    + destruct (components_set_frame w original v1 n1 c1 a1 key value Ho H1)
        as (w1 & Hrun & Hnew & Hframe).
      rewrite (bind_run _ _ _ _ _ Hrun).
      apply IH; rewrite ?Hframe by done; done.
Qed.

(** C3. Cloning the last robot yields a new robot of the same class whose
    name is the original's with "_clone" appended and whose attribute map
    is an equal but separate dict. Whatever attribute writes follow, in any
    order and aimed at either robot, each robot ends with its own writes
    applied to the cloned map and none of the other's.  The copy is made and
    recorded before the clone is drawn, so all this holds whether the action
    returns or the drawing raises; it returns whenever Tk takes the eye
    colour. *)
Theorem clone_independent self w last v a name :
  app_wf self w ->
  RobotFactoryApp.last_robot self = Some last ->
  entity_at w last v a name ->
  exists e2 res w',
    RobotFactoryApp.clone_robot (self, w) = (res, (recorded e2 self, w'))
    /\ (paintable v a = true -> res = Returns tt)
    /\ e2 <> last
    /\ entity_at w' last v a name
    /\ entity_at w' e2 v a (name ++ "_clone")
    /\ forall ops, exists w'',
         for_ ops (write last e2) w' = (Returns tt, w'')
         /\ entity_at w'' last v (written false ops a) name
         /\ entity_at w'' e2 v (written true ops a) (name ++ "_clone").
Proof.
  intros Hwf Hlast (c & Hr & Hc).
  destruct (clone_robot_run self w last v a name c Hwf Hlast Hr Hc)
    as (w' & Hrun & Hh & _).
  assert (Hr' : heap w' !! last = Some (ORobot v name c))
    by (rewrite Hh; by apply lookup_snoc2_old).
  assert (Hc' : heap w' !! c = Some (ODict a))
    by (rewrite Hh; by apply lookup_snoc2_old).
  assert (He : heap w' !! S (length (heap w))
               = Some (ORobot v (name ++ "_clone") (length (heap w))))
    by (rewrite Hh; apply lookup_snoc2_snd).
  assert (Hd : heap w' !! length (heap w) = Some (ODict a))
    by (rewrite Hh; apply lookup_snoc2_fst).
  assert (Hlt : (c < length (heap w))%nat) by (by eapply lookup_lt_Some).
  exists (S (length (heap w))), (verdict v a), w'. split; [exact Hrun|].
  split; [intros Hp; unfold verdict; by rewrite Hp|].
  split; [apply lookup_lt_Some in Hr; lia|].
  split; [by exists c|]. split; [by exists (length (heap w))|].
  intros ops.
  destruct (writes_run last (S (length (heap w))) v name c
              v (name ++ "_clone") (length (heap w)) ops
              ltac:(lia) w' a a Hr' Hc' He Hd)
    as (w'' & Hops & H1 & H2 & H3 & H4).
  exists w''. split; [exact Hops|]. split.
  - by exists c.
  - by exists (length (heap w)).
Qed.

Lemma clone_independent_witness :
  exists e2 res w',
    RobotFactoryApp.clone_robot (ada_app, ada_world)
    = (res, (recorded e2 ada_app, w'))
    /\ (paintable HumanoidRobot (catalog mkHumanoidPartFactory) = true ->
        res = Returns tt)
    /\ e2 <> 2%nat
    /\ entity_at w' 2%nat HumanoidRobot (catalog mkHumanoidPartFactory) "Ada"
    /\ entity_at w' e2 HumanoidRobot (catalog mkHumanoidPartFactory) "Ada_clone"
    /\ forall ops, exists w'',
         for_ ops (write 2%nat e2) w' = (Returns tt, w'')
         /\ entity_at w'' 2%nat HumanoidRobot
              (written false ops (catalog mkHumanoidPartFactory)) "Ada"
         /\ entity_at w'' e2 HumanoidRobot
              (written true ops (catalog mkHumanoidPartFactory)) "Ada_clone".
Proof.
  apply (clone_independent ada_app ada_world 2%nat HumanoidRobot
           (catalog mkHumanoidPartFactory) "Ada").
  - apply (ada_wf "").
  - reflexivity.
  - exists 1%nat. split; reflexivity.
Defined.

(** C7. With no last robot, the clone action raises nothing, leaves the
    application object as it was (same collection, still no last robot),
    leaves heap, canvas and list box alone and logs exactly one line, "No
    robot to clone.": one more line on standard output and, when the logger
    has its callback, one more in the log view. *)
Theorem clone_without_source self w cb :
  RobotFactoryApp.last_robot self = None ->
  heap w !! RobotFactoryApp.logger self = Some (OLogger cb) ->
  exists w',
    RobotFactoryApp.clone_robot (self, w) = (Returns tt, (self, w'))
    /\ heap w' = heap w
    /\ canvas w' = canvas w
    /\ robot_listbox w' = robot_listbox w
    /\ stdout w' = (stdout w ++ [[Lit "[LOG]: No robot to clone."]])%list
    /\ log_text w'
       = (log_text w
          ++ match cb with
             | Some _ => [[Lit ("[LOG]: No robot to clone." ++ String "010" "")]]
             | None => []
             end)%list.
Proof.
  intros Hlast Hlog. unfold RobotFactoryApp.clone_robot.
  rewrite get_self_run, Hlast.
  rewrite (lift_run _ _ _ _ _ (log_run _ _ _ _ Hlog)).
  eexists. split; [reflexivity|].
  destruct cb as [[]|]; repeat split; cbn; by rewrite ?app_nil_r.
Qed.

Lemma clone_without_source_witness :
  exists w',
    RobotFactoryApp.clone_robot (fresh_app, running_world "")
    = (Returns tt, (fresh_app, w'))
    /\ heap w' = heap (running_world "")
    /\ canvas w' = canvas (running_world "")
    /\ robot_listbox w' = robot_listbox (running_world "")
    /\ stdout w'
       = (stdout (running_world "") ++ [[Lit "[LOG]: No robot to clone."]])%list
    /\ log_text w'
       = (log_text (running_world "")
          ++ [[Lit ("[LOG]: No robot to clone." ++ String "010" "")]])%list.
Proof.
  apply (clone_without_source fresh_app (running_world "") (Some update_log));
    reflexivity.
Defined.

(** ** The logger is a singleton *)

Lemma new_again l w cbs :
  _instance w = Some l ->
  mapM SingletonLogger.__new__ cbs w = (Returns (replicate (length cbs) l), w).
Proof.
  intros Hi. induction cbs as [|cb cbs IH]; [reflexivity|].
  cbn [mapM length replicate].
  rewrite (bind_run _ _ _ _ _ (new_run_bound _ _ cb Hi)).
  by rewrite (bind_run _ _ _ _ _ IH).
Qed.

(** C9. A process starts without a logger instance. The first constructor
    call allocates the instance, at a location that held nothing, binds the
    callback it is given and records the instance in the class attribute.
    Every later constructor call, whatever its argument, returns that same
    location and changes nothing: the callback stays the one bound first. *)
Theorem singleton_logger w cb0 cbs :
  _instance w = None ->
  (forall entry, _instance (RobotFactoryApp.start_world entry) = None)
  /\ exists l w1,
       SingletonLogger.__new__ cb0 w = (Returns l, w1)
       /\ heap w !! l = None
       /\ heap w1 !! l = Some (OLogger cb0)
       /\ _instance w1 = Some l
       /\ mapM SingletonLogger.__new__ cbs w1 = (Returns (replicate (length cbs) l), w1).
Proof.
  intros Hi. split; [reflexivity|].
  eexists _, _. split; [by apply new_run_first|].
  split; [apply lookup_ge_None; lia|].
  split; [apply list_lookup_middle; reflexivity|].
  split; [reflexivity|].
  by apply new_again.
Qed.

Lemma singleton_logger_witness :
  (forall entry, _instance (RobotFactoryApp.start_world entry) = None)
  /\ exists l w1,
       SingletonLogger.__new__ (Some update_log) (RobotFactoryApp.start_world "")
       = (Returns l, w1)
       /\ heap (RobotFactoryApp.start_world "") !! l = None
       /\ heap w1 !! l = Some (OLogger (Some update_log))
       /\ _instance w1 = Some l
       /\ mapM SingletonLogger.__new__ [None; None; Some update_log] w1
          = (Returns (replicate 3 l), w1).
Proof.
  apply (singleton_logger (RobotFactoryApp.start_world "") (Some update_log)
           [None; None; Some update_log]).
  reflexivity.
Defined.

(** ** Worked examples *)

Example lower_mixed_case : Str.lower "SqUaRe" = "square".
Proof. reflexivity. Qed.

Example strip_both_ends : Str.strip "  R2 D2 " = "R2 D2".
Proof. reflexivity. Qed.

Example strip_blank : Str.strip "   " = "".
Proof. reflexivity. Qed.

Example range_rivets : range 160 240 20 = [160; 180; 200; 220].
Proof. reflexivity. Qed.

(** A humanoid robot without styling attributes: round head, black irises,
    mouth, slim torso, thin arms and legs, no antenna, the name label. *)
Example render_plain_humanoid :
  map (fun i => (shape i, coords i)) (Render.render HumanoidRobot ∅ "Ada")
  = [(Oval, [170; 40; 230; 100]); (Arc, [175; 45; 225; 95]);
     (Oval, [185; 60; 195; 70]); (Oval, [188; 63; 192; 67]);
     (Oval, [205; 60; 215; 70]); (Oval, [208; 63; 212; 67]);
     (Arc, [180; 70; 220; 90]); (Rectangle, [185; 100; 215; 170]);
     (Line, [185; 110; 150; 140]); (Line, [215; 110; 250; 140]);
     (Oval, [145; 135; 155; 145]); (Oval, [245; 135; 255; 145]);
     (Line, [190; 170; 190; 220]); (Line, [210; 170; 210; 220]);
     (Oval, [185; 215; 195; 225]); (Oval, [205; 215; 215; 225]);
     (Text, [200; 20])].
Proof. reflexivity. Qed.

(** The session of the design's second scenario: the original keeps its
    thin legs and has no antenna, the edited clone has block legs and the
    three antenna items. *)
Example session_shows :
  session
  = Some (Render.render HumanoidRobot (catalog mkHumanoidPartFactory) "Ada",
          Render.render HumanoidRobot
            (<["eye_color" := "Black"]>
               (<["arm_style" := "Standard"]>
                  (<["torso_style" := "Standard"]>
                     (<["head_style" := "Oval"]>
                        (<["legs" := "Wide"]>
                           (<["antenna" := "Large"]>
                              (catalog mkHumanoidPartFactory)))))))
            "Ada_clone").
Proof. vm_compute. reflexivity. Qed.

Example session_lengths :
  option_map (fun p => (length p.1, length p.2)) session = Some (17%nat, 20%nat).
Proof. vm_compute. reflexivity. Qed.


(** * Further properties of the code *)

(** ** Complete effect of the construction pipeline *)

Ltac fields_done :=
  world_simpl; rewrite <- ?app_assoc; reflexivity.

Lemma humanoid_build_steady name w l cb :
  _instance w = Some l -> heap w !! l = Some (OLogger cb) ->
  exists w',
    (builder <- HumanoidRobotBuilder.__init__ name ;;
     director <- RobotDirector.__init__ builder ;;
     RobotDirector.construct_robot director) w
    = (Returns (S (length (heap w))), w')
    /\ heap w'
       = ((heap w ++ [ODict (catalog mkHumanoidPartFactory)])
          ++ [ORobot HumanoidRobot name (length (heap w))])%list
    /\ _instance w' = Some l
    /\ stdout w'
       = (stdout w
          ++ map log_line
               [[Lit "HumanoidRobotBuilder initialized"];
                [Lit "RobotDirector initialized"];
                [Lit "Built humanoid head"];
                [Lit "Built humanoid torso"];
                [Lit "Built humanoid limbs"]])%list
    /\ log_text w'
       = (log_text w
          ++ echoed cb
               (map log_line
                  [[Lit "HumanoidRobotBuilder initialized"];
                   [Lit "RobotDirector initialized"];
                   [Lit "Built humanoid head"];
                   [Lit "Built humanoid torso"];
                   [Lit "Built humanoid limbs"]]))%list
    /\ canvas w' = canvas w
    /\ robot_listbox w' = robot_listbox w
    /\ name_entry w' = name_entry w.
Proof.
  intros Hi Hl. eexists.
  unfold HumanoidRobotBuilder.__init__, RobotDirector.__init__,
    RobotDirector.construct_robot, Robot.__init__.
  cbn [build_head build_torso build_limbs get_robot
       HumanoidRobotBuilder.builder HumanoidRobotBuilder.robot
       HumanoidRobotBuilder.part_factory RobotDirector.builder
       create_head create_torso create_limbs HumanoidPartFactory_parts].
  split; [repeat build_step Hi Hl; reflexivity|].
  split; [reflexivity|]. split; [exact Hi|].
  split; [fields_done|].
  split; [destruct cb as [[]|]; world_simpl; rewrite <- ?app_assoc, ?app_nil_r;
          reflexivity|].
  repeat split.
Qed.

Lemma heavy_build_steady name w l cb :
  _instance w = Some l -> heap w !! l = Some (OLogger cb) ->
  exists w',
    (builder <- HeavyRobotBuilder.__init__ name ;;
     director <- RobotDirector.__init__ builder ;;
     RobotDirector.construct_robot director) w
    = (Returns (S (length (heap w))), w')
    /\ heap w'
       = ((heap w ++ [ODict (catalog mkHeavyPartFactory)])
          ++ [ORobot HeavyRobot name (length (heap w))])%list
    /\ _instance w' = Some l
    /\ stdout w'
       = (stdout w
          ++ map log_line
               [[Lit "HeavyRobotBuilder initialized"];
                [Lit "RobotDirector initialized"];
                [Lit "Built heavy robot head"];
                [Lit "Built heavy robot torso"];
                [Lit "Built heavy robot limbs"]])%list
    /\ log_text w'
       = (log_text w
          ++ echoed cb
               (map log_line
                  [[Lit "HeavyRobotBuilder initialized"];
                   [Lit "RobotDirector initialized"];
                   [Lit "Built heavy robot head"];
                   [Lit "Built heavy robot torso"];
                   [Lit "Built heavy robot limbs"]]))%list
    /\ canvas w' = canvas w
    /\ robot_listbox w' = robot_listbox w
    /\ name_entry w' = name_entry w.
Proof.
  intros Hi Hl. eexists.
  unfold HeavyRobotBuilder.__init__, RobotDirector.__init__,
    RobotDirector.construct_robot, Robot.__init__.
  cbn [build_head build_torso build_limbs get_robot
       HeavyRobotBuilder.builder HeavyRobotBuilder.robot
       HeavyRobotBuilder.part_factory RobotDirector.builder
       create_head create_torso create_limbs HeavyPartFactory_parts].
  split; [repeat build_step Hi Hl; reflexivity|].
  split; [reflexivity|]. split; [exact Hi|].
  split; [fields_done|].
  split; [destruct cb as [[]|]; world_simpl; rewrite <- ?app_assoc, ?app_nil_r;
          reflexivity|].
  repeat split.
Qed.

Lemma echoed_app cb (l1 l2 : list text) :
  echoed cb (l1 ++ l2) = (echoed cb l1 ++ echoed cb l2)%list.
Proof. destruct cb as [[]|]; [apply map_app | reflexivity]. Qed.

Lemma effect_logged cb message w :
  effect cb w (heap w) [log_line message] (robot_listbox w) (canvas w)
    (logged cb message w).
Proof. destruct cb as [[]|]; repeat split; cbn; by rewrite ?app_nil_r. Qed.

(** Effects compose: the lines add up, the later heap, list box and canvas
    stand. *)
Lemma effect_trans cb w1 w2 w3 h2 l2 b2 c2 h3 l3 b3 c3 :
  effect cb w1 h2 l2 b2 c2 w2 -> effect cb w2 h3 l3 b3 c3 w3 ->
  effect cb w1 h3 (l2 ++ l3) b3 c3 w3.
Proof.
  intros (H1 & H2 & H3 & H4 & H5 & H6 & H7) (G1 & G2 & G3 & G4 & G5 & G6 & G7).
  repeat split; try congruence.
  - by rewrite G3, H3, app_assoc.
  - by rewrite G4, H4, echoed_app, app_assoc.
Qed.

Lemma create_humanoid_steady name w l cb :
  _instance w = Some l -> heap w !! l = Some (OLogger cb) ->
  exists w',
    create_robot mkHumanoidRobotFactory name w = (Returns (S (length (heap w))), w')
    /\ effect cb w
         ((heap w ++ [ODict (catalog mkHumanoidPartFactory)])
          ++ [ORobot HumanoidRobot name (length (heap w))])%list
         (map log_line
            [[Lit ("Creating Humanoid Robot: " ++ name)];
             [Lit "HumanoidRobotBuilder initialized"];
             [Lit "RobotDirector initialized"];
             [Lit "Built humanoid head"];
             [Lit "Built humanoid torso"];
             [Lit "Built humanoid limbs"]])
         (robot_listbox w) (canvas w) w'.
Proof.
  intros Hi Hl. cbn [create_robot HumanoidRobotFactory_create].
  rewrite (bind_run _ _ _ _ _ (shared_log_run _ _ _ _ Hi Hl)).
  set (w2 := logged _ _ _).
  destruct (humanoid_build_steady name w2 l cb Hi Hl)
    as (w' & Hrun & Hh & Hi' & Hs & Ht & Hc & Hb & He).
  exists w'. split; [exact Hrun|].
  eapply (effect_trans cb w w2 w' _ [_] _ _ _ _ _ _ (effect_logged cb _ w)).
  split; [exact Hh|]. split; [rewrite Hi'; symmetry; exact Hi|].
  split; [exact Hs|]. split; [exact Ht|].
  split; [exact Hb|]. split; [exact Hc|exact He].
Qed.

Lemma create_heavy_steady name w l cb :
  _instance w = Some l -> heap w !! l = Some (OLogger cb) ->
  exists w',
    create_robot mkHeavyRobotFactory name w = (Returns (S (length (heap w))), w')
    /\ effect cb w
         ((heap w ++ [ODict (catalog mkHeavyPartFactory)])
          ++ [ORobot HeavyRobot name (length (heap w))])%list
         (map log_line
            [[Lit ("Creating Heavy Robot: " ++ name)];
             [Lit "HeavyRobotBuilder initialized"];
             [Lit "RobotDirector initialized"];
             [Lit "Built heavy robot head"];
             [Lit "Built heavy robot torso"];
             [Lit "Built heavy robot limbs"]])
         (robot_listbox w) (canvas w) w'.
Proof.
  intros Hi Hl. cbn [create_robot HeavyRobotFactory_create].
  rewrite (bind_run _ _ _ _ _ (shared_log_run _ _ _ _ Hi Hl)).
  set (w2 := logged _ _ _).
  destruct (heavy_build_steady name w2 l cb Hi Hl)
    as (w' & Hrun & Hh & Hi' & Hs & Ht & Hc & Hb & He).
  exists w'. split; [exact Hrun|].
  eapply (effect_trans cb w w2 w' _ [_] _ _ _ _ _ _ (effect_logged cb _ w)).
  split; [exact Hh|]. split; [rewrite Hi'; symmetry; exact Hi|].
  split; [exact Hs|]. split; [exact Ht|].
  split; [exact Hb|]. split; [exact Hc|exact He].
Qed.

(** ** The list box after a refresh *)

Lemma str_of_entity w r v a name :
  entity_at w r v a name ->
  str_of (heap w) r = Some [Lit (name ++ ": "); ReprDict a].
Proof. intros (c & Hr & Hc). unfold str_of. by rewrite Hr, Hc. Qed.

Lemma fill_listbox_listing w rs :
  Forall (robot_ok w) rs ->
  forall acc,
    for_ rs (fun robot =>
      line <- Robot.__str__ robot ;;
      modify (fun w => with_robot_listbox (robot_listbox w ++ [line]) w))
      (with_robot_listbox acc w)
    = (Returns tt, with_robot_listbox (acc ++ listing (heap w) rs) w).
Proof.
  induction 1 as [|r rs (v & a & name & Hr) _ IH]; intros acc.
  - cbn. by rewrite app_nil_r.
  - cbn [for_]. rewrite bind_assoc.
    assert (Hr' : entity_at (with_robot_listbox acc w) r v a name) by exact Hr.
    rewrite (bind_run _ _ _ _ _ (str_run _ _ _ _ _ Hr')).
    unfold bind at 1, modify at 1. cbn [robot_listbox with_robot_listbox].
    etransitivity;
      [exact (IH (acc ++ [[Lit (name ++ ": "); ReprDict a]])%list)|].
    cbn [listing]. rewrite (str_of_entity _ _ _ _ _ Hr).
    by rewrite <- app_assoc.
Qed.

Lemma update_robot_list_listing self w :
  Forall (robot_ok w) (RobotFactoryApp.robots self) ->
  RobotFactoryApp.update_robot_list self w
  = (Returns tt, with_robot_listbox
                (listing (heap w) (RobotFactoryApp.robots self)) w).
Proof.
  intros H. unfold RobotFactoryApp.update_robot_list.
  unfold bind at 1, modify at 1.
  apply (fill_listbox_listing w _ H []).
Qed.

(** Announce a robot: format it, log it after [label], refresh the list box
    and draw it.  The drawing is the last statement, or is followed by
    statements [rest] that leave the world alone and are skipped when it
    raises. *)
Lemma announce_last self r label w v a name cb :
  entity_at w r v a name ->
  heap w !! RobotFactoryApp.logger self = Some (OLogger cb) ->
  Forall (robot_ok w) (RobotFactoryApp.robots self) ->
  exists w',
    (line <- Robot.__str__ r ;;
     SingletonLogger.log (RobotFactoryApp.logger self) (tapp [Lit label] line) ;;
     RobotFactoryApp.update_robot_list self ;;
     RobotFactoryApp.draw_robot self r) w = (verdict v a, w')
    /\ effect cb w (heap w) [announced label name a]
         (listing (heap w) (RobotFactoryApp.robots self))
         (drawn v a name) w'.
Proof.
  intros Hent Hlog Hok.
  rewrite (bind_run _ _ _ _ _ (str_run _ _ _ _ _ Hent)).
  rewrite (bind_run _ _ _ _ _ (log_run _ _ _ _ Hlog)).
  set (w2 := logged _ _ _).
  assert (Hok2 : Forall (robot_ok w2) (RobotFactoryApp.robots self)) by exact Hok.
  rewrite (bind_run _ _ _ _ _ (update_robot_list_listing self w2 Hok2)).
  set (w3 := with_robot_listbox _ _).
  assert (Hent3 : entity_at w3 r v a name) by exact Hent.
  rewrite (draw_robot_paint self _ _ _ _ _ Hent3).
  eexists. split; [reflexivity|].
  destruct cb as [[]|]; repeat split; cbn; by rewrite ?app_nil_r.
Qed.

Lemma announce_then self r label w v a name cb (rest : M unit) :
  entity_at w r v a name ->
  heap w !! RobotFactoryApp.logger self = Some (OLogger cb) ->
  Forall (robot_ok w) (RobotFactoryApp.robots self) ->
  (forall w1, heap w1 = heap w -> rest w1 = (Returns tt, w1)) ->
  exists w',
    (line <- Robot.__str__ r ;;
     SingletonLogger.log (RobotFactoryApp.logger self) (tapp [Lit label] line) ;;
     RobotFactoryApp.update_robot_list self ;;
     RobotFactoryApp.draw_robot self r ;;
     rest) w = (verdict v a, w')
    /\ effect cb w (heap w) [announced label name a]
         (listing (heap w) (RobotFactoryApp.robots self))
         (drawn v a name) w'.
Proof.
  intros Hent Hlog Hok Hrest.
  rewrite (bind_run _ _ _ _ _ (str_run _ _ _ _ _ Hent)).
  rewrite (bind_run _ _ _ _ _ (log_run _ _ _ _ Hlog)).
  set (w2 := logged _ _ _).
  assert (Hok2 : Forall (robot_ok w2) (RobotFactoryApp.robots self)) by exact Hok.
  rewrite (bind_run _ _ _ _ _ (update_robot_list_listing self w2 Hok2)).
  set (w3 := with_robot_listbox _ _).
  assert (Hent3 : entity_at w3 r v a name) by exact Hent.
  destruct (draw_then self r v a name rest w3 tt Hent3) as (res & Hdraw & Hres).
  { intros w1 Hw1. apply Hrest. by rewrite Hw1. }
  rewrite Hdraw.
  assert (E : res = verdict v a).
  { unfold verdict. by destruct Hres as [[-> ->]|[-> ->]]. }
  rewrite E. eexists. split; [reflexivity|].
  destruct cb as [[]|]; repeat split; cbn; by rewrite ?app_nil_r.
Qed.

(** ** Complete effect of the actions *)

(** Two lookups at one location give one object. *)
Ltac same_obj G F :=
  let E := fresh in
  pose proof (eq_trans (eq_sym G) F) as E; injection E; clear E; intros; subst.

(** Two lookups of different kinds are at different locations. *)
Ltac kind_clash H1 H2 :=
  let E := fresh in
  let F := fresh in
  intros E;
  first
    [ subst; pose proof (eq_trans (eq_sym H1) H2) as F; discriminate F
    | rewrite E in H1; pose proof (eq_trans (eq_sym H1) H2) as F;
      discriminate F
    | rewrite <- E in H1; pose proof (eq_trans (eq_sym H1) H2) as F;
      discriminate F ].

Lemma robot_ok_insert_dict w w' (c : loc) a a' (x : loc) :
  heap w !! c = Some (ODict a) ->
  heap w' = <[c := ODict a']> (heap w) ->
  robot_ok w x -> robot_ok w' x.
Proof.
  intros Hc Hh (v & b & name & cx & Hx & Hcx).
  assert (Hlt : (c < length (heap w))%nat) by (by eapply lookup_lt_Some).
  assert (Hne : x <> c) by kind_clash Hx Hc.
  destruct (decide (cx = c)) as [->|Hne'].
  - exists v, a', name, c. rewrite Hh. split.
    + by rewrite list_lookup_insert_ne.
    + by apply list_lookup_insert_eq.
  - exists v, b, name, cx. rewrite Hh. split.
    + by rewrite list_lookup_insert_ne.
    + by rewrite list_lookup_insert_ne.
Qed.

Lemma robot_ok_insert_robot w w' (r : loc) v n n' (c x : loc) :
  heap w !! r = Some (ORobot v n c) ->
  heap w' = <[r := ORobot v n' c]> (heap w) ->
  robot_ok w x -> robot_ok w' x.
Proof.
  intros Hr Hh (vx & b & name & cx & Hx & Hcx).
  assert (Hlt : (r < length (heap w))%nat) by (by eapply lookup_lt_Some).
  assert (Hne : cx <> r) by kind_clash Hcx Hr.
  destruct (decide (x = r)) as [->|Hne'].
  - rewrite Hr in Hx. injection Hx as <- <- <-.
    exists v, b, n', c. rewrite Hh. split.
    + by apply list_lookup_insert_eq.
    + by rewrite list_lookup_insert_ne.
  - exists vx, b, name, cx. rewrite Hh. split.
    + by rewrite list_lookup_insert_ne.
    + by rewrite list_lookup_insert_ne.
Qed.

Lemma write_effect cb w (r : loc) v n (c : loc) a key value :
  heap w !! r = Some (ORobot v n c) -> heap w !! c = Some (ODict a) ->
  exists w',
    components_set r key value w = (Returns tt, w')
    /\ effect cb w (<[c := ODict (<[key:=value]> a)]> (heap w)) []
         (robot_listbox w) (canvas w) w'
    /\ heap w' !! r = Some (ORobot v n c)
    /\ heap w' !! c = Some (ODict (<[key:=value]> a)).
Proof.
  intros Hr Hc. eexists. split; [by eapply components_set_run|].
  assert (Hne : r <> c) by kind_clash Hr Hc.
  split; [|split].
  - destruct cb as [[]|]; repeat split; cbn; by rewrite ?app_nil_r.
  - cbn. by rewrite list_lookup_insert_ne.
  - cbn. apply list_lookup_insert_eq. by eapply lookup_lt_Some.
Qed.

Lemma rename_effect cb w (r : loc) v n (c : loc) a value :
  heap w !! r = Some (ORobot v n c) -> heap w !! c = Some (ODict a) ->
  exists w',
    set_name r value w = (Returns tt, w')
    /\ effect cb w (<[r := ORobot v value c]> (heap w)) []
         (robot_listbox w) (canvas w) w'
    /\ heap w' !! r = Some (ORobot v value c)
    /\ heap w' !! c = Some (ODict a).
Proof.
  intros Hr Hc. eexists. split; [by eapply set_name_run|].
  assert (Hne : r <> c) by kind_clash Hr Hc.
  split; [|split].
  - destruct cb as [[]|]; repeat split; cbn; by rewrite ?app_nil_r.
  - cbn. apply list_lookup_insert_eq. by eapply lookup_lt_Some.
  - cbn. by rewrite list_lookup_insert_ne.
Qed.

Lemma effect_refl cb w :
  effect cb w (heap w) [] (robot_listbox w) (canvas w) w.
Proof. destruct cb as [[]|]; repeat split; cbn; by rewrite ?app_nil_r. Qed.

Lemma create_humanoid_robot_effect self w cb :
  _instance w = Some (RobotFactoryApp.logger self) ->
  heap w !! RobotFactoryApp.logger self = Some (OLogger cb) ->
  Forall (robot_ok w) (RobotFactoryApp.robots self) ->
  exists w',
    RobotFactoryApp.create_humanoid_robot (self, w)
    = (Returns tt, (recorded (S (length (heap w))) self, w'))
    /\ effect cb w
         ((heap w ++ [ODict (catalog mkHumanoidPartFactory)])
          ++ [ORobot HumanoidRobot (chosen_name "Humanoid" self w)
                (length (heap w))])%list
         (map log_line
            [[Lit ("Creating Humanoid Robot: " ++ chosen_name "Humanoid" self w)];
             [Lit "HumanoidRobotBuilder initialized"];
             [Lit "RobotDirector initialized"];
             [Lit "Built humanoid head"];
             [Lit "Built humanoid torso"];
             [Lit "Built humanoid limbs"]]
          ++ [announced "Created humanoid robot: "
                (chosen_name "Humanoid" self w)
                (catalog mkHumanoidPartFactory)])
         (listing
            ((heap w ++ [ODict (catalog mkHumanoidPartFactory)])
             ++ [ORobot HumanoidRobot (chosen_name "Humanoid" self w)
                   (length (heap w))])
            (RobotFactoryApp.robots self ++ [S (length (heap w))]))
         (Render.render HumanoidRobot (catalog mkHumanoidPartFactory)
            (chosen_name "Humanoid" self w))
         w'.
Proof.
  intros Hi Hlog Hok. unfold RobotFactoryApp.create_humanoid_robot.
  rewrite get_self_run.
  set (name := chosen_name "Humanoid" self w).
  destruct (create_humanoid_steady name w _ cb Hi Hlog) as (w1 & Hrun & Heff).
  erewrite lift_bind_run; cycle 1.
  { unfold bind at 1, get_world at 1. cbv zeta. rewrite or_chosen.
    exact Hrun. }
  rewrite !set_self_run, get_self_run.
  change (RobotFactoryApp.with_robots _ _)
    with (recorded (S (length (heap w))) self).
  pose proof Heff as (Hh & _).
  assert (Hent : entity_at w1 (S (length (heap w))) HumanoidRobot
                   (catalog mkHumanoidPartFactory) name).
  { exists (length (heap w)). rewrite Hh. split.
    - apply lookup_snoc2_snd.
    - apply lookup_snoc2_fst. }
  assert (Hold : forall l o, heap w !! l = Some o -> heap w1 !! l = Some o).
  { intros l o Ho. rewrite Hh. by apply lookup_snoc2_old. }
  assert (Hok1 : Forall (robot_ok w1)
                   (RobotFactoryApp.robots (recorded (S (length (heap w))) self))).
  { cbn. apply Forall_app. split.
    - eapply Forall_impl; [exact Hok|]. intros x Hx.
      by eapply (robot_ok_mono w w1).
    - constructor; [|constructor]. eexists _, _, _. exact Hent. }
  destruct (announce_last (recorded (S (length (heap w))) self) _
              "Created humanoid robot: " w1 _ _ _ cb
              Hent (Hold _ _ Hlog) Hok1) as (w' & Hrest & Heff').
  unfold verdict, drawn in Hrest, Heff'.
  rewrite catalog_paintable in Hrest, Heff'.
  exists w'. split; [exact (lift_run _ _ _ _ _ Hrest)|].
  rewrite Hh in Heff'. exact (effect_trans _ _ _ _ _ _ _ _ _ _ _ _ Heff Heff').
Qed.

Lemma create_heavy_robot_effect self w cb :
  _instance w = Some (RobotFactoryApp.logger self) ->
  heap w !! RobotFactoryApp.logger self = Some (OLogger cb) ->
  Forall (robot_ok w) (RobotFactoryApp.robots self) ->
  exists w',
    RobotFactoryApp.create_heavy_robot (self, w)
    = (Returns tt, (recorded (S (length (heap w))) self, w'))
    /\ effect cb w
         ((heap w ++ [ODict (catalog mkHeavyPartFactory)])
          ++ [ORobot HeavyRobot (chosen_name "Heavy" self w)
                (length (heap w))])%list
         (map log_line
            [[Lit ("Creating Heavy Robot: " ++ chosen_name "Heavy" self w)];
             [Lit "HeavyRobotBuilder initialized"];
             [Lit "RobotDirector initialized"];
             [Lit "Built heavy robot head"];
             [Lit "Built heavy robot torso"];
             [Lit "Built heavy robot limbs"]]
          ++ [announced "Created heavy robot: "
                (chosen_name "Heavy" self w)
                (catalog mkHeavyPartFactory)])
         (listing
            ((heap w ++ [ODict (catalog mkHeavyPartFactory)])
             ++ [ORobot HeavyRobot (chosen_name "Heavy" self w)
                   (length (heap w))])
            (RobotFactoryApp.robots self ++ [S (length (heap w))]))
         (Render.render HeavyRobot (catalog mkHeavyPartFactory)
            (chosen_name "Heavy" self w))
         w'.
Proof.
  intros Hi Hlog Hok. unfold RobotFactoryApp.create_heavy_robot.
  rewrite get_self_run.
  set (name := chosen_name "Heavy" self w).
  destruct (create_heavy_steady name w _ cb Hi Hlog) as (w1 & Hrun & Heff).
  erewrite lift_bind_run; cycle 1.
  { unfold bind at 1, get_world at 1. cbv zeta. rewrite or_chosen.
    exact Hrun. }
  rewrite !set_self_run, get_self_run.
  change (RobotFactoryApp.with_robots _ _)
    with (recorded (S (length (heap w))) self).
  pose proof Heff as (Hh & _).
  assert (Hent : entity_at w1 (S (length (heap w))) HeavyRobot
                   (catalog mkHeavyPartFactory) name).
  { exists (length (heap w)). rewrite Hh. split.
    - apply lookup_snoc2_snd.
    - apply lookup_snoc2_fst. }
  assert (Hold : forall l o, heap w !! l = Some o -> heap w1 !! l = Some o).
  { intros l o Ho. rewrite Hh. by apply lookup_snoc2_old. }
  assert (Hok1 : Forall (robot_ok w1)
                   (RobotFactoryApp.robots (recorded (S (length (heap w))) self))).
  { cbn. apply Forall_app. split.
    - eapply Forall_impl; [exact Hok|]. intros x Hx.
      by eapply (robot_ok_mono w w1).
    - constructor; [|constructor]. eexists _, _, _. exact Hent. }
  destruct (announce_last (recorded (S (length (heap w))) self) _
              "Created heavy robot: " w1 _ _ _ cb
              Hent (Hold _ _ Hlog) Hok1) as (w' & Hrest & Heff').
  unfold verdict, drawn in Hrest, Heff'.
  rewrite catalog_paintable in Hrest, Heff'.
  exists w'. split; [exact (lift_run _ _ _ _ _ Hrest)|].
  rewrite Hh in Heff'. exact (effect_trans _ _ _ _ _ _ _ _ _ _ _ _ Heff Heff').
Qed.

Lemma clone_robot_effect self w cb (last : loc) v a name (c : loc) :
  heap w !! RobotFactoryApp.logger self = Some (OLogger cb) ->
  Forall (robot_ok w) (RobotFactoryApp.robots self) ->
  RobotFactoryApp.last_robot self = Some last ->
  heap w !! last = Some (ORobot v name c) ->
  heap w !! c = Some (ODict a) ->
  exists w',
    RobotFactoryApp.clone_robot (self, w)
    = (verdict v a, (recorded (S (length (heap w))) self, w'))
    /\ effect cb w
         ((heap w ++ [ODict a])
          ++ [ORobot v (name ++ "_clone") (length (heap w))])%list
         [announced "Cloned robot: " (name ++ "_clone") a]
         (listing
            ((heap w ++ [ODict a])
             ++ [ORobot v (name ++ "_clone") (length (heap w))])
            (RobotFactoryApp.robots self ++ [S (length (heap w))]))
         (drawn v a (name ++ "_clone"))
         w'.
Proof.
  intros Hlog Hrs Hlast Hr Hc.
  unfold RobotFactoryApp.clone_robot. rewrite get_self_run, Hlast.
  rewrite (lift_bind_run _ _ _ _ _ _ (clone_rename_run w last v a name c Hr Hc)).
  rewrite !set_self_run, get_self_run.
  set (e2 := S (length (heap w))).
  set (w2 := with_heap _ _).
  change (RobotFactoryApp.with_last_robot _ _) with (recorded e2 self).
  assert (Hh2 : heap w2
                = ((heap w ++ [ODict a])
                   ++ [ORobot v (name ++ "_clone") (length (heap w))])%list)
    by reflexivity.
  assert (Heff2 : effect cb w (heap w2) [] (robot_listbox w) (canvas w) w2).
  { destruct cb as [[]|]; repeat split; cbn; by rewrite ?app_nil_r. }
  assert (Hold : forall l o, heap w !! l = Some o -> heap w2 !! l = Some o).
  { intros l o Ho. rewrite Hh2. by apply lookup_snoc2_old. }
  assert (Hent : entity_at w2 e2 v a (name ++ "_clone")).
  { exists (length (heap w)). rewrite Hh2. split.
    - apply lookup_snoc2_snd.
    - apply lookup_snoc2_fst. }
  assert (Hok : Forall (robot_ok w2) (RobotFactoryApp.robots (recorded e2 self))).
  { cbn. apply Forall_app. split.
    - eapply Forall_impl; [exact Hrs|]. intros x Hx.
      by eapply (robot_ok_mono w w2).
    - constructor; [|constructor]. eexists _, _, _. exact Hent. }
  destruct (announce_then (recorded e2 self) e2 "Cloned robot: " w2 _ _ _ cb
              (RobotFactoryApp.open_edit_dialog (recorded e2 self) e2 ;; ret tt)
              Hent (Hold _ _ Hlog) Hok) as (w' & Hrest & Heff').
  { intros w1 Hw1.
    assert (Hent1 : entity_at w1 e2 v a (name ++ "_clone")).
    { destruct Hent as (c' & H1 & H2). exists c'. by rewrite Hw1. }
    destruct (open_edit_dialog_run (recorded e2 self) w1 e2 _ _ _ Hent1)
      as [dlg Hdlg].
    by rewrite (bind_run _ _ _ _ _ Hdlg). }
  exists w'. split; [exact (lift_run _ _ _ _ _ Hrest)|].
  rewrite Hh2 in *.
  exact (effect_trans _ _ _ _ _ _ _ _ _ _ _ _ Heff2 Heff').
Qed.

Lemma apply_changes_effect self w cb (r : loc) v name (c : loc) a dlg :
  heap w !! RobotFactoryApp.logger self = Some (OLogger cb) ->
  Forall (robot_ok w) (RobotFactoryApp.robots self) ->
  heap w !! r = Some (ORobot v name c) ->
  heap w !! c = Some (ODict a) ->
  (v = HumanoidRobot -> is_Some (RobotFactoryApp.eye_var dlg)) ->
  exists w',
    RobotFactoryApp.apply_changes self r dlg w
    = (verdict v (applied v dlg a), w')
    /\ effect cb w
         (<[c := ODict (applied v dlg a)]>
            (<[r := ORobot v (renamed dlg name) c]> (heap w)))
         [announced "Modified cloned robot: " (renamed dlg name)
            (applied v dlg a)]
         (listing
            (<[c := ODict (applied v dlg a)]>
               (<[r := ORobot v (renamed dlg name) c]> (heap w)))
            (RobotFactoryApp.robots self))
         (drawn v (applied v dlg a) (renamed dlg name))
         w'.
Proof.
  intros Hlog Hok Hr Hc Heye. unfold RobotFactoryApp.apply_changes. cbv zeta.
  unfold loc in *.
  assert (Hlc : RobotFactoryApp.logger self <> c) by kind_clash Hlog Hc.
  assert (Hlr : RobotFactoryApp.logger self <> r) by kind_clash Hlog Hr.
  assert (H1 : exists w1,
             (if negb (String.eqb (Str.strip (RobotFactoryApp.name_var dlg)) "")
              then set_name r (Str.strip (RobotFactoryApp.name_var dlg))
              else ret tt) w = (Returns tt, w1)
             /\ effect cb w (<[r := ORobot v (renamed dlg name) c]> (heap w)) []
                  (robot_listbox w) (canvas w) w1
             /\ heap w1 !! r = Some (ORobot v (renamed dlg name) c)
             /\ heap w1 !! c = Some (ODict a)).
  { unfold renamed. destruct (String.eqb _ ""); cbn [negb]; cbv beta iota.
    - exists w. split; [reflexivity|].
      rewrite (list_insert_id _ _ _ Hr). split; [apply effect_refl|done].
    - by eapply rename_effect. }
  destruct H1 as (w1 & Hrun1 & Heff1 & Hr1 & Hc1).
  rewrite (bind_run _ _ _ _ _ Hrun1).
  destruct (write_effect cb w1 r _ _ c _ "antenna"
              (RobotFactoryApp.antenna_var dlg) Hr1 Hc1)
    as (w2 & Hrun2 & Heff2 & Hr2 & Hc2).
  rewrite (bind_run _ _ _ _ _ Hrun2).
  destruct (write_effect cb w2 r _ _ c _ "legs"
              (RobotFactoryApp.legs_var dlg) Hr2 Hc2)
    as (w3 & Hrun3 & Heff3 & Hr3 & Hc3).
  rewrite (bind_run _ _ _ _ _ Hrun3).
  destruct (write_effect cb w3 r _ _ c _ "head_style"
              (RobotFactoryApp.head_var dlg) Hr3 Hc3)
    as (w4 & Hrun4 & Heff4 & Hr4 & Hc4).
  rewrite (bind_run _ _ _ _ _ Hrun4).
  destruct (write_effect cb w4 r _ _ c _ "torso_style"
              (RobotFactoryApp.torso_var dlg) Hr4 Hc4)
    as (w5 & Hrun5 & Heff5 & Hr5 & Hc5).
  rewrite (bind_run _ _ _ _ _ Hrun5).
  destruct (write_effect cb w5 r _ _ c _ "arm_style"
              (RobotFactoryApp.arm_var dlg) Hr5 Hc5)
    as (w6 & Hrun6 & Heff6 & Hr6 & Hc6).
  rewrite (bind_run _ _ _ _ _ Hrun6).
  rewrite (bind_run _ _ _ _ _ (deref_run _ _ _ Hr6)).
  pose proof (effect_trans _ _ _ _ _ _ _ _ _ _ _ _ Heff1
               (effect_trans _ _ _ _ _ _ _ _ _ _ _ _ Heff2
                  (effect_trans _ _ _ _ _ _ _ _ _ _ _ _ Heff3
                     (effect_trans _ _ _ _ _ _ _ _ _ _ _ _ Heff4
                        (effect_trans _ _ _ _ _ _ _ _ _ _ _ _ Heff5 Heff6)))))
    as Heff.
  cbn [app] in Heff.
  destruct Heff1 as (Hh1 & _), Heff2 as (Hh2 & _), Heff3 as (Hh3 & _),
    Heff4 as (Hh4 & _), Heff5 as (Hh5 & _), Heff6 as (Hh6 & _).
  rewrite Hh5, Hh4, Hh3, Hh2, Hh1, !list_insert_insert_eq in Heff.
  assert (Hok6 : Forall (robot_ok w6) (RobotFactoryApp.robots self)).
  { eapply Forall_impl; [exact Hok|]. intros x Hx.
    assert (Hx1 : robot_ok w1 x)
      by (by eapply (robot_ok_insert_robot w w1 r v name (renamed dlg name) c)).
    assert (Hx2 : robot_ok w2 x) by (by eapply (robot_ok_insert_dict w1 w2 c)).
    assert (Hx3 : robot_ok w3 x) by (by eapply (robot_ok_insert_dict w2 w3 c)).
    assert (Hx4 : robot_ok w4 x) by (by eapply (robot_ok_insert_dict w3 w4 c)).
    assert (Hx5 : robot_ok w5 x) by (by eapply (robot_ok_insert_dict w4 w5 c)).
    by eapply (robot_ok_insert_dict w5 w6 c). }
  assert (Hlog6 : heap w6 !! RobotFactoryApp.logger self = Some (OLogger cb)).
  { destruct Heff as (-> & _).
    by rewrite !list_lookup_insert_ne by done. }
  assert (Hfin : forall w7 a7 (k : M unit),
             k w6 = (Returns tt, w7) ->
             effect cb w6 (<[c := ODict a7]> (heap w6)) []
               (robot_listbox w6) (canvas w6) w7 ->
             heap w7 !! r = Some (ORobot v (renamed dlg name) c) ->
             heap w7 !! c = Some (ODict a7) ->
             a7 = applied v dlg a ->
             exists w',
               (k ;;
                line <- Robot.__str__ r ;;
                SingletonLogger.log (RobotFactoryApp.logger self)
                  (tapp [Lit "Modified cloned robot: "] line) ;;
                RobotFactoryApp.update_robot_list self ;;
                RobotFactoryApp.draw_robot self r) w6
               = (verdict v (applied v dlg a), w')
               /\ effect cb w
                    (<[c := ODict (applied v dlg a)]>
                       (<[r := ORobot v (renamed dlg name) c]> (heap w)))
                    [announced "Modified cloned robot: " (renamed dlg name)
                       (applied v dlg a)]
                    (listing
                       (<[c := ODict (applied v dlg a)]>
                          (<[r := ORobot v (renamed dlg name) c]> (heap w)))
                       (RobotFactoryApp.robots self))
                    (drawn v (applied v dlg a) (renamed dlg name))
                    w').
  { intros w7 a7 k Hk Heff7 Hr7 Hc7 ->.
    rewrite (bind_run _ _ _ _ _ Hk).
    assert (Hok7 : Forall (robot_ok w7) (RobotFactoryApp.robots self)).
    { eapply Forall_impl; [exact Hok6|]. intros x Hx.
      eapply (robot_ok_insert_dict w6 w7 c); [exact Hc6|apply Heff7|exact Hx]. }
    assert (Hlog7 : heap w7 !! RobotFactoryApp.logger self = Some (OLogger cb)).
    { destruct Heff7 as (-> & _). by rewrite list_lookup_insert_ne by done. }
    destruct (announce_last self r "Modified cloned robot: " w7 v
                (applied v dlg a) (renamed dlg name) cb
                ltac:(by exists c) Hlog7 Hok7) as (w' & Hrun' & Heff').
    exists w'. split; [exact Hrun'|].
    pose proof (effect_trans _ _ _ _ _ _ _ _ _ _ _ _ Heff
                  (effect_trans _ _ _ _ _ _ _ _ _ _ _ _ Heff7 Heff')) as Hall.
    cbn [app] in Hall.
    destruct Heff7 as (Hh7 & _), Heff as (Hh6' & _).
    rewrite Hh7, Hh6', !list_insert_insert_eq in Hall. exact Hall. }
  destruct v; cbn [isinstance].
  - destruct (Heye eq_refl) as [eye Heq]. rewrite Heq.
    destruct (write_effect cb w6 r _ _ c _ "eye_color" eye Hr6 Hc6)
      as (w7 & Hrun7 & Heff7 & Hr7 & Hc7).
    apply (Hfin w7 _ _ Hrun7 Heff7 Hr7 Hc7).
    unfold applied. by rewrite Heq.
  - apply (Hfin w6 (applied HeavyRobot dlg a) (ret tt) eq_refl).
    + assert (E : <[c := ODict (applied HeavyRobot dlg a)]> (heap w6) = heap w6)
        by (apply list_insert_id; exact Hc6).
      rewrite E. apply effect_refl.
    + exact Hr6.
    + exact Hc6.
    + reflexivity.
  - apply (Hfin w6 (applied OtherRobot dlg a) (ret tt) eq_refl).
    + assert (E : <[c := ODict (applied OtherRobot dlg a)]> (heap w6) = heap w6)
        by (apply list_insert_id; exact Hc6).
      rewrite E. apply effect_refl.
    + exact Hr6.
    + exact Hc6.
    + reflexivity.
Qed.

(** ** What holds in every state of the running application *)

Lemma robot_sound_ok w r : robot_sound w r -> robot_ok w r.
Proof. intros (v & name & c & a & Hr & Hc & _). exists v, a, name, c. done. Qed.

Lemma sound_all_ok w rs : Forall (robot_sound w) rs -> Forall (robot_ok w) rs.
Proof.
  intros H. eapply Forall_impl; [exact H|]. intros r. apply robot_sound_ok.
Qed.

Lemma chosen_name_nonempty variant self w :
  variant <> "" -> chosen_name variant self w <> "".
Proof.
  intros Hv. unfold chosen_name.
  destruct (String.eqb _ "") eqn:E.
  - destruct variant; [done|discriminate].
  - by apply String.eqb_neq in E.
Qed.

Lemma renamed_nonempty dlg name : name <> "" -> renamed dlg name <> "".
Proof.
  intros Hn. unfold renamed.
  destruct (String.eqb _ "") eqn:E; [done|]. by apply String.eqb_neq in E.
Qed.

Lemma clone_name_nonempty name : name ++ "_clone" <> "".
Proof. destruct name; discriminate. Qed.

Lemma baseline_applied v dlg a : baseline v ⊆ a -> baseline v ⊆ applied v dlg a.
Proof.
  intros H. unfold applied.
  assert (H5 : baseline v
               ⊆ <["arm_style" := RobotFactoryApp.arm_var dlg]>
                   (<["torso_style" := RobotFactoryApp.torso_var dlg]>
                      (<["head_style" := RobotFactoryApp.head_var dlg]>
                         (<["legs" := RobotFactoryApp.legs_var dlg]>
                            (<["antenna" := RobotFactoryApp.antenna_var dlg]> a))))).
  { repeat (apply insert_subseteq_r; [by destruct v|]). exact H. }
  destruct v; try exact H5.
  destruct (RobotFactoryApp.eye_var dlg); [|exact H5].
  by apply insert_subseteq_r.
Qed.

(** A robot appended at the end of the heap, with its own new dict. *)
Lemma inv_append self w w' v a name lines :
  Inv self w ->
  effect (Some update_log) w
    ((heap w ++ [ODict a]) ++ [ORobot v name (length (heap w))])%list
    lines
    (listing ((heap w ++ [ODict a]) ++ [ORobot v name (length (heap w))])
       (RobotFactoryApp.robots self ++ [S (length (heap w))]))
    (drawn v a name) w' ->
  v <> OtherRobot -> name <> "" -> baseline v ⊆ a ->
  Inv (recorded (S (length (heap w))) self) w'.
Proof.
  intros (Hi & Hlog & Hmir & Hnd & Hsound & Hun & Hlast & Hbox & Hshow)
         (Hh & Hi' & Hout & Htxt & Hbox' & Hcv & _) Hv Hn Hbase.
  unfold unshared, shows, entity_at, loc in *.
  assert (Hold : forall l o, heap w !! l = Some o -> heap w' !! l = Some o).
  { intros l o Ho. rewrite Hh. by apply lookup_snoc2_old. }
  assert (Hnew : heap w' !! S (length (heap w))
                 = Some (ORobot v name (length (heap w))))
    by (rewrite Hh; apply lookup_snoc2_snd).
  assert (Hdict : heap w' !! length (heap w) = Some (ODict a))
    by (rewrite Hh; apply lookup_snoc2_fst).
  assert (Hlt : forall x, x ∈ RobotFactoryApp.robots self ->
                exists vx nx cx ax,
                  heap w !! x = Some (ORobot vx nx cx)
                  /\ heap w !! cx = Some (ODict ax)
                  /\ (x < length (heap w))%nat /\ (cx < length (heap w))%nat).
  { intros x Hx. rewrite Forall_forall in Hsound.
    destruct (Hsound x Hx) as (vx & nx & cx & ax & H1 & H2 & _).
    exists vx, nx, cx, ax. repeat split; try done; by eapply lookup_lt_Some. }
  split; [by rewrite Hi'|]. split; [by apply Hold|].
  split; [by rewrite Htxt, Hout, Hmir, map_app|].
  split; [|split; [|split; [|split; [|split]]]]; cbn.
  - apply NoDup_app. split; [exact Hnd|]. split; [|apply NoDup_singleton].
    intros x Hx Hin. apply list_elem_of_singleton in Hin.
    destruct (Hlt x Hx) as (? & ? & ? & ? & _ & _ & Hx' & _). lia.
  - apply Forall_app. split.
    + rewrite Forall_forall in *. intros x Hx.
      destruct (Hsound x Hx) as (vx & nx & cx & ax & H1 & H2 & H3).
      exists vx, nx, cx, ax. split; [by apply Hold|]. split; [by apply Hold|done].
    + constructor; [|constructor].
      by exists v, name, (length (heap w)), a.
  - intros r1 r2 v1 n1 v2 n2 c H1 H2 G1 G2.
    apply elem_of_app in H1, H2.
    destruct H1 as [H1|H1], H2 as [H2|H2].
    + destruct (Hlt r1 H1) as (vx & nx & cx & ax & F1 & _).
      destruct (Hlt r2 H2) as (vy & ny & cy & ay & F2 & _).
      pose proof (Hold _ _ F1) as F1'. pose proof (Hold _ _ F2) as F2'.
      same_obj G1 F1'. same_obj G2 F2'.
      by eapply Hun.
    + apply list_elem_of_singleton in H2. subst r2.
      destruct (Hlt r1 H1) as (vx & nx & cx & ax & F1 & _ & _ & Hcx).
      pose proof (Hold _ _ F1) as F1'.
      same_obj G1 F1'. same_obj Hnew G2. lia.
    + apply list_elem_of_singleton in H1. subst r1.
      destruct (Hlt r2 H2) as (vx & nx & cx & ax & F2 & _ & _ & Hcx).
      pose proof (Hold _ _ F2) as F2'.
      same_obj G2 F2'. same_obj Hnew G1. lia.
    + apply list_elem_of_singleton in H1, H2. congruence.
  - by rewrite last_snoc.
  - by rewrite Hbox', Hh.
  - unfold shows, entity_at. cbn.
    split; [intros H; destruct (RobotFactoryApp.robots self); discriminate H|].
    intros _. exists (S (length (heap w))), v, a, name.
    split; [apply elem_of_app; right; by apply list_elem_of_singleton|].
    split; [by exists (length (heap w))|].
    by rewrite paint_render.
Qed.

(** A robot of the collection rewritten in place by the dialog. *)
Lemma inv_apply self w w' (r : loc) v name (c : loc) a dlg lines :
  Inv self w ->
  r ∈ RobotFactoryApp.robots self ->
  heap w !! r = Some (ORobot v name c) ->
  heap w !! c = Some (ODict a) ->
  effect (Some update_log) w
    (<[c := ODict (applied v dlg a)]>
       (<[r := ORobot v (renamed dlg name) c]> (heap w)))
    lines
    (listing
       (<[c := ODict (applied v dlg a)]>
          (<[r := ORobot v (renamed dlg name) c]> (heap w)))
       (RobotFactoryApp.robots self))
    (drawn v (applied v dlg a) (renamed dlg name)) w' ->
  Inv self w'.
Proof.
  intros (Hi & Hlog & Hmir & Hnd & Hsound & Hun & Hlast & Hbox & Hshow)
         Hin Hr Hc (Hh & Hi' & Hout & Htxt & Hbox' & Hcv & _).
  unfold unshared, shows, entity_at, loc in *.
  rewrite Forall_forall in Hsound.
  assert (Hrc : r <> c) by kind_clash Hr Hc.
  assert (Hrlt : (r < length (heap w))%nat) by (by eapply lookup_lt_Some).
  assert (Hclt : (c < length (heap w))%nat) by (by eapply lookup_lt_Some).
  assert (Hr' : heap w' !! r = Some (ORobot v (renamed dlg name) c)).
  { rewrite Hh, list_lookup_insert_ne by done.
    by apply list_lookup_insert_eq. }
  assert (Hc' : heap w' !! c = Some (ODict (applied v dlg a))).
  { rewrite Hh. apply list_lookup_insert_eq. by rewrite length_insert. }
  assert (Hother : forall l, l <> r -> l <> c -> heap w' !! l = heap w !! l).
  { intros l H1 H2. rewrite Hh. by rewrite !list_lookup_insert_ne. }
  assert (Hsr : v <> OtherRobot /\ name <> "" /\ baseline v ⊆ a).
  { destruct (Hsound r Hin) as (vx & nx & cx & ax & H1 & H2 & H3).
    same_obj Hr H1. same_obj Hc H2. exact H3. }
  destruct Hsr as (Hv & Hn & Hbase).
  assert (Hptr : forall x vx nx cx,
             x ∈ RobotFactoryApp.robots self ->
             heap w' !! x = Some (ORobot vx nx cx) ->
             exists nx0, heap w !! x = Some (ORobot vx nx0 cx)).
  { intros x vx nx cx Hx Gx. unfold loc in *.
    destruct (decide (x = r)) as [->|Hne].
    - same_obj Hr' Gx. by exists name.
    - destruct (Hsound x Hx) as (vy & ny & cy & ay & H1 & _).
      unfold loc in *.
      assert (Hxc : x <> c) by kind_clash H1 Hc.
      rewrite (Hother x Hne Hxc) in Gx. by exists nx. }
  split; [by rewrite Hi'|].
  split.
  { rewrite Hother; [done| |]; [kind_clash Hlog Hr|kind_clash Hlog Hc]. }
  split; [by rewrite Htxt, Hout, Hmir, map_app|].
  split; [exact Hnd|].
  split; [|split; [|split; [exact Hlast|split; [by rewrite Hbox', Hh|]]]].
  - rewrite Forall_forall. intros x Hx.
    destruct (decide (x = r)) as [->|Hne].
    + exists v, (renamed dlg name), c, (applied v dlg a).
      split; [done|]. split; [done|]. split; [done|].
      split; [by apply renamed_nonempty|by apply baseline_applied].
    + destruct (Hsound x Hx) as (vx & nx & cx & ax & H1 & H2 & H3).
      unfold loc in *.
      assert (Hxc : x <> c) by kind_clash H1 Hc.
      assert (Hcr : cx <> r) by kind_clash H2 Hr.
      assert (Hcc : cx <> c).
      { intros ->. apply Hne. by eapply (Hun x r). }
      exists vx, nx, cx, ax. rewrite !Hother by done. done.
  - intros r1 r2 v1 n1 v2 n2 c0 H1 H2 G1 G2.
    destruct (Hptr _ _ _ _ H1 G1) as [m1 F1].
    destruct (Hptr _ _ _ _ H2 G2) as [m2 F2].
    by eapply Hun.
  - split; [intros E; rewrite E in Hin; by apply elem_of_nil in Hin|].
    intros _. exists r, v, (applied v dlg a), (renamed dlg name).
    split; [done|]. split; [by exists c|]. by rewrite paint_render.
Qed.

(** Only the log grows. *)
Lemma inv_logged self w w' lines :
  Inv self w ->
  effect (Some update_log) w (heap w) lines (robot_listbox w) (canvas w) w' ->
  Inv self w'.
Proof.
  intros (Hi & Hlog & Hmir & Hnd & Hsound & Hun & Hlast & Hbox & Hshow)
         (Hh & Hi' & Hout & Htxt & Hbox' & Hcv & _).
  unfold Inv, robot_sound, unshared, shows, entity_at in *.
  rewrite Hh, Hi', Hbox', Hcv, Htxt, Hout, map_app, Hmir.
  repeat (split; [done|]). done.
Qed.

Lemma inv_start entry self w :
  RobotFactoryApp.__init__ (RobotFactoryApp.start_world entry) = (Returns self, w) ->
  Inv self w.
Proof.
  rewrite init_run. intros [= <- <-].
  split; [done|]. split; [done|]. split; [done|].
  split; [constructor|]. split; [constructor|].
  split; [intros r1 r2 v1 n1 v2 n2 c H; by apply elem_of_nil in H|].
  split; [done|]. split; [done|].
  split; [done|]. intros H. by destruct H.
Qed.

(** Every state of the running application satisfies the invariant. *)
Lemma reachable_inv self w : reachable self w -> Inv self w.
Proof.
  induction 1 as [entry self w Hstart
                 |self w s _ IH
                 |self w res self' w' _ IH Hrun
                 |self w res self' w' _ IH Hrun
                 |self w res self' w' _ IH Hrun
                 |self w r dlg res w' _ IH Hin Hfit Hrun].
  - by eapply inv_start.
  - exact IH.
  - pose proof IH as (Hi & Hlog & _ & _ & Hsound & _).
    destruct (create_humanoid_robot_effect self w _ Hi Hlog (sound_all_ok _ _ Hsound))
      as (w'' & Hrun' & Heff).
    rewrite Hrun in Hrun'. injection Hrun' as -> -> ->.
    eapply (inv_append self w w'' HumanoidRobot (catalog mkHumanoidPartFactory)
              (chosen_name "Humanoid" self w)); [exact IH| |done| |done].
    + unfold drawn. rewrite catalog_paintable. exact Heff.
    + by apply chosen_name_nonempty.
  - pose proof IH as (Hi & Hlog & _ & _ & Hsound & _).
    destruct (create_heavy_robot_effect self w _ Hi Hlog (sound_all_ok _ _ Hsound))
      as (w'' & Hrun' & Heff).
    rewrite Hrun in Hrun'. injection Hrun' as -> -> ->.
    eapply (inv_append self w w'' HeavyRobot (catalog mkHeavyPartFactory)
              (chosen_name "Heavy" self w)); [exact IH| |done| |done].
    + unfold drawn. rewrite catalog_paintable. exact Heff.
    + by apply chosen_name_nonempty.
  - pose proof IH as (Hi & Hlog & _ & _ & Hsound & _ & Hlast & _).
    destruct (RobotFactoryApp.last_robot self) as [last|] eqn:Elast.
    + assert (Hin : last ∈ RobotFactoryApp.robots self)
        by (by apply last_Some_elem_of).
      rewrite Forall_forall in Hsound.
      destruct (Hsound last Hin) as (v & name & c & a & Hr & Hc & Hv & Hn & Hb).
      destruct (clone_robot_effect self w _ last v a name c Hlog
                  (sound_all_ok _ _ ltac:(by rewrite Forall_forall))
                  Elast Hr Hc) as (w'' & Hrun' & Heff).
      rewrite Hrun in Hrun'. injection Hrun' as -> -> ->.
      eapply inv_append; [exact IH|exact Heff|done| |done].
      apply clone_name_nonempty.
    + unfold RobotFactoryApp.clone_robot in Hrun.
      rewrite get_self_run, Elast in Hrun.
      rewrite (lift_run _ _ _ _ _ (log_run _ _ _ _ Hlog)) in Hrun.
      injection Hrun as <- <- <-.
      eapply inv_logged; [exact IH|apply effect_logged].
  - pose proof IH as (Hi & Hlog & _ & _ & Hsound & _).
    pose proof Hsound as Hsound'. rewrite Forall_forall in Hsound'.
    destruct (Hsound' r Hin) as (v & name & c & a & Hr & Hc & Hv & Hn & Hb).
    destruct (apply_changes_effect self w _ r v name c a dlg Hlog
                (sound_all_ok _ _ Hsound) Hr Hc) as (w'' & Hrun' & Heff).
    { intros ->. by eapply Hfit. }
    rewrite Hrun in Hrun'. injection Hrun' as -> ->.
    eapply inv_apply; [exact IH|exact Hin|exact Hr|exact Hc|exact Heff].
Qed.

Lemma created_reachable : reachable created.1 created.2.
Proof.
  apply (reach_humanoid fresh_app (running_world "Ada") (Returns tt)
           created.1 created.2).
  - apply (reach_start "Ada"). reflexivity.
  - vm_compute. reflexivity.
Defined.

Lemma demo_reachable : reachable demo.1 demo.2.
Proof.
  apply (reach_clone created.1 created.2 (Returns tt) demo.1 demo.2).
  - exact created_reachable.
  - vm_compute. reflexivity.
Defined.

Example demo_robots : RobotFactoryApp.robots demo.1 = [2%nat; 4%nat].
Proof. vm_compute. reflexivity. Qed.

Lemma listing_lines h rs :
  Forall (fun r => is_Some (str_of h r)) rs ->
  Forall2 (fun r line => str_of h r = Some line) rs (listing h rs).
Proof.
  induction 1 as [|r rs [line Hr] _ IH]; cbn [listing]; [constructor|].
  rewrite Hr. by constructor.
Qed.


Lemma hazel_reachable : reachable hazel.1 hazel.2.
Proof.
  apply (reach_apply demo.1 demo.2 4%nat hazel_dialog
           (Raises (TclError "Hazel")) hazel.2 demo_reachable).
  - vm_compute. apply list_elem_of_In. right. left. reflexivity.
  - intros name c _. by eexists.
  - vm_compute. reflexivity.
Defined.

(** X1. In every state of the running application the only way an action
    fails is Tk refusing an eye colour.  Both create actions return.  The
    clone action, a redraw and "Apply Changes" return exactly when Tk takes
    the eye colour of the robot they draw, and otherwise raise [TclError]
    for that colour and nothing else; opening the dialog for a robot of the
    collection always returns and changes nothing. *)
Theorem actions_raise_only_tclerror self w :
  reachable self w ->
  (exists s', RobotFactoryApp.create_humanoid_robot (self, w) = (Returns tt, s'))
  /\ (exists s', RobotFactoryApp.create_heavy_robot (self, w) = (Returns tt, s'))
  /\ (RobotFactoryApp.last_robot self = None ->
      exists s', RobotFactoryApp.clone_robot (self, w) = (Returns tt, s'))
  /\ (forall last v a name,
        RobotFactoryApp.last_robot self = Some last ->
        entity_at w last v a name ->
        exists s', RobotFactoryApp.clone_robot (self, w) = (verdict v a, s'))
  /\ forall r v a name,
       r ∈ RobotFactoryApp.robots self ->
       entity_at w r v a name ->
       (exists w', RobotFactoryApp.draw_robot self r w = (verdict v a, w'))
       /\ (exists dlg,
             RobotFactoryApp.open_edit_dialog self r w = (Returns dlg, w))
       /\ forall dlg, dialog_fits w r dlg ->
            exists w',
              RobotFactoryApp.apply_changes self r dlg w
              = (verdict v (applied v dlg a), w').
Proof.
  intros Hreach.
  pose proof (reachable_inv _ _ Hreach)
    as (Hi & Hlog & _ & _ & Hsound & _ & Hlast & _).
  pose proof (sound_all_ok _ _ Hsound) as Hok.
  split; [|split; [|split; [|split]]].
  - destruct (create_humanoid_robot_effect self w _ Hi Hlog Hok) as (w' & -> & _).
    by eexists.
  - destruct (create_heavy_robot_effect self w _ Hi Hlog Hok) as (w' & -> & _).
    by eexists.
  - intros Elast. unfold RobotFactoryApp.clone_robot.
    rewrite get_self_run, Elast.
    rewrite (lift_run _ _ _ _ _ (log_run _ _ _ _ Hlog)). by eexists.
  - intros last v a name Elast (c & Hr & Hc).
    destruct (clone_robot_effect self w _ last v a name c Hlog Hok Elast Hr Hc)
      as (w' & -> & _).
    by eexists.
  - intros r v a name Hin Hent. split; [|split].
    + rewrite (draw_robot_paint self w r v a name Hent). by eexists.
    + exact (open_edit_dialog_run self w r v a name Hent).
    + intros dlg Hfit. destruct Hent as (c & Hr & Hc).
      destruct (apply_changes_effect self w _ r v name c a dlg Hlog Hok Hr Hc)
        as (w' & -> & _); [|by eexists].
      intros ->. by eapply Hfit.
Qed.

Lemma actions_raise_only_tclerror_witness :
  (exists s',
      RobotFactoryApp.create_humanoid_robot (hazel.1, hazel.2) = (Returns tt, s'))
  /\ (exists s',
         RobotFactoryApp.create_heavy_robot (hazel.1, hazel.2) = (Returns tt, s'))
  /\ (RobotFactoryApp.last_robot hazel.1 = None ->
      exists s', RobotFactoryApp.clone_robot (hazel.1, hazel.2) = (Returns tt, s'))
  /\ (forall last v a name,
        RobotFactoryApp.last_robot hazel.1 = Some last ->
        entity_at hazel.2 last v a name ->
        exists s', RobotFactoryApp.clone_robot (hazel.1, hazel.2) = (verdict v a, s'))
  /\ forall r v a name,
       r ∈ RobotFactoryApp.robots hazel.1 ->
       entity_at hazel.2 r v a name ->
       (exists w', RobotFactoryApp.draw_robot hazel.1 r hazel.2 = (verdict v a, w'))
       /\ (exists dlg,
             RobotFactoryApp.open_edit_dialog hazel.1 r hazel.2
             = (Returns dlg, hazel.2))
       /\ forall dlg, dialog_fits hazel.2 r dlg ->
            exists w',
              RobotFactoryApp.apply_changes hazel.1 r dlg hazel.2
              = (verdict v (applied v dlg a), w').
Proof. exact (actions_raise_only_tclerror hazel.1 hazel.2 hazel_reachable). Defined.

(** X2. In every state of the running application each robot of the
    collection is a humanoid or a heavy robot, has a non-empty name, and
    still carries the head, torso and limbs labels of its class's catalog:
    neither cloning nor the edit dialog ever removes or rewrites them. *)
Theorem robots_stay_sound self w r :
  reachable self w ->
  r ∈ RobotFactoryApp.robots self ->
  exists v a name,
    entity_at w r v a name
    /\ (v = HumanoidRobot \/ v = HeavyRobot)
    /\ name <> ""
    /\ baseline v ⊆ a.
Proof.
  intros Hreach Hin.
  pose proof (reachable_inv _ _ Hreach) as (_ & _ & _ & _ & Hsound & _).
  rewrite Forall_forall in Hsound.
  destruct (Hsound r Hin) as (v & name & c & a & Hr & Hc & Hv & Hn & Hb).
  exists v, a, name. split; [by exists c|].
  split; [by destruct v; auto|done].
Qed.

Lemma robots_stay_sound_witness :
  exists v a name,
    entity_at demo.2 4%nat v a name
    /\ (v = HumanoidRobot \/ v = HeavyRobot)
    /\ name <> ""
    /\ baseline v ⊆ a.
Proof.
  apply (robots_stay_sound demo.1 demo.2 4%nat demo_reachable).
  vm_compute. apply list_elem_of_In. right. left. reflexivity.
Defined.

(** X3. In every state of the running application the collection holds no
    robot twice and no two of its robots share a components dict, so a write
    through one robot is never seen through another. *)
Theorem robots_never_share self w :
  reachable self w ->
  NoDup (RobotFactoryApp.robots self)
  /\ forall r1 r2 v1 n1 c1 v2 n2 c2,
       r1 ∈ RobotFactoryApp.robots self ->
       r2 ∈ RobotFactoryApp.robots self ->
       r1 <> r2 ->
       heap w !! r1 = Some (ORobot v1 n1 c1) ->
       heap w !! r2 = Some (ORobot v2 n2 c2) ->
       c1 <> c2.
Proof.
  intros Hreach.
  pose proof (reachable_inv _ _ Hreach) as (_ & _ & _ & Hnd & _ & Hun & _).
  split; [exact Hnd|].
  intros r1 r2 v1 n1 c1 v2 n2 c2 H1 H2 Hne G1 G2 ->.
  apply Hne. by eapply (Hun r1 r2).
Qed.

Lemma robots_never_share_witness :
  NoDup (RobotFactoryApp.robots demo.1)
  /\ forall r1 r2 v1 n1 c1 v2 n2 c2,
       r1 ∈ RobotFactoryApp.robots demo.1 ->
       r2 ∈ RobotFactoryApp.robots demo.1 ->
       r1 <> r2 ->
       heap demo.2 !! r1 = Some (ORobot v1 n1 c1) ->
       heap demo.2 !! r2 = Some (ORobot v2 n2 c2) ->
       c1 <> c2.
Proof. exact (robots_never_share demo.1 demo.2 demo_reachable). Defined.

(** X4. In every state of the running application the last robot is the
    newest entry of the collection, and there is none exactly when the
    collection is empty; editing an older robot does not change it. *)
Theorem last_robot_newest self w :
  reachable self w ->
  RobotFactoryApp.last_robot self = last (RobotFactoryApp.robots self).
Proof.
  intros Hreach.
  by pose proof (reachable_inv _ _ Hreach) as (_ & _ & _ & _ & _ & _ & H & _).
Qed.

Lemma last_robot_newest_witness :
  RobotFactoryApp.last_robot demo.1 = last (RobotFactoryApp.robots demo.1).
Proof. exact (last_robot_newest demo.1 demo.2 demo_reachable). Defined.

(** X5. In every state of the running application the list box is up to
    date: it holds one line per robot of the collection, in order, and each
    line is the [str] of that robot as it is now. *)
Theorem listbox_in_sync self w :
  reachable self w ->
  Forall2 (fun r line => str_of (heap w) r = Some line)
    (RobotFactoryApp.robots self) (robot_listbox w).
Proof.
  intros Hreach.
  pose proof (reachable_inv _ _ Hreach)
    as (_ & _ & _ & _ & Hsound & _ & _ & Hbox & _).
  rewrite Hbox. apply listing_lines.
  eapply Forall_impl; [exact Hsound|].
  intros r (v & name & c & a & Hr & Hc & _).
  exists [Lit (name ++ ": "); ReprDict a].
  apply (str_of_entity w r v a name). by exists c.
Qed.

Lemma listbox_in_sync_witness :
  Forall2 (fun r line => str_of (heap demo.2) r = Some line)
    (RobotFactoryApp.robots demo.1) (robot_listbox demo.2).
Proof. exact (listbox_in_sync demo.1 demo.2 demo_reachable). Defined.

(** X7. In every state of the running application the application's
    logger is the singleton instance with the log view as its callback, and
    the log view has received exactly the lines printed on standard output,
    in order, each followed by a newline. *)
Theorem log_view_mirrors_stdout self w :
  reachable self w ->
  _instance w = Some (RobotFactoryApp.logger self)
  /\ heap w !! RobotFactoryApp.logger self = Some (OLogger (Some update_log))
  /\ log_text w = map newline (stdout w).
Proof.
  intros Hreach.
  pose proof (reachable_inv _ _ Hreach) as (H1 & H2 & H3 & _).
  done.
Qed.

Lemma log_view_mirrors_stdout_witness :
  _instance demo.2 = Some (RobotFactoryApp.logger demo.1)
  /\ heap demo.2 !! RobotFactoryApp.logger demo.1
     = Some (OLogger (Some update_log))
  /\ log_text demo.2 = map newline (stdout demo.2).
Proof. exact (log_view_mirrors_stdout demo.1 demo.2 demo_reachable). Defined.

(** ** More on rendering *)

Lemma dict_get_agree (a b : gmap string string) k d :
  a !! k = b !! k -> dict_get a k d = dict_get b k d.
Proof. unfold dict_get. by intros ->. Qed.

Lemma render_agree v (a b : gmap string string) name :
  (forall k, k ∈ styling_keys -> a !! k = b !! k) ->
  Render.render v a name = Render.render v b name.
Proof.
  intros H.
  assert (Hk : forall k d, k ∈ styling_keys ->
                 Render.lowered a k d = Render.lowered b k d).
  { intros k d Hin. unfold Render.lowered.
    by rewrite (dict_get_agree a b k d (H k Hin)). }
  assert (He : dict_get a "eye_color" "black" = dict_get b "eye_color" "black").
  { apply dict_get_agree, H. unfold styling_keys. set_solver. }
  unfold Render.render, Render.humanoid_head, Render.humanoid_eyes,
    Render.humanoid_torso, Render.humanoid_arms, Render.humanoid_legs,
    Render.antenna, Render.heavy_head, Render.heavy_torso, Render.heavy_arms,
    Render.heavy_legs.
  rewrite He, !Hk by (unfold styling_keys; set_solver).
  reflexivity.
Qed.

(** X8. The picture depends on the six styling attributes only: two robots
    of one class and name whose attribute maps agree on head_style,
    eye_color, torso_style, arm_style, legs and antenna render to the same
    items and end the same way, whatever else the maps hold; both calls
    return when Tk takes the eye colour.  The catalog labels head, torso and
    limbs in particular never change the picture. *)
Theorem render_reads_styling_keys self1 self2 w1 w2 r1 r2 v a b name :
  (forall k, k ∈ styling_keys -> a !! k = b !! k) ->
  entity_at w1 r1 v a name ->
  entity_at w2 r2 v b name ->
  drawing self1 r1 w1 = drawing self2 r2 w2
  /\ (paintable v a = true ->
      exists cv, rendered self1 r1 w1 = Some cv /\ rendered self2 r2 w2 = Some cv).
Proof.
  intros H H1 H2.
  pose proof (render_agree v a b name H) as Hsame.
  split.
  - rewrite (drawing_paint self1 w1 r1 v a name H1).
    rewrite (drawing_paint self2 w2 r2 v b name H2). by rewrite Hsame.
  - intros Hp. exists (Render.render v a name).
    rewrite (rendered_paintable self1 w1 r1 v a name H1 Hp).
    rewrite (rendered_paintable self2 w2 r2 v b name H2), Hsame; [done|].
    destruct v; [|done..]. cbn [paintable] in *. unfold eye_color in *.
    rewrite <- (dict_get_agree a b "eye_color" "black"); [done|].
    apply H. unfold styling_keys. set_solver.
Qed.

Lemma render_reads_styling_keys_witness :
  drawing fresh_app 1%nat
    (world_of HeavyRobot (catalog mkHeavyPartFactory) "Atlas")
  = drawing fresh_app 1%nat (world_of HeavyRobot ∅ "Atlas")
  /\ (paintable HeavyRobot (catalog mkHeavyPartFactory) = true ->
      exists cv,
        rendered fresh_app 1%nat
          (world_of HeavyRobot (catalog mkHeavyPartFactory) "Atlas") = Some cv
        /\ rendered fresh_app 1%nat (world_of HeavyRobot ∅ "Atlas") = Some cv).
Proof.
  apply (render_reads_styling_keys fresh_app fresh_app _ _ 1%nat 1%nat
           HeavyRobot (catalog mkHeavyPartFactory) ∅ "Atlas").
  - intros k Hk. unfold styling_keys in Hk.
    repeat (apply elem_of_cons in Hk; destruct Hk as [->|Hk]; [reflexivity|]).
    by apply elem_of_nil in Hk.
  - exists 0%nat. split; reflexivity.
  - exists 0%nat. split; reflexivity.
Defined.

Lemma lowered_case (a : gmap string string) key v1 v2 k d :
  Str.lower v1 = Str.lower v2 ->
  Render.lowered (<[key:=v1]> a) k d = Render.lowered (<[key:=v2]> a) k d.
Proof.
  intros H. unfold Render.lowered, dict_get.
  destruct (decide (key = k)) as [->|Hne].
  - by rewrite !lookup_insert_eq.
  - by rewrite !lookup_insert_ne.
Qed.

Lemma render_case v (a : gmap string string) name key value1 value2 :
  key <> "eye_color" ->
  Str.lower value1 = Str.lower value2 ->
  Render.render v (<[key:=value1]> a) name
  = Render.render v (<[key:=value2]> a) name.
Proof.
  intros Hkey Hlow.
  unfold Render.render, Render.humanoid_head, Render.humanoid_eyes,
    Render.humanoid_torso, Render.humanoid_arms, Render.humanoid_legs,
    Render.antenna, Render.heavy_head, Render.heavy_torso, Render.heavy_arms,
    Render.heavy_legs.
  rewrite !(lowered_case a key value1 value2 _ _ Hlow).
  unfold dict_get. by rewrite !lookup_insert_ne.
Qed.

(** X9. Attribute values are compared without regard to letter case: for
    every key other than eye_color, two values that are equal once lowered
    give the same picture and the same end of the call.  (The eye colour is
    handed to the canvas as written.) *)
Theorem render_ignores_case self1 self2 w1 w2 r1 r2 v a name key value1 value2 :
  key <> "eye_color" ->
  Str.lower value1 = Str.lower value2 ->
  entity_at w1 r1 v (<[key:=value1]> a) name ->
  entity_at w2 r2 v (<[key:=value2]> a) name ->
  drawing self1 r1 w1 = drawing self2 r2 w2
  /\ (paintable v (<[key:=value1]> a) = true ->
      exists cv, rendered self1 r1 w1 = Some cv /\ rendered self2 r2 w2 = Some cv).
Proof.
  intros Hkey Hlow H1 H2.
  pose proof (render_case v a name key value1 value2 Hkey Hlow) as Hsame.
  split.
  - rewrite (drawing_paint self1 w1 r1 v _ name H1).
    rewrite (drawing_paint self2 w2 r2 v _ name H2). by rewrite Hsame.
  - intros Hp. exists (Render.render v (<[key:=value1]> a) name).
    rewrite (rendered_paintable self1 w1 r1 v _ name H1 Hp).
    rewrite (rendered_paintable self2 w2 r2 v _ name H2), Hsame; [done|].
    destruct v; [|done..]. cbn [paintable] in *.
    unfold eye_color, dict_get in *. by rewrite lookup_insert_ne in * by done.
Qed.

Lemma render_ignores_case_witness :
  drawing fresh_app 1%nat (world_of HumanoidRobot (<["legs":="WIDE"]> ∅) "Ada")
  = drawing fresh_app 1%nat (world_of HumanoidRobot (<["legs":="wide"]> ∅) "Ada")
  /\ (paintable HumanoidRobot (<["legs":="WIDE"]> ∅) = true ->
      exists cv,
        rendered fresh_app 1%nat
          (world_of HumanoidRobot (<["legs":="WIDE"]> ∅) "Ada") = Some cv
        /\ rendered fresh_app 1%nat
             (world_of HumanoidRobot (<["legs":="wide"]> ∅) "Ada") = Some cv).
Proof.
  apply (render_ignores_case fresh_app fresh_app _ _ 1%nat 1%nat HumanoidRobot
           ∅ "Ada" "legs" "WIDE" "wide").
  - discriminate.
  - reflexivity.
  - exists 0%nat. split; reflexivity.
  - exists 0%nat. split; reflexivity.
Defined.

Lemma entity_at_fun w r v a name v' a' name' :
  entity_at w r v a name -> entity_at w r v' a' name' ->
  v = v' /\ a = a' /\ name = name'.
Proof.
  intros (c & Hr & Hc) (c' & Hr' & Hc').
  same_obj Hr Hr'. same_obj Hc Hc'. done.
Qed.

Lemma acts_reachable self w self' w' :
  reachable self w -> acts self w self' w' -> reachable self' w'.
Proof.
  intros Hreach Hact.
  destruct Hact as [s|res self' w' Hrun|res self' w' Hrun|res self' w' Hrun
                    |r dlg res w' Hin Hfit Hrun].
  - by apply reach_type.
  - by eapply reach_humanoid.
  - by eapply reach_heavy.
  - by eapply reach_clone.
  - by eapply reach_apply.
Qed.

(** After a robot was appended, the only robot of the collection that is
    not as before is the new one. *)
Lemma appended_changed self w w2 v0 a0 n0 x v a name :
  Forall (robot_ok w) (RobotFactoryApp.robots self) ->
  heap w2 = ((heap w ++ [ODict a0]) ++ [ORobot v0 n0 (length (heap w))])%list ->
  x ∈ (RobotFactoryApp.robots self ++ [S (length (heap w))])%list ->
  entity_at w2 x v a name ->
  ~ (x ∈ RobotFactoryApp.robots self /\ entity_at w x v a name) ->
  v = v0 /\ a = a0 /\ name = n0.
Proof.
  intros Hok Hh Hx Hent Hnew. rewrite Forall_forall in Hok.
  apply elem_of_app in Hx as [Hx|Hx].
  - destruct (Hok x Hx) as (v1 & a1 & n1 & Hent1).
    assert (Hent2 : entity_at w2 x v1 a1 n1).
    { eapply entity_at_mono; [|exact Hent1].
      intros l o Hl. rewrite Hh. by apply lookup_snoc2_old. }
    destruct (entity_at_fun _ _ _ _ _ _ _ _ Hent Hent2) as (-> & -> & ->).
    by destruct Hnew.
  - apply list_elem_of_singleton in Hx as ->.
    apply (entity_at_fun w2 (S (length (heap w))) _ _ _ _ _ _ Hent).
    exists (length (heap w)). rewrite Hh. split.
    + apply lookup_snoc2_snd.
    + apply lookup_snoc2_fst.
Qed.

(** X6. No action adds or changes a robot without redrawing it: after any
    action, a robot of the collection that is new, or whose class, name or
    attributes are not what they were, is the robot on the canvas, and
    drawing it again would end the same way and leave the canvas as it is
    (the whole picture when Tk takes its eye colour, the head and one eye
    socket when Tk refuses it).  And in every state the canvas is empty as
    long as no robot was made, and afterwards it is what drawing the present
    state of some robot of the collection leaves. *)
Theorem canvas_never_stale self w :
  reachable self w ->
  (RobotFactoryApp.robots self = [] -> canvas w = [])
  /\ (RobotFactoryApp.robots self <> [] ->
      exists r v a name,
        r ∈ RobotFactoryApp.robots self /\ entity_at w r v a name
        /\ drawing self r w = (verdict v a, canvas w))
  /\ forall self' w' x v a name,
       acts self w self' w' ->
       x ∈ RobotFactoryApp.robots self' ->
       entity_at w' x v a name ->
       ~ (x ∈ RobotFactoryApp.robots self /\ entity_at w x v a name) ->
       canvas w' = drawn v a name
       /\ drawing self' x w' = (verdict v a, canvas w').
Proof.
  intros Hreach.
  pose proof (reachable_inv _ _ Hreach)
    as (Hi & Hlog & _ & _ & Hsound & Hun & Hlast & _ & Hempty & Hshown).
  split; [exact Hempty|]. split.
  { intros Hne. destruct (Hshown Hne) as (r & v & a & name & Hin & Hent & Hcv).
    exists r, v, a, name. split; [done|]. split; [done|].
    rewrite (drawing_paint self w r v a name Hent), Hcv.
    by rewrite paint_render. }
  pose proof (sound_all_ok _ _ Hsound) as Hok.
  assert (Hdone : forall self' w' x v a name,
             entity_at w' x v a name -> canvas w' = drawn v a name ->
             canvas w' = drawn v a name
             /\ drawing self' x w' = (verdict v a, canvas w')).
  { intros self' w' x v a name Hent Hcv. split; [done|].
    rewrite (drawing_paint self' w' x v a name Hent), Hcv.
    by rewrite paint_render. }
  assert (Hsame : forall w2 x v a name,
             heap w2 = heap w -> x ∈ RobotFactoryApp.robots self ->
             entity_at w2 x v a name ->
             ~ (x ∈ RobotFactoryApp.robots self /\ entity_at w x v a name) ->
             False).
  { intros w2 x v a name Hh Hx (c & Hr & Hc) Hnew. apply Hnew.
    split; [done|]. exists c. by rewrite <- Hh. }
  intros self' w' x v a name Hact Hx Hent Hnew.
  destruct Hact as [s|res self' w' Hrun|res self' w' Hrun|res self' w' Hrun
                    |r dlg res w' Hin Hfit Hrun].
  - by destruct (Hsame _ x v a name eq_refl Hx Hent Hnew).
  - destruct (create_humanoid_robot_effect self w _ Hi Hlog Hok)
      as (w'' & Hrun' & Hh & _ & _ & _ & _ & Hcv & _).
    rewrite Hrun in Hrun'. injection Hrun' as -> -> ->.
    destruct (appended_changed self w _ _ _ _ x v a name Hok Hh Hx Hent Hnew)
      as (-> & -> & ->).
    apply Hdone; [done|]. unfold drawn. by rewrite catalog_paintable.
  - destruct (create_heavy_robot_effect self w _ Hi Hlog Hok)
      as (w'' & Hrun' & Hh & _ & _ & _ & _ & Hcv & _).
    rewrite Hrun in Hrun'. injection Hrun' as -> -> ->.
    destruct (appended_changed self w _ _ _ _ x v a name Hok Hh Hx Hent Hnew)
      as (-> & -> & ->).
    apply Hdone; [done|]. unfold drawn. by rewrite catalog_paintable.
  - destruct (RobotFactoryApp.last_robot self) as [last|] eqn:Elast.
    + assert (Hin : last ∈ RobotFactoryApp.robots self)
        by (by apply last_Some_elem_of).
      rewrite Forall_forall in Hsound.
      destruct (Hsound last Hin) as (v1 & n1 & c1 & a1 & Hr & Hc & _).
      destruct (clone_robot_effect self w _ last v1 a1 n1 c1 Hlog Hok Elast Hr Hc)
        as (w'' & Hrun' & Hh & _ & _ & _ & _ & Hcv & _).
      rewrite Hrun in Hrun'. injection Hrun' as -> -> ->.
      destruct (appended_changed self w _ _ _ _ x v a name Hok Hh Hx Hent Hnew)
        as (-> & -> & ->).
      by apply Hdone.
    + unfold RobotFactoryApp.clone_robot in Hrun.
      rewrite get_self_run, Elast in Hrun.
      rewrite (lift_run _ _ _ _ _ (log_run _ _ _ _ Hlog)) in Hrun.
      injection Hrun as <- <- <-.
      by destruct (Hsame _ x v a name eq_refl Hx Hent Hnew).
  - rewrite Forall_forall in Hsound.
    destruct (Hsound r Hin) as (v1 & n1 & c1 & a1 & Hr & Hc & _).
    destruct (apply_changes_effect self w _ r v1 n1 c1 a1 dlg Hlog Hok Hr Hc)
      as (w'' & Hrun' & Hh & _ & _ & _ & _ & Hcv & _).
    { intros ->. by eapply Hfit. }
    rewrite Hrun in Hrun'. injection Hrun' as -> ->.
    unfold unshared, loc in *.
    assert (Hrc : r <> c1) by kind_clash Hr Hc.
    destruct (decide (x = r)) as [->|Hne].
    + assert (Hent' : entity_at w'' r v1 (applied v1 dlg a1) (renamed dlg n1)).
      { exists c1. rewrite Hh. split.
        - rewrite list_lookup_insert_ne by done.
          apply list_lookup_insert_eq. by eapply lookup_lt_Some.
        - apply list_lookup_insert_eq. rewrite length_insert.
          by eapply lookup_lt_Some. }
      destruct (entity_at_fun _ _ _ _ _ _ _ _ Hent Hent') as (-> & -> & ->).
      by apply Hdone.
    + destruct (Hsound x Hx) as (vx & nx & cx & ax & G1 & G2 & _).
      assert (Hxc : x <> c1) by kind_clash G1 Hc.
      assert (Hcr : cx <> r) by kind_clash G2 Hr.
      assert (Hcc : cx <> c1).
      { intros ->. apply Hne. by eapply (Hun x r). }
      assert (Hent' : entity_at w'' x vx ax nx).
      { exists cx. rewrite Hh. by rewrite !list_lookup_insert_ne. }
      destruct (entity_at_fun _ _ _ _ _ _ _ _ Hent Hent') as (-> & -> & ->).
      destruct Hnew. split; [done|]. by exists cx.
Qed.

Lemma canvas_never_stale_witness :
  (RobotFactoryApp.robots hazel.1 = [] -> canvas hazel.2 = [])
  /\ (RobotFactoryApp.robots hazel.1 <> [] ->
      exists r v a name,
        r ∈ RobotFactoryApp.robots hazel.1 /\ entity_at hazel.2 r v a name
        /\ drawing hazel.1 r hazel.2 = (verdict v a, canvas hazel.2))
  /\ forall self' w' x v a name,
       acts hazel.1 hazel.2 self' w' ->
       x ∈ RobotFactoryApp.robots self' ->
       entity_at w' x v a name ->
       ~ (x ∈ RobotFactoryApp.robots hazel.1 /\ entity_at hazel.2 x v a name) ->
       canvas w' = drawn v a name
       /\ drawing self' x w' = (verdict v a, canvas w').
Proof. exact (canvas_never_stale hazel.1 hazel.2 hazel_reachable). Defined.


Lemma build_write w (l r c : loc) cb v name a key label message :
  _instance w = Some l -> heap w !! l = Some (OLogger cb) ->
  heap w !! r = Some (ORobot v name c) -> heap w !! c = Some (ODict a) ->
  exists w',
    (components_set r key label ;; SingletonLogger.shared_log message) w
    = (Returns tt, w')
    /\ _instance w' = Some l /\ heap w' !! l = Some (OLogger cb)
    /\ heap w' !! r = Some (ORobot v name c)
    /\ heap w' !! c = Some (ODict (<[key:=label]> a)).
Proof.
  intros Hi Hl Hr Hc. unfold loc in *.
  destruct (write_effect cb w r v name c a key label Hr Hc)
    as (w1 & Hrun & (Hh & Hi1 & _) & Hr1 & Hc1).
  rewrite (bind_run _ _ _ _ _ Hrun).
  assert (Hl1 : heap w1 !! l = Some (OLogger cb)).
  { rewrite Hh, list_lookup_insert_ne; [done|]. kind_clash Hc Hl. }
  rewrite (shared_log_run w1 l cb message (eq_trans Hi1 Hi) Hl1).
  eexists. split; [reflexivity|]. split; [exact (eq_trans Hi1 Hi)|]. done.
Qed.

Lemma steps_lookup (labels a0 : gmap string string) steps k :
  (forall s, labels !! step_key s = Some (default "" (labels !! step_key s))) ->
  fold_left (fun acc s =>
               <[step_key s := default "" (labels !! step_key s)]> acc)
            steps a0 !! k
  = if step_done steps k then labels !! k else a0 !! k.
Proof.
  intros Hl. revert a0. induction steps as [|s steps IH]; intros a0; [done|].
  cbn [fold_left step_done existsb]. rewrite IH. fold (step_done steps k).
  destruct (String.eqb_spec (step_key s) k) as [<-|Hne]; cbn [orb].
  - rewrite lookup_insert_eq, <- Hl. by destruct (step_done steps (step_key s)).
  - by rewrite lookup_insert_ne.
Qed.

Lemma humanoid_steps_run (l r c : loc) cb v name steps :
  forall w a0,
    _instance w = Some l -> heap w !! l = Some (OLogger cb) ->
    heap w !! r = Some (ORobot v name c) -> heap w !! c = Some (ODict a0) ->
    exists w',
      for_ steps (run_step (HumanoidRobotBuilder.mk r mkHumanoidPartFactory)) w
      = (Returns tt, w')
      /\ entity_at w' r v
           (fold_left
              (fun acc s =>
                 <[step_key s
                   := default "" (catalog mkHumanoidPartFactory !! step_key s)]>
                   acc)
              steps a0) name.
Proof.
  induction steps as [|s steps IH]; intros w a0 Hi Hl Hr Hc.
  - exists w. split; [reflexivity|by exists c].
  - cbn [for_ fold_left].
    assert (H1 : exists w1,
               run_step (HumanoidRobotBuilder.mk r mkHumanoidPartFactory) s w
               = (Returns tt, w1)
               /\ _instance w1 = Some l /\ heap w1 !! l = Some (OLogger cb)
               /\ heap w1 !! r = Some (ORobot v name c)
               /\ heap w1 !! c
                  = Some (ODict
                            (<[step_key s
                               := default ""
                                    (catalog mkHumanoidPartFactory !! step_key s)]>
                               a0))).
    { destruct s; by eapply build_write. }
    destruct H1 as (w1 & Hrun & Hi1 & Hl1 & Hr1 & Hc1).
    rewrite (bind_run _ _ _ _ _ Hrun). by apply IH.
Qed.

Lemma heavy_steps_run (l r c : loc) cb v name steps :
  forall w a0,
    _instance w = Some l -> heap w !! l = Some (OLogger cb) ->
    heap w !! r = Some (ORobot v name c) -> heap w !! c = Some (ODict a0) ->
    exists w',
      for_ steps (run_step (HeavyRobotBuilder.mk r mkHeavyPartFactory)) w
      = (Returns tt, w')
      /\ entity_at w' r v
           (fold_left
              (fun acc s =>
                 <[step_key s
                   := default "" (catalog mkHeavyPartFactory !! step_key s)]>
                   acc)
              steps a0) name.
Proof.
  induction steps as [|s steps IH]; intros w a0 Hi Hl Hr Hc.
  - exists w. split; [reflexivity|by exists c].
  - cbn [for_ fold_left].
    assert (H1 : exists w1,
               run_step (HeavyRobotBuilder.mk r mkHeavyPartFactory) s w
               = (Returns tt, w1)
               /\ _instance w1 = Some l /\ heap w1 !! l = Some (OLogger cb)
               /\ heap w1 !! r = Some (ORobot v name c)
               /\ heap w1 !! c
                  = Some (ODict
                            (<[step_key s
                               := default ""
                                    (catalog mkHeavyPartFactory !! step_key s)]>
                               a0))).
    { destruct s; by eapply build_write. }
    destruct H1 as (w1 & Hrun & Hi1 & Hl1 & Hr1 & Hc1).
    rewrite (bind_run _ _ _ _ _ Hrun). by apply IH.
Qed.

(** X10. The result of a builder depends only on which steps were run, not
    on their order or on repetitions: after any sequence of build steps the
    robot's attribute map holds the catalog label under the key of every
    step that occurred and is as before under every other key; the robot
    keeps its class and name, and no step raises.  A partial build is
    therefore a robot with fewer labels. *)
Theorem build_steps_commute (l r c : loc) cb v name a0 steps w :
  _instance w = Some l -> heap w !! l = Some (OLogger cb) ->
  heap w !! r = Some (ORobot v name c) -> heap w !! c = Some (ODict a0) ->
  (exists w' a,
      for_ steps (run_step (HumanoidRobotBuilder.mk r mkHumanoidPartFactory)) w
      = (Returns tt, w')
      /\ entity_at w' r v a name
      /\ forall k, a !! k = if step_done steps k
                            then catalog mkHumanoidPartFactory !! k
                            else a0 !! k)
  /\ (exists w' a,
         for_ steps (run_step (HeavyRobotBuilder.mk r mkHeavyPartFactory)) w
         = (Returns tt, w')
         /\ entity_at w' r v a name
         /\ forall k, a !! k = if step_done steps k
                               then catalog mkHeavyPartFactory !! k
                               else a0 !! k).
Proof.
  intros Hi Hl Hr Hc. split.
  - destruct (humanoid_steps_run l r c cb v name steps w a0 Hi Hl Hr Hc)
      as (w' & Hrun & Hent).
    eexists w', _. split; [exact Hrun|]. split; [exact Hent|].
    intros k. apply steps_lookup. by intros [].
  - destruct (heavy_steps_run l r c cb v name steps w a0 Hi Hl Hr Hc)
      as (w' & Hrun & Hent).
    eexists w', _. split; [exact Hrun|]. split; [exact Hent|].
    intros k. apply steps_lookup. by intros [].
Qed.

Lemma build_steps_commute_witness :
  (exists w' a,
      for_ [StepLimbs; StepHead; StepLimbs]
        (run_step (HumanoidRobotBuilder.mk 2%nat mkHumanoidPartFactory))
        (mkWorld [OLogger None; ODict ∅; ORobot HumanoidRobot "Ada" 1%nat]
           (Some 0%nat) [] [] [] [] "")
      = (Returns tt, w')
      /\ entity_at w' 2%nat HumanoidRobot a "Ada"
      /\ forall k, a !! k = if step_done [StepLimbs; StepHead; StepLimbs] k
                            then catalog mkHumanoidPartFactory !! k
                            else (∅ : gmap string string) !! k)
  /\ (exists w' a,
         for_ [StepLimbs; StepHead; StepLimbs]
           (run_step (HeavyRobotBuilder.mk 2%nat mkHeavyPartFactory))
           (mkWorld [OLogger None; ODict ∅; ORobot HumanoidRobot "Ada" 1%nat]
              (Some 0%nat) [] [] [] [] "")
         = (Returns tt, w')
         /\ entity_at w' 2%nat HumanoidRobot a "Ada"
         /\ forall k, a !! k = if step_done [StepLimbs; StepHead; StepLimbs] k
                               then catalog mkHeavyPartFactory !! k
                               else (∅ : gmap string string) !! k).
Proof.
  apply (build_steps_commute 0%nat 2%nat 1%nat None HumanoidRobot "Ada" ∅
           [StepLimbs; StepHead; StepLimbs]
           (mkWorld [OLogger None; ODict ∅; ORobot HumanoidRobot "Ada" 1%nat]
              (Some 0%nat) [] [] [] [] "")); reflexivity.
Defined.

(** ** More on the actions *)

(** X11. A create action returns and prints exactly seven lines, in this
    order: the factory's "Creating", the builder's and the director's
    "initialized", "Built" for head, torso and limbs in the director's
    order, and the action's "Created" with the robot's name and attribute
    map. *)
Theorem create_prints_seven_lines self w :
  reachable self w ->
  (exists self' w',
      RobotFactoryApp.create_humanoid_robot (self, w) = (Returns tt, (self', w'))
      /\ stdout w'
         = (stdout w
            ++ [[Lit ("[LOG]: Creating Humanoid Robot: "
                      ++ chosen_name "Humanoid" self w)];
                [Lit "[LOG]: HumanoidRobotBuilder initialized"];
                [Lit "[LOG]: RobotDirector initialized"];
                [Lit "[LOG]: Built humanoid head"];
                [Lit "[LOG]: Built humanoid torso"];
                [Lit "[LOG]: Built humanoid limbs"];
                [Lit ("[LOG]: Created humanoid robot: "
                      ++ chosen_name "Humanoid" self w ++ ": ");
                 ReprDict (catalog mkHumanoidPartFactory)]])%list)
  /\ (exists self' w',
         RobotFactoryApp.create_heavy_robot (self, w) = (Returns tt, (self', w'))
         /\ stdout w'
            = (stdout w
               ++ [[Lit ("[LOG]: Creating Heavy Robot: "
                         ++ chosen_name "Heavy" self w)];
                   [Lit "[LOG]: HeavyRobotBuilder initialized"];
                   [Lit "[LOG]: RobotDirector initialized"];
                   [Lit "[LOG]: Built heavy robot head"];
                   [Lit "[LOG]: Built heavy robot torso"];
                   [Lit "[LOG]: Built heavy robot limbs"];
                   [Lit ("[LOG]: Created heavy robot: "
                         ++ chosen_name "Heavy" self w ++ ": ");
                    ReprDict (catalog mkHeavyPartFactory)]])%list).
Proof.
  intros Hreach.
  pose proof (reachable_inv _ _ Hreach) as (Hi & Hlog & _ & _ & Hsound & _).
  pose proof (sound_all_ok _ _ Hsound) as Hok.
  split.
  - destruct (create_humanoid_robot_effect self w _ Hi Hlog Hok)
      as (w' & Hrun & _ & _ & Hout & _).
    eexists _, w'. split; [exact Hrun|exact Hout].
  - destruct (create_heavy_robot_effect self w _ Hi Hlog Hok)
      as (w' & Hrun & _ & _ & Hout & _).
    eexists _, w'. split; [exact Hrun|exact Hout].
Qed.

Lemma create_prints_seven_lines_witness :
  (exists self' w',
      RobotFactoryApp.create_humanoid_robot (fresh_app, running_world "Ada")
      = (Returns tt, (self', w'))
      /\ stdout w'
         = (stdout (running_world "Ada")
            ++ [[Lit "[LOG]: Creating Humanoid Robot: Ada"];
                [Lit "[LOG]: HumanoidRobotBuilder initialized"];
                [Lit "[LOG]: RobotDirector initialized"];
                [Lit "[LOG]: Built humanoid head"];
                [Lit "[LOG]: Built humanoid torso"];
                [Lit "[LOG]: Built humanoid limbs"];
                [Lit "[LOG]: Created humanoid robot: Ada: ";
                 ReprDict (catalog mkHumanoidPartFactory)]])%list)
  /\ (exists self' w',
         RobotFactoryApp.create_heavy_robot (fresh_app, running_world "Ada")
         = (Returns tt, (self', w'))
         /\ stdout w'
            = (stdout (running_world "Ada")
               ++ [[Lit "[LOG]: Creating Heavy Robot: Ada"];
                   [Lit "[LOG]: HeavyRobotBuilder initialized"];
                   [Lit "[LOG]: RobotDirector initialized"];
                   [Lit "[LOG]: Built heavy robot head"];
                   [Lit "[LOG]: Built heavy robot torso"];
                   [Lit "[LOG]: Built heavy robot limbs"];
                   [Lit "[LOG]: Created heavy robot: Ada: ";
                    ReprDict (catalog mkHeavyPartFactory)]])%list).
Proof.
  apply (create_prints_seven_lines fresh_app (running_world "Ada")).
  apply (reach_start "Ada"). reflexivity.
Defined.

(** X12. "Apply Changes" on a robot of the collection gives that robot the
    dialog's values under antenna, legs, head_style, torso_style and
    arm_style, and under eye_color if it is humanoid, keeping every other
    attribute; it renames the robot to the trimmed name entered unless that
    is empty; it leaves every other robot of the collection exactly as it
    was, prints one "Modified cloned robot" line and lists the robots anew.
    Then it draws the edited robot.  When Tk takes the robot's eye colour
    the call returns with the whole picture on the canvas.  When Tk refuses
    it (as it does the dialog's own option "Hazel") the call raises
    [TclError] for that colour with the head and the socket of one eye on
    the canvas, the values stored, printed and listed all the same. *)
Theorem apply_changes_result self w r dlg v a name :
  reachable self w ->
  r ∈ RobotFactoryApp.robots self ->
  entity_at w r v a name ->
  dialog_fits w r dlg ->
  exists w',
    RobotFactoryApp.apply_changes self r dlg w
    = (if paintable v (applied v dlg a) then Returns tt
       else Raises (TclError (eye_color (applied v dlg a))), w')
    /\ entity_at w' r v (applied v dlg a) (renamed dlg name)
    /\ (forall x vx ax nx,
          x ∈ RobotFactoryApp.robots self -> x <> r ->
          entity_at w x vx ax nx -> entity_at w' x vx ax nx)
    /\ stdout w'
       = (stdout w
          ++ [[Lit ("[LOG]: Modified cloned robot: " ++ renamed dlg name ++ ": ");
               ReprDict (applied v dlg a)]])%list
    /\ robot_listbox w' = listing (heap w') (RobotFactoryApp.robots self)
    /\ canvas w'
       = (if paintable v (applied v dlg a)
          then Render.render v (applied v dlg a) (renamed dlg name)
          else Render.humanoid_head (applied v dlg a)
               ++ [Render.eye_socket 185])%list.
Proof.
  intros Hreach Hin (c & Hr & Hc) Hfit.
  pose proof (reachable_inv _ _ Hreach)
    as (_ & Hlog & _ & _ & Hsound & Hun & _).
  pose proof (sound_all_ok _ _ Hsound) as Hok.
  destruct (apply_changes_effect self w _ r v name c a dlg Hlog Hok Hr Hc)
    as (w' & Hrun & Hh & _ & Hout & _ & Hbox & Hcv & _).
  { intros ->. by eapply Hfit. }
  unfold unshared, entity_at, loc in *.
  assert (Hrc : r <> c) by kind_clash Hr Hc.
  exists w'. split; [exact Hrun|].
  split; [|split; [|split; [exact Hout|split; [by rewrite Hh|exact Hcv]]]].
  - exists c. rewrite Hh. split.
    + rewrite list_lookup_insert_ne by done.
      apply list_lookup_insert_eq. by eapply lookup_lt_Some.
    + apply list_lookup_insert_eq. rewrite length_insert.
      by eapply lookup_lt_Some.
  - intros x vx ax nx Hx Hne (cx & G1 & G2).
    assert (Hxc : x <> c) by kind_clash G1 Hc.
    assert (Hcr : cx <> r) by kind_clash G2 Hr.
    assert (Hcc : cx <> c).
    { intros ->. apply Hne. by eapply (Hun x r). }
    exists cx. rewrite Hh. by rewrite !list_lookup_insert_ne.
Qed.

Lemma apply_changes_result_witness :
  (exists w',
      RobotFactoryApp.apply_changes demo.1 4%nat
        (RobotFactoryApp.mkEditDialog "  " "Large" "Wide" "Oval" "Standard"
           "Standard" (Some "Blue")) demo.2
      = (Returns tt, w')
      /\ entity_at w' 4%nat HumanoidRobot
           (applied HumanoidRobot
              (RobotFactoryApp.mkEditDialog "  " "Large" "Wide" "Oval"
                 "Standard" "Standard" (Some "Blue"))
              (catalog mkHumanoidPartFactory))
           "Ada_clone"
      /\ (forall x vx ax nx,
            x ∈ RobotFactoryApp.robots demo.1 -> x <> 4%nat ->
            entity_at demo.2 x vx ax nx -> entity_at w' x vx ax nx)
      /\ stdout w'
         = (stdout demo.2
            ++ [[Lit "[LOG]: Modified cloned robot: Ada_clone: ";
                 ReprDict
                   (applied HumanoidRobot
                      (RobotFactoryApp.mkEditDialog "  " "Large" "Wide" "Oval"
                         "Standard" "Standard" (Some "Blue"))
                      (catalog mkHumanoidPartFactory))]])%list
      /\ robot_listbox w' = listing (heap w') (RobotFactoryApp.robots demo.1)
      /\ canvas w'
         = Render.render HumanoidRobot
             (applied HumanoidRobot
                (RobotFactoryApp.mkEditDialog "  " "Large" "Wide" "Oval"
                   "Standard" "Standard" (Some "Blue"))
                (catalog mkHumanoidPartFactory))
             "Ada_clone")
  /\ (exists w',
         RobotFactoryApp.apply_changes demo.1 4%nat hazel_dialog demo.2
         = (Raises (TclError "Hazel"), w')
         /\ entity_at w' 4%nat HumanoidRobot
              (applied HumanoidRobot hazel_dialog (catalog mkHumanoidPartFactory))
              "Ada_clone"
         /\ (forall x vx ax nx,
               x ∈ RobotFactoryApp.robots demo.1 -> x <> 4%nat ->
               entity_at demo.2 x vx ax nx -> entity_at w' x vx ax nx)
         /\ stdout w'
            = (stdout demo.2
               ++ [[Lit "[LOG]: Modified cloned robot: Ada_clone: ";
                    ReprDict
                      (applied HumanoidRobot hazel_dialog
                         (catalog mkHumanoidPartFactory))]])%list
         /\ robot_listbox w' = listing (heap w') (RobotFactoryApp.robots demo.1)
         /\ canvas w'
            = (Render.humanoid_head
                 (applied HumanoidRobot hazel_dialog
                    (catalog mkHumanoidPartFactory))
               ++ [Render.eye_socket 185])%list).
Proof.
  split.
  - apply (apply_changes_result demo.1 demo.2 4%nat
             (RobotFactoryApp.mkEditDialog "  " "Large" "Wide" "Oval" "Standard"
                "Standard" (Some "Blue"))
             HumanoidRobot (catalog mkHumanoidPartFactory) "Ada_clone"
             demo_reachable).
    + vm_compute. apply list_elem_of_In. right. left. reflexivity.
    + exists 3%nat. split; vm_compute; reflexivity.
    + intros name c _. eexists. reflexivity.
  - apply (apply_changes_result demo.1 demo.2 4%nat hazel_dialog
             HumanoidRobot (catalog mkHumanoidPartFactory) "Ada_clone"
             demo_reachable).
    + vm_compute. apply list_elem_of_In. right. left. reflexivity.
    + exists 3%nat. split; vm_compute; reflexivity.
    + intros name c _. eexists. reflexivity.
Defined.


Lemma open_edit_dialog_explicit self w r v a name :
  entity_at w r v a name ->
  RobotFactoryApp.open_edit_dialog self r w = (Returns (dialog_of v a name), w).
Proof.
  intros (c & Hr & Hc). unfold RobotFactoryApp.open_edit_dialog.
  rewrite (bind_run _ _ _ _ _ (deref_run _ _ _ Hr)).
  rewrite (bind_run _ _ _ _ _ (name_of_run _ _ _ _ _ Hr)).
  do 5 (erewrite bind_run by (eapply components_get_run; eassumption)).
  destruct v; cbn [isinstance].
  - erewrite bind_run by (eapply components_get_run; eassumption).
    reflexivity.
  - reflexivity.
  - reflexivity.
Qed.

(** The renderer only looks at six attributes, each with its default. *)
Lemma render_by_gets v (a b : gmap string string) name :
  dict_get a "head_style"
    (match v with HumanoidRobot => "Oval" | _ => "Rectangle" end)
  = dict_get b "head_style"
      (match v with HumanoidRobot => "Oval" | _ => "Rectangle" end) ->
  (v = HumanoidRobot ->
   dict_get a "eye_color" "black" = dict_get b "eye_color" "black") ->
  dict_get a "torso_style" "Standard" = dict_get b "torso_style" "Standard" ->
  dict_get a "arm_style" "Standard" = dict_get b "arm_style" "Standard" ->
  dict_get a "legs" "Standard" = dict_get b "legs" "Standard" ->
  dict_get a "antenna" "None" = dict_get b "antenna" "None" ->
  Render.render v a name = Render.render v b name.
Proof.
  intros Hh He Ht Ha Hl Hn.
  unfold Render.render, Render.humanoid_head, Render.humanoid_eyes,
    Render.humanoid_torso, Render.humanoid_arms, Render.humanoid_legs,
    Render.antenna, Render.heavy_head, Render.heavy_torso, Render.heavy_arms,
    Render.heavy_legs, Render.lowered.
  destruct v; [rewrite (He eq_refl)| |reflexivity];
    by rewrite Hh, Ht, Ha, Hl, Hn.
Qed.

Ltac get_applied :=
  unfold applied, dialog_of;
  cbn [RobotFactoryApp.name_var RobotFactoryApp.antenna_var
       RobotFactoryApp.legs_var RobotFactoryApp.head_var
       RobotFactoryApp.torso_var RobotFactoryApp.arm_var
       RobotFactoryApp.eye_var RobotFactoryApp.head_options hd];
  unfold dict_get at 1;
  rewrite !lookup_insert; repeat case_decide; try discriminate.

(** What the renderer reads from that map is what it read before, given
    that a humanoid robot has its eye colour set. *)
Lemma render_dialog_of v (a : gmap string string) name :
  (v = HumanoidRobot -> is_Some (a !! "eye_color")) ->
  Render.render v (applied v (dialog_of v a name) a) name
  = Render.render v a name.
Proof.
  intros Heye. destruct v; [| |reflexivity].
  - destruct (Heye eq_refl) as [eye He].
    apply render_by_gets; try intros _; get_applied; try reflexivity.
    unfold dict_get. by rewrite He.
  - apply render_by_gets; try discriminate; get_applied; reflexivity.
Qed.

Lemma renamed_dialog_of v a name :
  Str.strip name = name -> renamed (dialog_of v a name) name = name.
Proof.
  intros H. unfold renamed, dialog_of. cbn [RobotFactoryApp.name_var].
  rewrite H. by destruct (String.eqb name "").
Qed.

(** The attribute map after an unedited dialog is applied: the map as it
    was, with the dialog's defaults under the keys it did not have. *)
Lemma applied_dialog_of v (a : gmap string string) name :
  applied v (dialog_of v a name) a = a ∪ dialog_defaults v.
Proof.
  apply map_eq. intros k. rewrite lookup_union.
  unfold applied, dialog_of, dialog_defaults, dict_get.
  cbn [RobotFactoryApp.name_var RobotFactoryApp.antenna_var
       RobotFactoryApp.legs_var RobotFactoryApp.head_var
       RobotFactoryApp.torso_var RobotFactoryApp.arm_var
       RobotFactoryApp.eye_var RobotFactoryApp.head_options hd].
  destruct v; rewrite !lookup_insert; repeat case_decide; simplify_eq;
    rewrite ?lookup_empty;
    repeat match goal with
           | |- context [a !! ?key] => destruct (a !! key)
           end; reflexivity.
Qed.

(** X13. Opening the edit dialog for a robot and applying it untouched
    changes nothing one can see: the robot keeps its name (a name without
    surrounding blanks); its attribute map afterwards is exactly the old one
    with the defaults the dialog showed written down under the keys the
    robot did not have, no attribute it had changes and no other key
    appears; the call ends as a redraw of the robot would have ended before,
    with the same items on the canvas.  For a humanoid robot this needs the
    eye colour to be set: the dialog's default "Black" is not the renderer's
    default "black".  When the colour that is set is one Tk refuses (the
    dialog's "Hazel"), both the redraw and "Apply Changes" raise. *)
Theorem dialog_round_trip self w r v a name :
  reachable self w ->
  r ∈ RobotFactoryApp.robots self ->
  entity_at w r v a name ->
  Str.strip name = name ->
  (v = HumanoidRobot -> is_Some (a !! "eye_color")) ->
  exists dlg res w',
    RobotFactoryApp.open_edit_dialog self r w = (Returns dlg, w)
    /\ RobotFactoryApp.apply_changes self r dlg w = (res, w')
    /\ entity_at w' r v (a ∪ dialog_defaults v) name
    /\ drawing self r w = (res, canvas w')
    /\ res = (if tk.accepts (dict_get a "eye_color" "black") then Returns tt
              else match v with
                   | HumanoidRobot =>
                       Raises (TclError (dict_get a "eye_color" "black"))
                   | _ => Returns tt
                   end).
Proof.
  intros Hreach Hin Hent Hname Heye.
  pose proof Hent as (c & Hr & Hc).
  pose proof (reachable_inv _ _ Hreach) as (_ & Hlog & _ & _ & Hsound & _).
  pose proof (sound_all_ok _ _ Hsound) as Hok.
  destruct (apply_changes_effect self w _ r v name c a (dialog_of v a name)
              Hlog Hok Hr Hc) as (w' & Hrun & Hh & _ & _ & _ & _ & Hcv & _).
  { intros ->. by eexists. }
  rewrite (renamed_dialog_of v a name Hname) in Hh, Hcv.
  assert (Hsame : Render.paint
                    (Render.render v (applied v (dialog_of v a name) a) name)
                  = Render.paint (Render.render v a name))
    by (by rewrite (render_dialog_of v a name Heye)).
  rewrite !paint_render in Hsame. injection Hsame as Hres Hdrawn.
  rewrite Hres in Hrun. rewrite Hdrawn in Hcv.
  rewrite (applied_dialog_of v a name) in Hh.
  exists (dialog_of v a name), (verdict v a), w'.
  split; [by apply open_edit_dialog_explicit|]. split; [exact Hrun|].
  unfold entity_at, loc in *.
  assert (Hrc : r <> c) by kind_clash Hr Hc.
  split; [|split].
  - exists c. rewrite Hh. split.
    + rewrite list_lookup_insert_ne by done.
      apply list_lookup_insert_eq. by eapply lookup_lt_Some.
    + apply list_lookup_insert_eq. rewrite length_insert.
      by eapply lookup_lt_Some.
  - rewrite (drawing_paint self w r v a name Hent), paint_render.
    by rewrite Hcv.
  - unfold verdict, paintable, eye_color. destruct v; [done| |];
      by destruct (tk.accepts _).
Qed.

Lemma atlas_reachable : reachable atlas.1 atlas.2.
Proof.
  apply (reach_heavy fresh_app (running_world "Atlas") (Returns tt)
           atlas.1 atlas.2).
  - apply (reach_start "Atlas"). reflexivity.
  - vm_compute. reflexivity.
Defined.

Lemma dialog_round_trip_witness :
  (exists dlg res w',
      RobotFactoryApp.open_edit_dialog atlas.1 2%nat atlas.2
      = (Returns dlg, atlas.2)
      /\ RobotFactoryApp.apply_changes atlas.1 2%nat dlg atlas.2 = (res, w')
      /\ entity_at w' 2%nat HeavyRobot
           (catalog mkHeavyPartFactory ∪ dialog_defaults HeavyRobot) "Atlas"
      /\ drawing atlas.1 2%nat atlas.2 = (res, canvas w')
      /\ res = Returns tt)
  /\ (exists dlg res w',
         RobotFactoryApp.open_edit_dialog hazel.1 4%nat hazel.2
         = (Returns dlg, hazel.2)
         /\ RobotFactoryApp.apply_changes hazel.1 4%nat dlg hazel.2 = (res, w')
         /\ entity_at w' 4%nat HumanoidRobot
              (applied HumanoidRobot hazel_dialog (catalog mkHumanoidPartFactory)
               ∪ dialog_defaults HumanoidRobot) "Ada_clone"
         /\ drawing hazel.1 4%nat hazel.2 = (res, canvas w')
         /\ res = Raises (TclError "Hazel")).
Proof.
  split.
  - apply (dialog_round_trip atlas.1 atlas.2 2%nat HeavyRobot
             (catalog mkHeavyPartFactory) "Atlas" atlas_reachable).
    + vm_compute. apply list_elem_of_In. left. reflexivity.
    + exists 1%nat. split; vm_compute; reflexivity.
    + reflexivity.
    + discriminate.
  - apply (dialog_round_trip hazel.1 hazel.2 4%nat HumanoidRobot
             (applied HumanoidRobot hazel_dialog (catalog mkHumanoidPartFactory))
             "Ada_clone" hazel_reachable).
    + vm_compute. apply list_elem_of_In. right. left. reflexivity.
    + exists 3%nat. split; vm_compute; reflexivity.
    + reflexivity.
    + intros _. exists "Hazel". reflexivity.
Defined.

(** X14. A logger made before the application starts keeps its callback:
    if some earlier [SingletonLogger()] created the instance without one,
    [__init__] gets that same instance, the callback it passes is dropped,
    and from then on lines are printed on standard output only: the start
    line and then the seven lines of a create action appear there, while the
    log view stays as it was through the start and through the action. *)
Theorem early_logger_stays_silent w (l : loc) :
  _instance w = Some l ->
  heap w !! l = Some (OLogger None) ->
  exists self w',
    RobotFactoryApp.__init__ w = (Returns self, w')
    /\ RobotFactoryApp.logger self = l
    /\ RobotFactoryApp.robots self = []
    /\ heap w' = heap w
    /\ stdout w' = (stdout w ++ [[Lit "[LOG]: Application started"]])%list
    /\ log_text w' = log_text w
    /\ exists self2 w2,
         RobotFactoryApp.create_humanoid_robot (self, w')
         = (Returns tt, (self2, w2))
         /\ log_text w2 = log_text w
         /\ stdout w2
            = (stdout w
               ++ [[Lit "[LOG]: Application started"];
                   [Lit ("[LOG]: Creating Humanoid Robot: "
                         ++ chosen_name "Humanoid" self w)];
                   [Lit "[LOG]: HumanoidRobotBuilder initialized"];
                   [Lit "[LOG]: RobotDirector initialized"];
                   [Lit "[LOG]: Built humanoid head"];
                   [Lit "[LOG]: Built humanoid torso"];
                   [Lit "[LOG]: Built humanoid limbs"];
                   [Lit ("[LOG]: Created humanoid robot: "
                         ++ chosen_name "Humanoid" self w ++ ": ");
                    ReprDict (catalog mkHumanoidPartFactory)]])%list.
Proof.
  intros Hi Hl. unfold RobotFactoryApp.__init__.
  rewrite (bind_run _ _ _ _ _ (new_run_bound _ _ (Some update_log) Hi)).
  rewrite (bind_run _ _ _ _ _ (log_run _ _ _ _ Hl)).
  set (self := RobotFactoryApp.mk l _ _ _ _).
  set (w' := logged None _ w).
  exists self, w'. split; [reflexivity|].
  split; [reflexivity|]. split; [reflexivity|]. split; [reflexivity|].
  split; [reflexivity|]. split; [reflexivity|].
  destruct (create_humanoid_robot_effect self w' None Hi Hl ltac:(constructor))
    as (w2 & Hrun & _ & _ & Hout & Htxt & _).
  eexists _, w2. split; [exact Hrun|]. split.
  - rewrite Htxt. unfold echoed. by rewrite app_nil_r.
  - rewrite Hout. change (stdout w')
      with (stdout w ++ [[Lit "[LOG]: Application started"]])%list.
    by rewrite <- app_assoc.
Qed.

Lemma early_logger_stays_silent_witness :
  exists self w',
    RobotFactoryApp.__init__ (mkWorld [OLogger None] (Some 0%nat) [] [] [] [] "")
    = (Returns self, w')
    /\ RobotFactoryApp.logger self = 0%nat
    /\ RobotFactoryApp.robots self = []
    /\ heap w' = heap (mkWorld [OLogger None] (Some 0%nat) [] [] [] [] "")
    /\ stdout w'
       = (stdout (mkWorld [OLogger None] (Some 0%nat) [] [] [] [] "")
          ++ [[Lit "[LOG]: Application started"]])%list
    /\ log_text w' = log_text (mkWorld [OLogger None] (Some 0%nat) [] [] [] [] "")
    /\ exists self2 w2,
         RobotFactoryApp.create_humanoid_robot (self, w')
         = (Returns tt, (self2, w2))
         /\ log_text w2
            = log_text (mkWorld [OLogger None] (Some 0%nat) [] [] [] [] "")
         /\ stdout w2
            = (stdout (mkWorld [OLogger None] (Some 0%nat) [] [] [] [] "")
               ++ [[Lit "[LOG]: Application started"];
                   [Lit ("[LOG]: Creating Humanoid Robot: "
                         ++ chosen_name "Humanoid" self
                              (mkWorld [OLogger None] (Some 0%nat) [] [] [] [] ""))];
                   [Lit "[LOG]: HumanoidRobotBuilder initialized"];
                   [Lit "[LOG]: RobotDirector initialized"];
                   [Lit "[LOG]: Built humanoid head"];
                   [Lit "[LOG]: Built humanoid torso"];
                   [Lit "[LOG]: Built humanoid limbs"];
                   [Lit ("[LOG]: Created humanoid robot: "
                         ++ chosen_name "Humanoid" self
                              (mkWorld [OLogger None] (Some 0%nat) [] [] [] [] "")
                         ++ ": ");
                    ReprDict (catalog mkHumanoidPartFactory)]])%list.
Proof.
  apply (early_logger_stays_silent
           (mkWorld [OLogger None] (Some 0%nat) [] [] [] [] "") 0%nat);
    reflexivity.
Defined.

(** X15. No action removes, reorders or replaces a robot: after any action
    the collection is the old one, with at most one robot appended, and
    every robot that was in it is still of the same class and still refers
    to the same components dict (only its name may differ, after "Apply
    Changes"); the application keeps its logger. *)
Theorem robots_never_removed self w self' w' :
  reachable self w ->
  acts self w self' w' ->
  RobotFactoryApp.robots self `prefix_of` RobotFactoryApp.robots self'
  /\ (length (RobotFactoryApp.robots self')
      <= length (RobotFactoryApp.robots self) + 1)%nat
  /\ RobotFactoryApp.logger self' = RobotFactoryApp.logger self
  /\ forall r v name c,
       r ∈ RobotFactoryApp.robots self ->
       heap w !! r = Some (ORobot v name c) ->
       exists name', heap w' !! r = Some (ORobot v name' c).
Proof.
  intros Hreach Hact.
  pose proof (reachable_inv _ _ Hreach)
    as (Hi & Hlog & _ & _ & Hsound & _ & Hlast & _).
  pose proof (sound_all_ok _ _ Hsound) as Hok.
  rewrite Forall_forall in Hsound.
  assert (Happend : forall w2 x v0 n0,
             heap w2 = ((heap w ++ [x]) ++ [ORobot v0 n0 (length (heap w))])%list ->
             RobotFactoryApp.robots self
               `prefix_of` RobotFactoryApp.robots (recorded (S (length (heap w))) self)
             /\ (length (RobotFactoryApp.robots (recorded (S (length (heap w))) self))
                 <= length (RobotFactoryApp.robots self) + 1)%nat
             /\ RobotFactoryApp.logger (recorded (S (length (heap w))) self)
                = RobotFactoryApp.logger self
             /\ forall r v name c,
                  r ∈ RobotFactoryApp.robots self ->
                  heap w !! r = Some (ORobot v name c) ->
                  exists name', heap w2 !! r = Some (ORobot v name' c)).
  { intros w2 x v0 n0 Hh. cbn.
    split; [by apply prefix_app_r|]. split; [rewrite length_app; cbn; lia|].
    split; [done|]. intros r v name c _ Hr. exists name.
    rewrite Hh. by apply lookup_snoc2_old. }
  assert (Hsame : forall w2, heap w2 = heap w ->
             RobotFactoryApp.robots self `prefix_of` RobotFactoryApp.robots self
             /\ (length (RobotFactoryApp.robots self)
                 <= length (RobotFactoryApp.robots self) + 1)%nat
             /\ RobotFactoryApp.logger self = RobotFactoryApp.logger self
             /\ forall r v name c,
                  r ∈ RobotFactoryApp.robots self ->
                  heap w !! r = Some (ORobot v name c) ->
                  exists name', heap w2 !! r = Some (ORobot v name' c)).
  { intros w2 Hh. split; [done|]. split; [lia|]. split; [done|].
    intros r v name c _ Hr. exists name. by rewrite Hh. }
  destruct Hact as [s|res self' w' Hrun|res self' w' Hrun|res self' w' Hrun
                    |r dlg res w' Hin Hfit Hrun].
  - by apply Hsame.
  - destruct (create_humanoid_robot_effect self w _ Hi Hlog Hok)
      as (w'' & Hrun' & Hh & _).
    rewrite Hrun in Hrun'. injection Hrun' as -> -> ->.
    by eapply Happend.
  - destruct (create_heavy_robot_effect self w _ Hi Hlog Hok)
      as (w'' & Hrun' & Hh & _).
    rewrite Hrun in Hrun'. injection Hrun' as -> -> ->.
    by eapply Happend.
  - destruct (RobotFactoryApp.last_robot self) as [last|] eqn:Elast.
    + assert (Hin : last ∈ RobotFactoryApp.robots self)
        by (by apply last_Some_elem_of).
      destruct (Hsound last Hin) as (v & name & c & a & Hr & Hc & _).
      destruct (clone_robot_effect self w _ last v a name c Hlog Hok Elast Hr Hc)
        as (w'' & Hrun' & Hh & _).
      rewrite Hrun in Hrun'. injection Hrun' as -> -> ->.
      by eapply Happend.
    + unfold RobotFactoryApp.clone_robot in Hrun.
      rewrite get_self_run, Elast in Hrun.
      rewrite (lift_run _ _ _ _ _ (log_run _ _ _ _ Hlog)) in Hrun.
      injection Hrun as <- <- <-. by apply Hsame.
  - destruct (Hsound r Hin) as (v & name & c & a & Hr & Hc & _).
    destruct (apply_changes_effect self w _ r v name c a dlg Hlog Hok Hr Hc)
      as (w'' & Hrun' & Hh & _).
    { intros ->. by eapply Hfit. }
    rewrite Hrun in Hrun'. injection Hrun' as -> ->.
    split; [done|]. split; [lia|]. split; [done|].
    intros x vx nx cx Hx Gx. unfold loc in *.
    destruct (decide (x = r)) as [->|Hne].
    + same_obj Hr Gx. eexists. rewrite Hh.
      rewrite list_lookup_insert_ne by (kind_clash Hr Hc).
      apply list_lookup_insert_eq. by eapply lookup_lt_Some.
    + exists nx. rewrite Hh.
      rewrite list_lookup_insert_ne by (kind_clash Hc Gx).
      by rewrite list_lookup_insert_ne.
Qed.

Lemma robots_never_removed_witness :
  RobotFactoryApp.robots created.1 `prefix_of` RobotFactoryApp.robots demo.1
  /\ (length (RobotFactoryApp.robots demo.1)
      <= length (RobotFactoryApp.robots created.1) + 1)%nat
  /\ RobotFactoryApp.logger demo.1 = RobotFactoryApp.logger created.1
  /\ forall r v name c,
       r ∈ RobotFactoryApp.robots created.1 ->
       heap created.2 !! r = Some (ORobot v name c) ->
       exists name', heap demo.2 !! r = Some (ORobot v name' c).
Proof.
  apply (robots_never_removed created.1 created.2 demo.1 demo.2).
  - exact created_reachable.
  - apply (act_clone _ _ (Returns tt)). vm_compute. reflexivity.
Defined.

Lemma render_split v a name :
  v <> OtherRobot ->
  Render.render v a name
  = (render_body v a ++ [Render.name_label name (label_colour v)])%list.
Proof.
  intros Hv. destruct v; [| |done]; unfold Render.render, render_body;
    cbn [label_colour]; by rewrite <- !app_assoc.
Qed.

(** X16. The clone action draws the clone as the original is drawn and ends
    as a redraw of the original ends.  When Tk takes the original's eye
    colour the action returns and the canvas holds the original's picture
    item for item, except for the last item, the name label, which carries
    the name with "_clone" appended.  When Tk refuses the colour (the
    original was given "Hazel") the action raises [TclError] for it as the
    redraw does, with the same head and eye socket on the canvas and no
    label, and no dialog opens. *)
Theorem clone_looks_alike self w last v a name :
  reachable self w ->
  RobotFactoryApp.last_robot self = Some last ->
  entity_at w last v a name ->
  exists res self' w',
    RobotFactoryApp.clone_robot (self, w) = (res, (self', w'))
    /\ (drawing self last w).1 = res
    /\ if paintable v a
       then res = Returns tt
            /\ (drawing self last w).2
               = (render_body v a
                  ++ [Render.name_label name (label_colour v)])%list
            /\ canvas w'
               = (render_body v a
                  ++ [Render.name_label (name ++ "_clone") (label_colour v)])%list
       else res = Raises (TclError (eye_color a))
            /\ canvas w' = (drawing self last w).2
            /\ canvas w' = (Render.humanoid_head a ++ [Render.eye_socket 185])%list.
Proof.
  intros Hreach Hlast Hent.
  pose proof (reachable_inv _ _ Hreach)
    as (_ & Hlog & _ & _ & Hsound & _ & Hnewest & _).
  pose proof (sound_all_ok _ _ Hsound) as Hok.
  assert (Hin : last ∈ RobotFactoryApp.robots self).
  { apply last_Some_elem_of. by rewrite <- Hnewest. }
  rewrite Forall_forall in Hsound.
  destruct (Hsound last Hin) as (v' & name' & c & a' & Hr & Hc & Hv & _).
  pose proof Hent as (c0 & Hr0 & Hc0).
  same_obj Hr Hr0. same_obj Hc Hc0.
  destruct (clone_robot_effect self w _ last _ _ _ _ Hlog Hok Hlast Hr Hc)
    as (w' & Hrun & _ & _ & _ & _ & _ & Hcv & _).
  eexists _, _, w'. split; [exact Hrun|].
  rewrite (drawing_paint self w last _ _ _ Hent), paint_render.
  split; [reflexivity|]. cbn [fst snd].
  unfold verdict, drawn in *. destruct (paintable _ _).
  - split; [done|]. rewrite Hcv. by rewrite !render_split.
  - split; [done|]. by rewrite Hcv.
Qed.

Lemma clone_looks_alike_witness :
  (exists res self' w',
      RobotFactoryApp.clone_robot (created.1, created.2) = (res, (self', w'))
      /\ (drawing created.1 2%nat created.2).1 = res
      /\ res = Returns tt
      /\ (drawing created.1 2%nat created.2).2
         = (render_body HumanoidRobot (catalog mkHumanoidPartFactory)
            ++ [Render.name_label "Ada" "darkblue"])%list
      /\ canvas w'
         = (render_body HumanoidRobot (catalog mkHumanoidPartFactory)
            ++ [Render.name_label "Ada_clone" "darkblue"])%list)
  /\ (exists res self' w',
         RobotFactoryApp.clone_robot (hazel.1, hazel.2) = (res, (self', w'))
         /\ (drawing hazel.1 4%nat hazel.2).1 = res
         /\ res = Raises (TclError "Hazel")
         /\ canvas w' = (drawing hazel.1 4%nat hazel.2).2
         /\ canvas w'
            = (Render.humanoid_head
                 (applied HumanoidRobot hazel_dialog
                    (catalog mkHumanoidPartFactory))
               ++ [Render.eye_socket 185])%list).
Proof.
  split.
  - apply (clone_looks_alike created.1 created.2 2%nat HumanoidRobot
             (catalog mkHumanoidPartFactory) "Ada" created_reachable).
    + vm_compute. reflexivity.
    + exists 1%nat. split; vm_compute; reflexivity.
  - apply (clone_looks_alike hazel.1 hazel.2 4%nat HumanoidRobot
             (applied HumanoidRobot hazel_dialog (catalog mkHumanoidPartFactory))
             "Ada_clone" hazel_reachable).
    + vm_compute. reflexivity.
    + exists 3%nat. split; vm_compute; reflexivity.
Defined.

(** Of the eye colours the edit dialog offers, Tk takes all but the last,
    "Hazel". *)
Example eye_options_taken :
  map tk.accepts RobotFactoryApp.eye_options = [true; true; true; true; false].
Proof. vm_compute. reflexivity. Qed.
